(** * upRNA: the pyramidal frame-interpolation model of [core/models/upr_base.py]

    A shallow embedding of the Python module, and the properties its
    specification states about it.

    Conventions of the embedding.
    - Python integers are [Z]; Python floats and tensor elements are real
      numbers [R] (the exact arithmetic that float32 tensors round).
      Rounding of finite values is not represented. What float32 does
      beyond rounding is: the kernels [sigmoid] and [torch_exp] are fields
      of [TorchOps] that may return exactly 0 (underflow); a quotient by 0
      is NaN or an infinity in the program and has no counterpart here, so
      statements on a quotient assume a divisor other than 0; tensor sizes
      are bounded through [linear_allocated]. Elements are finite: an
      input that holds NaN or an infinity, or a sum or product that
      overflows to one, is outside the embedding.
    - A 4-D tensor is its shape [(N, C, H, W)] and its elements.
    - A Python exception is the [Raise] outcome of the [result] monad.
    - The operators the module imports (torch.nn layers, [F.interpolate],
      [softsplat], [correlation]) are the fields of the class [TorchOps]:
      their shape behaviour is written out, their learned or numeric content
      is a field. *)

From Stdlib Require Import ZArith List Bool String Reals Lra Lia.
Import ListNotations.

Local Open Scope Z_scope.
Local Set Warnings "-register-all".

(* ================================================================== *)
(** * Exceptions and the result monad *)
(* ================================================================== *)

(** The exception classes that the module can raise. The properties below
    depend on whether a call raises, not on the class. *)
Inductive exn : Type :=
| TypeError
| ValueError
| RuntimeError
| AttributeError
| IndexError
| UnboundLocalError.

Inductive result (A : Type) : Type :=
| Ok (a : A)
| Raise (e : exn).

Arguments Ok {A} a.
Arguments Raise {A} e.

Definition bind {A B : Type} (m : result A) (k : A -> result B) : result B :=
  match m with
  | Ok a => k a
  | Raise e => Raise e
  end.

Notation "x <- m ;; k" := (bind m (fun x => k))
  (at level 61, m at next level, right associativity).
Notation "' pat <- m ;; k" := (bind m (fun x => match x with pat => k end))
  (at level 61, pat pattern, m at next level, right associativity).

Definition raises {A : Type} (m : result A) : Prop := exists e, m = Raise e.

(* ================================================================== *)
(** * Tensors *)
(* ================================================================== *)

(** A tensor of shape [(tN, tC, tH, tW)]; [tat n c h w] is its element. *)
Record Tensor : Type := mkTensor {
  tN : Z;
  tC : Z;
  tH : Z;
  tW : Z;
  tat : Z -> Z -> Z -> Z -> R
}.

Definition same_batch_space (a b : Tensor) : bool :=
  (tN a =? tN b) && (tH a =? tH b) && (tW a =? tW b).

(** [torch.zeros((n, c, h, w))]. *)
Definition torch_zeros (n c h w : Z) : Tensor :=
  mkTensor n c h w (fun _ _ _ _ => 0%R).

(** Element-wise map, and [tensor * python_float]. *)
Definition tmap (f : R -> R) (t : Tensor) : Tensor :=
  mkTensor (tN t) (tC t) (tH t) (tW t) (fun n c h w => f (tat t n c h w)).

Definition smul (t : Tensor) (k : R) : Tensor := tmap (fun x => (x * k)%R) t.

(** Channel slice [t[:, a:b]] for [0 <= a]; [b = None] is [t[:, a:]].
    Python clips both ends to the channel count. *)
Definition slice_ch (t : Tensor) (a : Z) (b : option Z) : Tensor :=
  let lo := Z.min a (tC t) in
  let hi := match b with Some b => Z.min b (tC t) | None => tC t end in
  mkTensor (tN t) (Z.max 0 (hi - lo)) (tH t) (tW t)
           (fun n c h w => tat t n (c + lo) h w).

(** Broadcasting of one dimension: equal sizes, or one of them is 1. *)
Definition bdim (x y : Z) : option Z :=
  if x =? y then Some x
  else if x =? 1 then Some y
  else if y =? 1 then Some x
  else None.

Definition bidx (d i : Z) : Z := if d =? 1 then 0 else i.

(** Element-wise binary operator with broadcasting. *)
Definition broadcast (f : R -> R -> R) (a b : Tensor) : result Tensor :=
  match bdim (tN a) (tN b), bdim (tC a) (tC b),
        bdim (tH a) (tH b), bdim (tW a) (tW b) with
  | Some n, Some c, Some h, Some w =>
      Ok (mkTensor n c h w (fun i j k l =>
            f (tat a (bidx (tN a) i) (bidx (tC a) j) (bidx (tH a) k) (bidx (tW a) l))
              (tat b (bidx (tN b) i) (bidx (tC b) j) (bidx (tH b) k) (bidx (tW b) l))))
  | _, _, _, _ => Raise RuntimeError
  end.

Definition tadd := broadcast Rplus.
Definition tmul := broadcast Rmult.
Definition tdiv := broadcast Rdiv.

(** [torch.cat([a, b], 1)] and its n-ary form. *)
Definition cat2 (a b : Tensor) : result Tensor :=
  if same_batch_space a b then
    Ok (mkTensor (tN a) (tC a + tC b) (tH a) (tW a)
          (fun n c h w => if c <? tC a then tat a n c h w
                          else tat b n (c - tC a) h w))
  else Raise RuntimeError.

Fixpoint cat_from (acc : Tensor) (ts : list Tensor) : result Tensor :=
  match ts with
  | [] => Ok acc
  | t :: ts' => acc' <- cat2 acc t ;; cat_from acc' ts'
  end.

Definition torch_cat (ts : list Tensor) : result Tensor :=
  match ts with
  | [] => Raise RuntimeError
  | t :: ts' => cat_from t ts'
  end.

(** [torch.clamp(x, lo, hi)] and [F.leaky_relu]. *)
Definition clamp (x lo hi : R) : R := Rmin (Rmax x lo) hi.

Definition leaky_relu (slope x : R) : R := (Rmax 0 x + slope * Rmin 0 x)%R.

(* ================================================================== *)
(** * The imported operators *)
(* ================================================================== *)

Class TorchOps : Type := {
  (** elements computed by the named convolution (its learned weights) *)
  conv_out : string -> Tensor -> Z -> Z -> Z -> Z -> R;
  (** [F.interpolate(input, scale_factor, mode="bilinear", align_corners=False)] *)
  F_interpolate : Tensor -> R -> result Tensor;
  (** elements splatted by [softsplat.FunctionSoftsplat] in the given mode *)
  softsplat_out : string -> option Tensor -> Tensor -> Tensor -> Z -> Z -> Z -> Z -> R;
  (** elements of the cost volume of [correlation.FunctionCorrelation] *)
  correlation_out : Tensor -> Tensor -> Z -> Z -> Z -> Z -> R;
  (** the [nn.Sequential] stacks of the synthesis encoder and decoder *)
  nn_sequential : string -> Tensor -> result Tensor;
  (** [SelfAttention.forward] on tensors *)
  attention : Tensor -> Tensor -> result Tensor;
  (** [torch.sigmoid] on a float32 element: a value of the closed interval
      [0, 1], and exactly 0 from -104 downwards, where [1 / (1 + e^104)] is
      below half the smallest positive float32 *)
  sigmoid : R -> R;
  sigmoid_range : forall x, (0 <= sigmoid x <= 1)%R;
  sigmoid_underflow : forall x, (x <= -104)%R -> sigmoid x = 0%R;
  (** the exponential inside [torch.softmax] on float32: never negative,
      1 at 0, and exactly 0 from -104 downwards *)
  torch_exp : R -> R;
  torch_exp_nonneg : forall x, (0 <= torch_exp x)%R;
  torch_exp_0 : torch_exp 0 = 1%R;
  torch_exp_underflow : forall x, (x <= -104)%R -> torch_exp x = 0%R;
  (** whether [nn.Linear(in_features, out_features)] gets its weight: never
      with a negative size or beyond what int64 counts, always at the sizes
      of this module (at most 64 by 64) *)
  linear_allocated : Z -> Z -> bool;
  linear_allocated_int64 :
    forall i o, linear_allocated i o = true ->
                0 <= i < 2 ^ 63 /\ 0 <= o < 2 ^ 63 /\ i * o < 2 ^ 63;
  linear_allocated_small :
    forall i o, 0 <= i <= 64 -> 0 <= o <= 64 -> linear_allocated i o = true
}.

(* ================================================================== *)
(** * SynthesisNetwork: prediction and blending (lines 286-295) *)
(* ================================================================== *)

Section Prediction.

Context {ops : TorchOps}.

Definition refine_res (refine : Tensor) : Tensor :=
  tmap (fun x => (sigmoid x * 2 - 1)%R) (slice_ch refine 0 (Some 3)).

Definition refine_mask0 (refine : Tensor) : Tensor :=
  tmap sigmoid (slice_ch refine 3 (Some 4)).

Definition refine_mask1 (refine : Tensor) : Tensor :=
  tmap sigmoid (slice_ch refine 4 (Some 5)).

End Prediction.

(** The normalisation [mask0 * (1 - t) + mask1 * t]. *)
Definition blend_denominator (mask0 mask1 : Tensor) (time_period : R)
  : result Tensor :=
  tadd (smul mask0 (1 - time_period)) (smul mask1 time_period).

(** [merged_img] of lines 290-293. *)
Definition merged_img (warped_img0_rgb warped_img1_rgb mask0 mask1 : Tensor)
           (time_period : R) : result Tensor :=
  a <- tmul warped_img0_rgb mask0 ;;
  b <- tmul warped_img1_rgb mask1 ;;
  num <- tadd (smul a (1 - time_period)) (smul b time_period) ;;
  den <- blend_denominator mask0 mask1 time_period ;;
  tdiv num den.

(** The dictionary returned beside the frame. *)
Record extra_dict : Type := mkExtra {
  extra_refine_res : Tensor;
  extra_warped_img0 : Tensor;
  extra_warped_img1 : Tensor;
  extra_merged_img : Tensor
}.

(** Lines 290-303 for given masks and residual. *)
Definition blend (warped_img0_rgb warped_img1_rgb mask0 mask1 res : Tensor)
           (time_period : R) : result (Tensor * extra_dict) :=
  merged <- merged_img warped_img0_rgb warped_img1_rgb mask0 mask1 time_period ;;
  interp_img <- tadd merged res ;;
  Ok (tmap (fun x => clamp x 0 1) interp_img,
      mkExtra res warped_img0_rgb warped_img1_rgb merged).

(** Lines 287-303: decode the 5-channel prediction [refine] and blend. *)
Definition predict {ops : TorchOps}
           (refine warped_img0_rgb warped_img1_rgb : Tensor)
           (time_period : R) : result (Tensor * extra_dict) :=
  blend warped_img0_rgb warped_img1_rgb
        (refine_mask0 refine) (refine_mask1 refine) (refine_res refine)
        time_period.

(* ================================================================== *)
(** * Python values and sequences *)
(* ================================================================== *)

(** The values that reach the parameters of this module's functions. *)
Inductive value : Type :=
| VNone
| VFloat (x : R)
| VTensor (t : Tensor)
| VList (vs : list value).

Definition opt_value (o : option Tensor) : value :=
  match o with
  | Some t => VTensor t
  | None => VNone
  end.

(** A tensor operator applied to a value that is not a tensor raises. *)
Definition as_tensor (v : value) : result Tensor :=
  match v with
  | VTensor t => Ok t
  | _ => Raise TypeError
  end.

Definition as_opt_tensor (v : value) : result (option Tensor) :=
  match v with
  | VTensor t => Ok (Some t)
  | VNone => Ok None
  | _ => Raise TypeError
  end.

Fixpoint as_tensor_list (vs : list value) : result (list Tensor) :=
  match vs with
  | [] => Ok []
  | v :: vs' => t <- as_tensor v ;; ts <- as_tensor_list vs' ;; Ok (t :: ts)
  end.

Definition as_pyramid (v : value) : result (list Tensor) :=
  match v with
  | VList vs => as_tensor_list vs
  | _ => Raise TypeError
  end.

(** [v[:, a:b]]: only a tensor takes a two-place subscript. *)
Definition subscript_ch (v : value) (a : Z) (b : option Z) : result Tensor :=
  match v with
  | VTensor t => Ok (slice_ch t a b)
  | _ => Raise TypeError
  end.

(** [range(n)], [l[::-1]], [l[start:]], [l[:-1]], [l[i]] and [l[-1]]. *)
Definition py_range (n : Z) : list Z := map Z.of_nat (seq 0 (Z.to_nat n)).

Definition py_slice_from {A : Type} (l : list A) (start : Z) : list A :=
  let len := Z.of_nat (List.length l) in
  let s := if start <? 0 then Z.max 0 (len + start) else Z.min start len in
  skipn (Z.to_nat s) l.

Definition py_index {A : Type} (l : list A) (i : nat) : result A :=
  match nth_error l i with
  | Some a => Ok a
  | None => Raise IndexError
  end.

Definition py_last {A : Type} (l : list A) : result A :=
  match rev l with
  | a :: _ => Ok a
  | [] => Raise IndexError
  end.

Definition py_in (x : Z) (l : list Z) : bool := existsb (Z.eqb x) l.

Definition py_len {A : Type} (l : list A) : Z := Z.of_nat (List.length l).

Section Embedding.

Context {ops : TorchOps}.

Definition F_interpolate_v (input : value) (scale_factor : R) : result Tensor :=
  match input with
  | VTensor t => F_interpolate t scale_factor
  | _ => Raise AttributeError
  end.

(** Modelled from the spec: the warp operator of section 6, which takes a
    flow of shape batch x 2 x H x W and returns a tensor of the shape of its
    input; its source ([models/softsplat]) is not part of the files. *)
Definition FunctionSoftsplat (tenInput tenFlow : Tensor)
           (tenMetric : option Tensor) (strType : string) : result Tensor :=
  if (tC tenFlow =? 2) && same_batch_space tenInput tenFlow then
    Ok (mkTensor (tN tenInput) (tC tenInput) (tH tenInput) (tW tenInput)
          (softsplat_out strType tenMetric tenInput tenFlow))
  else Raise RuntimeError.

(** Modelled from the spec: the correlation volume of section 6, with
    [(2 * radius + 1) ^ 2] channels for the radius 4 of line 123; its source
    ([utils/correlation]) is not part of the files. *)
Definition correlation_radius : Z := 4.

Definition FunctionCorrelation (tenFirst tenSecond : Tensor) : result Tensor :=
  if (tC tenFirst =? tC tenSecond) && same_batch_space tenFirst tenSecond then
    Ok (mkTensor (tN tenFirst) ((2 * correlation_radius + 1) ^ 2)
          (tH tenFirst) (tW tenFirst)
          (correlation_out tenFirst tenSecond))
  else Raise RuntimeError.

(** ** Layers *)

Inductive layer : Type :=
| Conv2d (name : string) (in_channels out_channels kernel_size stride padding : Z)
| LeakyReLU (negative_slope : R).

Definition conv_size (size k s p : Z) : Z := (size + 2 * p - k) / s + 1.

Definition apply_layer (l : layer) (x : Tensor) : result Tensor :=
  match l with
  | Conv2d name cin cout k s p =>
      if negb (tC x =? cin) then Raise RuntimeError
      else if (tH x + 2 * p <? k) || (tW x + 2 * p <? k) then Raise RuntimeError
      else Ok (mkTensor (tN x) cout (conv_size (tH x) k s p) (conv_size (tW x) k s p)
                 (conv_out name x))
  | LeakyReLU slope => Ok (tmap (leaky_relu slope) x)
  end.

Fixpoint Sequential (ls : list layer) (x : Tensor) : result Tensor :=
  match ls with
  | [] => Ok x
  | l :: ls' => y <- apply_layer l x ;; Sequential ls' y
  end.

(** ** FeatPyramid *)

Definition feat_stage (name : string) (cin cout stride : Z) : list layer :=
  [ Conv2d (name ++ ".0")%string cin cout 3 stride 1; LeakyReLU 0.1;
    Conv2d (name ++ ".2")%string cout cout 3 1 1; LeakyReLU 0.1;
    Conv2d (name ++ ".4")%string cout cout 3 1 1; LeakyReLU 0.1;
    Conv2d (name ++ ".6")%string cout cout 3 1 1; LeakyReLU 0.1 ].

Definition FeatPyramid_forward (name : string) (img : Tensor)
  : result (list Tensor) :=
  C0 <- Sequential (feat_stage (name ++ ".conv_stage0")%string 3 16 1) img ;;
  C1 <- Sequential (feat_stage (name ++ ".conv_stage1")%string 16 32 2) C0 ;;
  C2 <- Sequential (feat_stage (name ++ ".conv_stage2")%string 32 64 2) C1 ;;
  Ok [C0; C1; C2].

(** ** MotionEstimator *)

Definition conv_layer1 : list layer :=
  [ Conv2d "conv_layer1.0" 277 160 1 1 0; LeakyReLU 0.1 ].
Definition conv_layer2 : list layer :=
  [ Conv2d "conv_layer2.0" 160 128 3 1 1; LeakyReLU 0.1 ].
Definition conv_layer3 : list layer :=
  [ Conv2d "conv_layer3.0" 128 112 3 1 1; LeakyReLU 0.1 ].
Definition conv_layer4 : list layer :=
  [ Conv2d "conv_layer4.0" 112 96 3 1 1; LeakyReLU 0.1 ].
Definition conv_layer5 : list layer :=
  [ Conv2d "conv_layer5.0" 96 64 3 1 1; LeakyReLU 0.1 ].
Definition conv_layer6 : list layer :=
  [ Conv2d "conv_layer6.0" 64 4 3 1 1 ].

(** The two pre-warped feature maps of lines 150-155. *)
Definition prewarp (feat0 feat1 : Tensor) (last_flow : value)
  : result (Tensor * Tensor) :=
  f0 <- subscript_ch last_flow 0 (Some 2) ;;
  feat0' <- FunctionSoftsplat feat0 (smul (smul f0 0.25) 0.5) None "average" ;;
  f1 <- subscript_ch last_flow 2 None ;;
  feat1' <- FunctionSoftsplat feat1 (smul (smul f1 0.25) 0.5) None "average" ;;
  Ok (feat0', feat1').

(** The concatenated input of line 160. *)
Definition estimator_input (feat0 feat1 : Tensor) (last_feat last_flow : value)
  : result Tensor :=
  '(feat0', feat1') <- prewarp feat0 feat1 last_flow ;;
  corr <- FunctionCorrelation feat0' feat1' ;;
  let volume := tmap (leaky_relu 0.1) corr in
  lfeat <- as_tensor last_feat ;;
  lflow <- as_tensor last_flow ;;
  torch_cat [volume; feat0'; feat1'; lfeat; lflow].

Definition MotionEstimator_forward (feat0 feat1 : Tensor)
           (last_feat last_flow : value) : result (Tensor * Tensor) :=
  x <- estimator_input feat0 feat1 last_feat last_flow ;;
  feat <- Sequential conv_layer1 x ;;
  feat <- Sequential conv_layer2 feat ;;
  feat <- Sequential conv_layer3 feat ;;
  feat <- Sequential conv_layer4 feat ;;
  feat <- Sequential conv_layer5 feat ;;
  flow <- Sequential conv_layer6 feat ;;
  Ok (flow, feat).

(** ** SynthesisNetwork *)

Definition get_warped_representations (bi_flow c0 c1 : Tensor)
           (i0 i1 : option Tensor) (time_period : R) : result (list Tensor) :=
  let flow_0t := smul (slice_ch bi_flow 0 (Some 2)) time_period in
  let flow_1t := smul (slice_ch bi_flow 2 (Some 4)) (1 - time_period) in
  warped_c0 <- FunctionSoftsplat c0 flow_0t None "average" ;;
  warped_c1 <- FunctionSoftsplat c1 flow_1t None "average" ;;
  match i0, i1 with
  | None, None => Ok [warped_c0; warped_c1]
  | _, _ =>
      i0' <- as_tensor (opt_value i0) ;;
      warped_img0 <- FunctionSoftsplat i0' flow_0t None "average" ;;
      i1' <- as_tensor (opt_value i1) ;;
      warped_img1 <- FunctionSoftsplat i1' flow_1t None "average" ;;
      flow_0t_1t <- torch_cat [flow_0t; flow_1t] ;;
      Ok [warped_img0; warped_img1; warped_c0; warped_c1; flow_0t_1t]
  end.

(** A call [self.get_warped_representations(a1, ..., an, time_period=t)]: Python
    binds the positional arguments to [bi_flow, c0, c1, i0, i1]; fewer than
    three or more than five (with the keyword given) is a [TypeError]. *)
Definition call_get_warped_representations (args : list value)
           (time_period : R) : result (list Tensor) :=
  match args with
  | bi_flow :: c0 :: c1 :: rest =>
      '(i0, i1) <- match rest with
                   | [] => Ok (VNone, VNone)
                   | [i0] => Ok (i0, VNone)
                   | [i0; i1] => Ok (i0, i1)
                   | _ => Raise TypeError
                   end ;;
      bi_flow <- as_tensor bi_flow ;;
      c0 <- as_tensor c0 ;;
      c1 <- as_tensor c1 ;;
      i0 <- as_opt_tensor i0 ;;
      i1 <- as_opt_tensor i1 ;;
      get_warped_representations bi_flow c0 c1 i0 i1 time_period
  | _ => Raise TypeError
  end.

Definition SelfAttention_forward (prev_frame next_frame : option Tensor)
  : result Tensor :=
  match prev_frame, next_frame with
  | Some p, Some n => attention p n
  | _, _ => Raise AttributeError
  end.

Definition pred : list layer := [ Conv2d "pred" 32 5 3 1 1 ].

Definition SynthesisNetwork_forward
           (last_i_rgb i0_rgb i1_rgb last_i_depth i0_depth i1_depth : Tensor)
           (c0_pyr_rgb c1_pyr_rgb c0_pyr_depth c1_pyr_depth bi_flow_pyr : list Tensor)
           (time_period : R) (cross_att : option Tensor)
  : result (Tensor * extra_dict) :=
  f0 <- py_index bi_flow_pyr 0 ;;
  c0r <- py_index c0_pyr_rgb 0 ;;
  c1r <- py_index c1_pyr_rgb 0 ;;
  c0d <- py_index c0_pyr_depth 0 ;;
  c1d <- py_index c1_pyr_depth 0 ;;
  (* line 258: nine positional arguments *)
  r <- call_get_warped_representations
         [VTensor f0; VTensor c0r; VTensor c1r; VTensor i0_rgb; VTensor i1_rgb;
          VTensor c0d; VTensor c1d; VTensor i0_depth; VTensor i1_depth]
         time_period ;;
  match r with
  | [warped_img0_rgb; warped_img0_depth; warped_img1_depth; warped_img1_rgb;
     warped_c0; warped_c1; flow_0t_1t_rgb; flow_0t_1t_depth] =>
      input_feat_rgb <- torch_cat [last_i_rgb; warped_img0_rgb; warped_img1_rgb;
                                   i0_rgb; i1_rgb; flow_0t_1t_rgb] ;;
      input_feat_depth <- torch_cat [last_i_depth; warped_img0_depth;
                                     warped_img1_depth; i0_depth; i1_depth;
                                     flow_0t_1t_depth] ;;
      input_feat <- torch_cat [input_feat_rgb; input_feat_depth] ;;
      s0 <- nn_sequential "encoder_conv" input_feat ;;
      x1 <- torch_cat [s0; warped_c0; warped_c1] ;;
      s1 <- nn_sequential "encoder_down1" x1 ;;
      f1 <- py_index bi_flow_pyr 1 ;;
      c0r1 <- py_index c0_pyr_rgb 1 ;;
      c1r1 <- py_index c1_pyr_rgb 1 ;;
      c0d1 <- py_index c0_pyr_depth 1 ;;
      c1d1 <- py_index c1_pyr_depth 1 ;;
      (* line 273: three names for the returned tuple *)
      r' <- call_get_warped_representations
              [VTensor f1; VTensor c0r1; VTensor c1r1; VTensor c0d1; VTensor c1d1]
              time_period ;;
      match r' with
      | [warped_c0; warped_c1; _] =>
          x2 <- torch_cat [s1; warped_c0; warped_c1] ;;
          s2 <- nn_sequential "encoder_down2" x2 ;;
          cross_att <- SelfAttention_forward cross_att cross_att ;;
          x3 <- torch_cat [s2; warped_c0; warped_c1] ;;
          x <- nn_sequential "decoder_up1" x3 ;;
          x4 <- torch_cat [cross_att; s1] ;;
          x <- nn_sequential "decoder_up2" x4 ;;
          x5 <- torch_cat [x; s0] ;;
          x <- nn_sequential "decoder_conv" x5 ;;
          refine <- Sequential pred x ;;
          predict refine warped_img0_rgb warped_img1_rgb time_period
      | _ => Raise ValueError
      end
  | _ => Raise ValueError
  end.

(** A call [self.synthesis_network(a1, ..., an, time_period=t)]: eleven positional
    parameters are required, and a twelfth would be [time_period] again. *)
Definition call_synthesis_network (args : list value) (time_period : R)
  : result (Tensor * extra_dict) :=
  match args with
  | [last_i_rgb; i0_rgb; i1_rgb; last_i_depth; i0_depth; i1_depth;
     c0_pyr_rgb; c1_pyr_rgb; c0_pyr_depth; c1_pyr_depth; bi_flow_pyr] =>
      last_i_rgb <- as_tensor last_i_rgb ;;
      i0_rgb <- as_tensor i0_rgb ;;
      i1_rgb <- as_tensor i1_rgb ;;
      last_i_depth <- as_tensor last_i_depth ;;
      i0_depth <- as_tensor i0_depth ;;
      i1_depth <- as_tensor i1_depth ;;
      c0_pyr_rgb <- as_pyramid c0_pyr_rgb ;;
      c1_pyr_rgb <- as_pyramid c1_pyr_rgb ;;
      c0_pyr_depth <- as_pyramid c0_pyr_depth ;;
      c1_pyr_depth <- as_pyramid c1_pyr_depth ;;
      bi_flow_pyr <- as_pyramid bi_flow_pyr ;;
      SynthesisNetwork_forward last_i_rgb i0_rgb i1_rgb
        last_i_depth i0_depth i1_depth
        c0_pyr_rgb c1_pyr_rgb c0_pyr_depth c1_pyr_depth bi_flow_pyr
        time_period None
  | _ => Raise TypeError
  end.

(** ** Model *)

(** The module and its sub-modules, each called through its [forward]. *)
Record Model : Type := mkModel {
  pyr_level : Z;
  nr_lvl_skipped : Z;
  feat_pyramid_rgb : Tensor -> result (list Tensor);
  feat_pyramid_depth : Tensor -> result (list Tensor);
  motion_estimator : Tensor -> Tensor -> value -> value -> result (Tensor * Tensor);
  synthesis_network : list value -> R -> result (Tensor * extra_dict)
}.

(** [Model.__init__(pyr_level=3, nr_lvl_skipped=0)]. *)
Definition Model_init (pyr_level_arg nr_lvl_skipped_arg : option Z) : Model :=
  mkModel (match pyr_level_arg with Some l => l | None => 3 end)
          (match nr_lvl_skipped_arg with Some s => s | None => 0 end)
          (FeatPyramid_forward "feat_pyramid_rgb")
          (FeatPyramid_forward "feat_pyramid_depth")
          MotionEstimator_forward
          call_synthesis_network.

(** [[torch.cat([rgb, depth], dim=1) for rgb, depth in zip(a, b)]]. *)
Fixpoint cat_pairs (a b : list Tensor) : result (list Tensor) :=
  match a, b with
  | rgb_feat :: a', depth_feat :: b' =>
      t <- torch_cat [rgb_feat; depth_feat] ;;
      ts <- cat_pairs a' b' ;;
      Ok (t :: ts)
  | _, _ => Ok []
  end.

Definition forward_one_lvl (self : Model)
           (img0_rgb img1_rgb img0_depth img1_depth : Tensor)
           (last_feat last_flow last_interp : value)
           (time_period : R) (skip_me : bool)
  : result (value * value * Tensor * extra_dict) :=
  feat0_pyr_rgb <- feat_pyramid_rgb self img0_rgb ;;
  feat1_pyr_rgb <- feat_pyramid_rgb self img1_rgb ;;
  feat0_pyr_depth <- feat_pyramid_depth self img0_depth ;;
  feat1_pyr_depth <- feat_pyramid_depth self img1_depth ;;
  feat0_pyr <- cat_pairs feat0_pyr_rgb feat0_pyr_depth ;;
  feat1_pyr <- cat_pairs feat1_pyr_rgb feat1_pyr_depth ;;
  '(flow, feat) <-
    (if negb skip_me then
       f0 <- py_last feat0_pyr ;;
       f1 <- py_last feat1_pyr ;;
       '(flow, feat) <- motion_estimator self f0 f1 last_feat last_flow ;;
       Ok (VTensor flow, VTensor feat)
     else Ok (last_flow, last_feat)) ;;
  ori_resolution_flow <- F_interpolate_v flow 4 ;;
  tmp1 <- F_interpolate ori_resolution_flow 0.5 ;;
  let tmp1 := smul tmp1 0.5 in
  tmp2 <- F_interpolate tmp1 0.5 ;;
  let tmp2 := smul tmp2 0.5 in
  let bi_flow_pyr := [ori_resolution_flow; tmp1; tmp2] in
  last_interp <-
    match last_interp with
    | VNone =>
        let flow_0t := smul (slice_ch ori_resolution_flow 0 (Some 2)) time_period in
        let flow_1t := smul (slice_ch ori_resolution_flow 2 (Some 4)) (1 - time_period) in
        warped_img0 <- FunctionSoftsplat img0_rgb flow_0t None "average" ;;
        warped_img1 <- FunctionSoftsplat img1_rgb flow_1t None "average" ;;
        li <- tadd (smul warped_img0 (1 - time_period)) (smul warped_img1 time_period) ;;
        Ok (VTensor li)
    | v => Ok v
    end ;;
  (* line 377: six positional arguments *)
  '(interp_img, extra) <-
    synthesis_network self
      [last_interp; VTensor img0_rgb; VTensor img1_rgb;
       VList (map VTensor feat0_pyr); VList (map VTensor feat1_pyr);
       VList (map VTensor bi_flow_pyr)]
      time_period ;;
  Ok (flow, feat, interp_img, extra).

(** ** Model.forward: the pyramid scheduler *)

(** [skipped_levels] of lines 391-392. *)
Definition skipped_levels (pyr_level nr_lvl_skipped : Z) : list Z :=
  if nr_lvl_skipped =? 0 then []
  else py_slice_from (rev (py_range pyr_level)) (- nr_lvl_skipped).

(** The local variables the loop carries once a level has run. *)
Record locals : Type := mkLocals {
  loc_last_flow : Tensor;
  loc_last_feat : Tensor;
  loc_last_interp : option Tensor;
  loc_flow : value;
  loc_feat : value;
  loc_interp_img : Tensor
}.

(** Reading a local variable before any level has run. *)
Definition bound (st : option locals) : result locals :=
  match st with
  | Some s => Ok s
  | None => Raise UnboundLocalError
  end.

(** What lines 408-447 decide for a level: [continue], or the state and the
    flag that line 449 passes on. *)
Record level_inputs : Type := mkRun {
  run_last_flow : Tensor;
  run_last_feat : Tensor;
  run_last_interp : option Tensor;
  run_skip_me : bool
}.

Inductive action : Type :=
| Continue
| Run (i : level_inputs).

Definition prepare (N H W pyr_level : Z) (skipped_levels : list Z)
           (st : option locals) (level : Z) : result action :=
  (* the lowest-resolution pyramid level *)
  if level =? pyr_level - 1 then
    Ok (Run (mkRun
               (torch_zeros N 4 (H / 2 ^ (level + 2)) (W / 2 ^ (level + 2)))
               (torch_zeros N 64 (H / 2 ^ (level + 2)) (W / 2 ^ (level + 2)))
               None false))
  (* skip some levels for both motion estimation and frame synthesis *)
  else if py_in level (removelast skipped_levels) then Ok Continue
  (* last level, only skip motion estimation *)
  else if (level =? 0) && (0 <? py_len skipped_levels) then
    if py_len skipped_levels =? pyr_level then
      s <- bound st ;;
      Ok (Run (mkRun (torch_zeros N 4 (H / 4) (W / 4)) (loc_last_feat s) None true))
    else
      s <- bound st ;;
      let resize_factor := 2 ^ py_len skipped_levels in
      f <- F_interpolate_v (loc_flow s) (IZR resize_factor) ;;
      i <- F_interpolate (loc_interp_img s) (IZR resize_factor) ;;
      Ok (Run (mkRun (smul f (IZR resize_factor)) (loc_last_feat s) (Some i) true))
  (* motion estimation + frame synthesis *)
  else
    s <- bound st ;;
    f <- F_interpolate_v (loc_flow s) 2 ;;
    g <- F_interpolate_v (loc_feat s) 2 ;;
    i <- F_interpolate (loc_interp_img s) 2 ;;
    Ok (Run (mkRun (smul f 2) (smul g 2) (Some i) false)).

(** The images of a level (lines 396-406). *)
Definition images_this_lvl (img0 img1 : Tensor) (level : Z)
  : result (Tensor * Tensor) :=
  if negb (level =? 0) then
    let scale_factor := (1 / IZR (2 ^ level))%R in
    img0_this_lvl <- F_interpolate img0 scale_factor ;;
    img1_this_lvl <- F_interpolate img1 scale_factor ;;
    Ok (img0_this_lvl, img1_this_lvl)
  else Ok (img0, img1).

(** Lines 449-455: the call binds [last_feat, last_flow, last_interp,
    time_period] to the parameters [img0_depth, img1_depth, last_feat,
    last_flow] of [forward_one_lvl], whose [last_interp] and [time_period]
    keep their defaults. *)
Definition run_level (self : Model) (img0_this_lvl img1_this_lvl : Tensor)
           (time_period : R) (i : level_inputs) (bi_flows : list Tensor)
  : result (option locals * list Tensor) :=
  '(flow, feat, interp_img, _) <-
    forward_one_lvl self img0_this_lvl img1_this_lvl
      (run_last_feat i) (run_last_flow i)
      (opt_value (run_last_interp i)) (VFloat time_period)
      VNone 0.5 (run_skip_me i) ;;
  up <- F_interpolate_v flow 4 ;;
  Ok (Some (mkLocals (run_last_flow i) (run_last_feat i) (run_last_interp i)
                     flow feat interp_img),
      bi_flows ++ [up]).

(** One iteration of the loop of line 395. *)
Definition level_body (self : Model) (img0 img1 : Tensor) (time_period : R)
           (pyr_level : Z) (skipped_levels : list Z)
           (st : option locals) (bi_flows : list Tensor) (level : Z)
  : result (option locals * list Tensor) :=
  '(img0_this_lvl, img1_this_lvl) <- images_this_lvl img0 img1 level ;;
  a <- prepare (tN img0) (tH img0) (tW img0) pyr_level skipped_levels st level ;;
  match a with
  | Continue => Ok (st, bi_flows)
  | Run i => run_level self img0_this_lvl img1_this_lvl time_period i bi_flows
  end.

Fixpoint run_levels (self : Model) (img0 img1 : Tensor) (time_period : R)
         (pyr_level : Z) (skipped_levels : list Z) (levels : list Z)
         (st : option locals) (bi_flows : list Tensor)
  : result (option locals * list Tensor) :=
  match levels with
  | [] => Ok (st, bi_flows)
  | level :: rest =>
      '(st', bi_flows') <-
        level_body self img0 img1 time_period pyr_level skipped_levels
                   st bi_flows level ;;
      run_levels self img0 img1 time_period pyr_level skipped_levels
                 rest st' bi_flows'
  end.

(** The tuple and dictionary that [Model.forward] returns. *)
Record forward_output : Type := mkOutput {
  out_img0 : Tensor;
  out_interp_img : Tensor;
  out_bi_flow : Tensor;
  out_interp_imgs : list Tensor;
  out_bi_flows : list Tensor
}.

(** Lines 457-466. *)
Definition finish (img0 : Tensor) (st : option locals) (bi_flows : list Tensor)
  : result forward_output :=
  s <- bound st ;;
  bi_flow <- F_interpolate_v (loc_flow s) 4 ;;
  let interp_imgs := [] ++ [loc_interp_img s] in
  Ok (mkOutput img0 (loc_interp_img s) bi_flow interp_imgs bi_flows).

Definition forward (self : Model) (img0 img1 : Tensor) (time_period : R)
           (pyr_level_arg nr_lvl_skipped_arg : option Z)
  : result forward_output :=
  let pyr_level :=
    match pyr_level_arg with Some l => l | None => pyr_level self end in
  let nr_lvl_skipped :=
    match nr_lvl_skipped_arg with Some s => s | None => nr_lvl_skipped self end in
  let skipped_levels := skipped_levels pyr_level nr_lvl_skipped in
  '(st, bi_flows) <-
    run_levels self img0 img1 time_period pyr_level skipped_levels
               (rev (py_range pyr_level)) None [] ;;
  finish img0 st bi_flows.

(** A level is processed when the loop does not leave it by [continue]. *)
Definition processed (pyr_level : Z) (skipped_levels : list Z) (level : Z)
  : bool :=
  (level =? pyr_level - 1) || negb (py_in level (removelast skipped_levels)).

Definition processed_levels (pyr_level : Z) (skipped_levels : list Z)
  : list Z :=
  filter (processed pyr_level skipped_levels) (rev (py_range pyr_level)).

(** The model with another module assigned to [self.motion_estimator]. *)
Definition with_motion_estimator (self : Model)
           (me : Tensor -> Tensor -> value -> value -> result (Tensor * Tensor))
  : Model :=
  mkModel (pyr_level self) (nr_lvl_skipped self)
          (feat_pyramid_rgb self) (feat_pyramid_depth self)
          me (synthesis_network self).

(** ** The pyramid of section 4.5 without skip handling

    Written from the specification, section 4.5, and not from the code: the
    state machine over the levels [L - 1, ..., 0] of a pyramid that has no
    skip parameter. The work of one level ("run MotionEstimator, then
    always run SynthesisNetwork") is the parameter [process_level]: from
    the two images of the level, the carried state and the time period it
    gives the flow, the feature and the interpolated frame of the level. *)

Record RefinementState : Type := mkState {
  state_flow : Tensor;
  state_feat : Tensor;
  state_interp : option Tensor
}.

(** "return the finest interpolated frame, the full-resolution flow, and
    the per-level diagnostic lists (interpolated frames, flow fields) for
    every processed level". *)
Record pyramid_output : Type := mkPyramid {
  pyr_frame : Tensor;
  pyr_flow : Tensor;
  pyr_frames : list Tensor;
  pyr_flows : list Tensor
}.

Definition level_operation : Type :=
  Tensor -> Tensor -> RefinementState -> R -> result (Tensor * Tensor * Tensor).

(** "Level L-1 (initial): flow and feature state initialized to zero
    tensors sized to H/2^(L+1), W/2^(L+1); no prior interpolation." *)
Definition initial_state (N H W L : Z) : RefinementState :=
  mkState (torch_zeros N 4 (H / 2 ^ (L + 1)) (W / 2 ^ (L + 1)))
          (torch_zeros N 64 (H / 2 ^ (L + 1)) (W / 2 ^ (L + 1)))
          None.

(** "Normal level transition: flow and feature upsampled x2 with magnitude
    doubled; prior interpolation upsampled x2 (no magnitude rescale)." *)
Definition normal_transition (flow feat frame : Tensor)
  : result RefinementState :=
  f <- F_interpolate flow 2 ;;
  g <- F_interpolate feat 2 ;;
  i <- F_interpolate frame 2 ;;
  Ok (mkState (smul f 2) (smul g 2) (Some i)).

(** "input images -> downsampled per level"; level 0 is the input
    resolution. *)
Definition downsampled (img : Tensor) (level : Z) : result Tensor :=
  if level =? 0 then Ok img else F_interpolate img (1 / IZR (2 ^ level)).

(** The level [level] with the state carried to it, then the levels
    [rest]; after the last of them the flow expanded by 4 is the
    full-resolution flow ("Terminal"). *)
Fixpoint plain_levels (process_level : level_operation) (img0 img1 : Tensor)
         (time_period : R) (level : Z) (rest : list Z)
         (state : RefinementState) (frames flows : list Tensor)
  : result pyramid_output :=
  i0 <- downsampled img0 level ;;
  i1 <- downsampled img1 level ;;
  '(flow, feat, frame) <- process_level i0 i1 state time_period ;;
  full <- F_interpolate flow 4 ;;
  match rest with
  | [] => Ok (mkPyramid frame full (frames ++ [frame]) (flows ++ [full]))
  | next :: rest' =>
      state' <- normal_transition flow feat frame ;;
      plain_levels process_level img0 img1 time_period next rest' state'
                   (frames ++ [frame]) (flows ++ [full])
  end.

Definition plain_pyramid (process_level : level_operation)
           (img0 img1 : Tensor) (time_period : R) (L : Z)
  : result pyramid_output :=
  match rev (py_range L) with
  | [] => Raise ValueError
  | top :: rest =>
      plain_levels process_level img0 img1 time_period top rest
                   (initial_state (tN img0) (tH img0) (tW img0) L) [] []
  end.

(** The call of line 449, with [skip_me = False], read as the operation of
    a level. *)
Definition level_call (self : Model) : level_operation :=
  fun img0_this_lvl img1_this_lvl state time_period =>
    '(flow, feat, interp_img, _) <-
      forward_one_lvl self img0_this_lvl img1_this_lvl
        (state_feat state) (state_flow state)
        (opt_value (state_interp state)) (VFloat time_period)
        VNone 0.5 false ;;
    flow <- as_tensor flow ;;
    feat <- as_tensor feat ;;
    Ok (flow, feat, interp_img).

End Embedding.

(** ** Notions used to state further properties of the scheduler *)

(** The size of the skip set of lines 391-392: a positive count is clipped
    to the number of levels, a negative count [-k] leaves out the [k]
    coarsest levels. *)
Definition skip_count (pyr_level nr : Z) : Z :=
  if nr =? 0 then 0
  else if 0 <? nr then Z.min nr pyr_level
  else pyr_level + nr.

(* ================================================================== *)
(** * SelfAttention (lines 11-44) *)
(* ================================================================== *)

Module Attention.

(** A tensor of shape [(d0, d1, d2)]: batch, sequence length, embedding. *)
Record Tensor3 : Type := mkTensor3 {
  d0 : Z;
  d1 : Z;
  d2 : Z;
  at3 : Z -> Z -> Z -> R
}.

(** The sum of [f 0, ..., f (n - 1)]. *)
Definition rsum (n : Z) (f : Z -> R) : R :=
  fold_right Rplus 0%R (map f (py_range n)).

(** The largest of [f 0, ..., f (n - 1)]. *)
Definition rmax (n : Z) (f : Z -> R) : R :=
  fold_right Rmax (f 0) (map f (py_range n)).

(** The learned parameters: the three bias-free projections of a head and
    the output projection with its bias, each weight indexed as
    [weight[out][in]]. *)
Record weights : Type := mkWeights {
  W_values : Z -> Z -> R;
  W_keys : Z -> Z -> R;
  W_queries : Z -> Z -> R;
  W_fc_out : Z -> Z -> R;
  b_fc_out : Z -> R
}.

Record SelfAttention : Type := mkSelfAttention {
  embed_size : Z;
  heads : Z;
  head_dim : Z;
  params : weights
}.

(** What [__init__] can raise: [ZeroDivisionError] from [//], the
    [AssertionError] of line 18, and what an [nn.Linear] raises when it
    does not get its weight (a negative size, a size or an element count
    beyond int64, no memory). *)
Inductive init_error : Type :=
| ZeroDivision
| AssertionFailed
| LinearFailed.

Section WithOps.

Context {ops : TorchOps}.

Definition init (embed_size heads : Z) (w : weights)
  : init_error + SelfAttention :=
  if heads =? 0 then inl ZeroDivision
  else
    let head_dim := embed_size / heads in
    if negb (head_dim * heads =? embed_size) then inl AssertionFailed
    else if negb (linear_allocated head_dim head_dim
                  && linear_allocated (heads * head_dim) embed_size)
    then inl LinearFailed
    else inr (mkSelfAttention embed_size heads head_dim w).

(** [x.reshape(n, l, h, d)]: the element count must agree, and elements
    keep their row-major position. A negative size is refused; the one
    negative value [reshape] would take as a size to infer, -1, reaches
    lines 31 and 33 from a constructed module only as [heads] next to
    [head_dim = 0], where inferring fails as well. *)
Definition reshape (x : Tensor3) (n l h d : Z) : result Tensor :=
  if (n <? 0) || (l <? 0) || (h <? 0) || (d <? 0) then Raise RuntimeError
  else if negb (d0 x * d1 x * d2 x =? n * l * h * d) then Raise RuntimeError
  else
    Ok (mkTensor n l h d (fun i j k m =>
          let flat := ((i * l + j) * h + k) * d + m in
          at3 x (flat / (d1 x * d2 x)) ((flat / d2 x) mod d1 x)
                (flat mod d2 x))).

(** [nn.Linear(in_features, out_features, bias=False)] on the last
    dimension of a 4-D tensor. *)
Definition linear (W : Z -> Z -> R) (in_features out_features : Z)
           (x : Tensor) : result Tensor :=
  if tW x =? in_features then
    Ok (mkTensor (tN x) (tC x) (tH x) out_features (fun i j k o =>
          rsum in_features (fun m => (tat x i j k m * W o m)%R)))
  else Raise RuntimeError.

(** [torch.einsum("nqhd,nkhd->nhqk", [query, keys])]. *)
Definition energy (query keys : Tensor) : Tensor :=
  mkTensor (tN query) (tH query) (tC query) (tC keys) (fun n h q k =>
    rsum (tW query) (fun d => (tat query n q h d * tat keys n k h d)%R)).

(** [torch.softmax(e / scale, dim=3)]: the kernel subtracts the largest
    entry of the row before it exponentiates, so the largest entry
    contributes exactly 1 to the sum and entries far below it contribute
    exactly 0. *)
Definition softmax (e : Tensor) (scale : R) : Tensor :=
  mkTensor (tN e) (tC e) (tH e) (tW e) (fun n h q k =>
    let x := fun j => (tat e n h q j / scale)%R in
    let m := rmax (tW e) x in
    (torch_exp (x k - m)
     / rsum (tW e) (fun j => torch_exp (x j - m)))%R).

(** [torch.einsum("nhql,nlhd->nqhd", [attention, values])]. *)
Definition context (attention values : Tensor) : Tensor :=
  mkTensor (tN attention) (tH attention) (tC attention) (tW values)
    (fun n q h d =>
       rsum (tW attention)
            (fun l => (tat attention n h q l * tat values n l h d)%R)).

(** Lines 28-40: the projected values and the attention weights. *)
Definition attention_weights (self : SelfAttention)
           (prev_frame next_frame : Tensor3) : result (Tensor * Tensor) :=
  let N := d0 prev_frame in
  let value_len := d1 prev_frame in
  let query_len := d1 next_frame in
  values <- reshape prev_frame N value_len (heads self) (head_dim self) ;;
  let keys := values in
  query <- reshape next_frame N query_len (heads self) (head_dim self) ;;
  values <- linear (W_values (params self)) (head_dim self) (head_dim self)
                   values ;;
  keys <- linear (W_keys (params self)) (head_dim self) (head_dim self) keys ;;
  query <- linear (W_queries (params self)) (head_dim self) (head_dim self)
                  query ;;
  let energy := energy query keys in
  let attention := softmax energy (sqrt (IZR (embed_size self))) in
  Ok (attention, values).

(** Lines 28-44: [out], the values attended by every query. Lines 45-50
    view this result with its last two dimensions merged and apply
    [fc_out]; whether that [view] is possible depends on the strides
    [einsum] leaves, which tensors here do not carry, so the embedding
    ends with line 44. *)
Definition attended (self : SelfAttention) (prev_frame next_frame : Tensor3)
  : result Tensor :=
  '(attention, values) <- attention_weights self prev_frame next_frame ;;
  Ok (context attention values).

End WithOps.

(** A tensor of any rank above 1 read as [(shape[0], shape[1], rest)]; for
    the 4-D map handed over at line 278 the two spatial dimensions are the
    rest. *)
Definition of_image (t : Tensor) : Tensor3 :=
  mkTensor3 (tN t) (tC t) (tH t * tW t) (fun n c e =>
    tat t n c (e / tW t) (e mod tW t)).

End Attention.

(* ================================================================== *)
(** * Instances used to exercise the statements *)
(* ================================================================== *)

(** The logistic function, and kernels that follow it and the exponential
    above -104 and return 0 from there downwards. *)
Definition logistic (x : R) : R := (1 / (1 + exp (- x)))%R.

Definition fixture_sigmoid (x : R) : R :=
  if Rle_dec x (-104) then 0%R else logistic x.

Definition fixture_exp (x : R) : R :=
  if Rle_dec x (-104) then 0%R else exp x.

Definition fixture_allocated (i o : Z) : bool :=
  (0 <=? i) && (i <? 2 ^ 63) && (0 <=? o) && (o <? 2 ^ 63) && (i * o <? 2 ^ 63).

Lemma logistic_pos (x : R) : (0 < logistic x)%R.
Proof.
  unfold logistic. pose proof (exp_pos (- x)).
  apply Rdiv_lt_0_compat; lra.
Qed.

Lemma logistic_lt_1 (x : R) : (logistic x < 1)%R.
Proof.
  unfold logistic. pose proof (exp_pos (- x)) as He.
  apply (Rmult_lt_reg_r (1 + exp (- x))); [lra|].
  unfold Rdiv. rewrite Rmult_assoc, Rinv_l by lra. lra.
Qed.

Lemma fixture_sigmoid_range (x : R) : (0 <= fixture_sigmoid x <= 1)%R.
Proof.
  unfold fixture_sigmoid. destruct (Rle_dec x (-104)); [lra|].
  pose proof (logistic_pos x). pose proof (logistic_lt_1 x). lra.
Qed.

Lemma fixture_sigmoid_underflow (x : R) :
  (x <= -104)%R -> fixture_sigmoid x = 0%R.
Proof.
  intros H. unfold fixture_sigmoid. now destruct (Rle_dec x (-104)).
Qed.

Lemma fixture_exp_nonneg (x : R) : (0 <= fixture_exp x)%R.
Proof.
  unfold fixture_exp. destruct (Rle_dec x (-104)); [lra|].
  left. apply exp_pos.
Qed.

Lemma fixture_exp_0 : fixture_exp 0 = 1%R.
Proof.
  unfold fixture_exp. destruct (Rle_dec 0 (-104)); [lra|]. apply exp_0.
Qed.

Lemma fixture_exp_underflow (x : R) : (x <= -104)%R -> fixture_exp x = 0%R.
Proof. intros H. unfold fixture_exp. now destruct (Rle_dec x (-104)). Qed.

Lemma fixture_allocated_int64 (i o : Z) :
  fixture_allocated i o = true ->
  0 <= i < 2 ^ 63 /\ 0 <= o < 2 ^ 63 /\ i * o < 2 ^ 63.
Proof.
  unfold fixture_allocated. rewrite !andb_true_iff.
  rewrite !Z.leb_le, !Z.ltb_lt. tauto.
Qed.

Lemma fixture_allocated_small (i o : Z) :
  0 <= i <= 64 -> 0 <= o <= 64 -> fixture_allocated i o = true.
Proof.
  intros Hi Ho. unfold fixture_allocated. rewrite !andb_true_iff.
  rewrite !Z.leb_le, !Z.ltb_lt.
  assert (i * o <= 64 * 64) by nia. lia.
Qed.

(** Operators that keep shapes and return their input or the constant
    [c] where a convolution computes. *)
Definition constant_ops (c : R) : TorchOps := {|
  conv_out := fun _ _ _ _ _ _ => c;
  F_interpolate := fun t _ => Ok t;
  softsplat_out := fun _ _ t _ => tat t;
  correlation_out := fun _ _ _ _ _ _ => 0%R;
  nn_sequential := fun _ t => Ok t;
  attention := fun p _ => Ok p;
  sigmoid := fixture_sigmoid;
  sigmoid_range := fixture_sigmoid_range;
  sigmoid_underflow := fixture_sigmoid_underflow;
  torch_exp := fixture_exp;
  torch_exp_nonneg := fixture_exp_nonneg;
  torch_exp_0 := fixture_exp_0;
  torch_exp_underflow := fixture_exp_underflow;
  linear_allocated := fixture_allocated;
  linear_allocated_int64 := fixture_allocated_int64;
  linear_allocated_small := fixture_allocated_small
|}.

Definition fixture_ops : TorchOps := constant_ops 0.

Definition const_tensor (n c h w : Z) (x : R) : Tensor :=
  mkTensor n c h w (fun _ _ _ _ => x).

(** A model whose sub-modules accept the calls of [forward_one_lvl]. *)
Definition fixture_model (pyr_level nr_lvl_skipped : Z) : Model :=
  mkModel pyr_level nr_lvl_skipped
    (fun _ => Ok [torch_zeros 1 16 8 8; torch_zeros 1 32 4 4; torch_zeros 1 64 2 2])
    (fun _ => Ok [torch_zeros 1 16 8 8; torch_zeros 1 32 4 4; torch_zeros 1 64 2 2])
    (fun _ _ _ _ => Ok (torch_zeros 1 4 8 8, torch_zeros 1 64 8 8))
    (fun _ _ => Ok (const_tensor 1 3 8 8 (1 / 2),
                    mkExtra (torch_zeros 1 3 8 8) (torch_zeros 1 3 8 8)
                            (torch_zeros 1 3 8 8) (torch_zeros 1 3 8 8))).

Definition fixture_img : Tensor := torch_zeros 1 3 8 8.

(** Loop variables as a coarser level leaves them. *)
Definition fixture_locals : locals :=
  mkLocals (torch_zeros 1 4 2 2) (torch_zeros 1 64 2 2) None
           (VTensor (const_tensor 1 4 2 2 1)) (VTensor (const_tensor 1 64 2 2 1))
           (const_tensor 1 3 8 8 (1 / 2)).

(** An attention module of 2 heads over 4 embedding entries, and a
    sequence of constant embeddings. *)
Definition fixture_weights : Attention.weights :=
  Attention.mkWeights (fun _ _ => 1%R) (fun _ _ => 1%R) (fun _ _ => 1%R)
                      (fun _ _ => 1%R) (fun _ => 0%R).

Definition fixture_attention : Attention.SelfAttention :=
  Attention.mkSelfAttention 4 2 2 fixture_weights.

Definition fixture_sequence (len : Z) (x : R) : Attention.Tensor3 :=
  Attention.mkTensor3 1 len 4 (fun _ _ _ => x).

(* ================================================================== *)
(** * Properties *)
(* ================================================================== *)

Local Open Scope R_scope.

(** ** Arithmetic of the activations *)

Lemma clamp_range (x : R) : 0 <= clamp x 0 1 <= 1.
Proof.
  unfold clamp, Rmin, Rmax.
  destruct (Rle_dec x 0); destruct (Rle_dec _ 1); lra.
Qed.

(** ** Shapes and broadcasting *)

Local Open Scope Z_scope.

Definition has_shape (t : Tensor) (n c h w : Z) : Prop :=
  tN t = n /\ tC t = c /\ tH t = h /\ tW t = w.

Definition in_range (n c h w i j k l : Z) : Prop :=
  0 <= i < n /\ 0 <= j < c /\ 0 <= k < h /\ 0 <= l < w.

Lemma bdim_refl (x : Z) : bdim x x = Some x.
Proof. unfold bdim. now rewrite Z.eqb_refl. Qed.

Lemma bidx_in (d i : Z) : 0 <= i < d -> bidx d i = i.
Proof. unfold bidx. destruct (d =? 1) eqn:E; [apply Z.eqb_eq in E; lia | reflexivity]. Qed.

Lemma bind_ok {A B : Type} (m : result A) (k : A -> result B) (b : B) :
  bind m k = Ok b -> exists a, m = Ok a /\ k a = Ok b.
Proof. destruct m as [a|e]; simpl; [eauto | discriminate]. Qed.

Lemma bind_raises {A B : Type} (m : result A) (k : A -> result B) :
  (forall a, raises (k a)) -> raises (bind m k).
Proof. intros H. destruct m as [a|e]; simpl; [apply H | now exists e]. Qed.

Section Properties.

Context {ops : TorchOps}.

(** ** Layers *)

Lemma conv2d_apply (name : string) (cin cout k s p : Z) (x : Tensor) :
  tC x = cin -> k <= tH x + 2 * p -> k <= tW x + 2 * p ->
  apply_layer (Conv2d name cin cout k s p) x =
  Ok (mkTensor (tN x) cout (conv_size (tH x) k s p) (conv_size (tW x) k s p)
        (conv_out name x)).
Proof.
  intros Hc Hh Hw. unfold apply_layer.
  replace (tC x =? cin) with true by (symmetry; now apply Z.eqb_eq).
  replace (tH x + 2 * p <? k) with false by (symmetry; apply Z.ltb_ge; lia).
  replace (tW x + 2 * p <? k) with false by (symmetry; apply Z.ltb_ge; lia).
  reflexivity.
Qed.

Lemma conv2d_ok (name : string) (cin cout k s p : Z) (x y : Tensor) :
  apply_layer (Conv2d name cin cout k s p) x = Ok y ->
  tC x = cin /\
  y = mkTensor (tN x) cout (conv_size (tH x) k s p) (conv_size (tW x) k s p)
        (conv_out name x).
Proof.
  unfold apply_layer. destruct (tC x =? cin) eqn:Ec; cbv [negb]; [|discriminate].
  destruct ((tH x + 2 * p <? k) || (tW x + 2 * p <? k))%bool; [discriminate|].
  intros H; injection H as <-. apply Z.eqb_eq in Ec. now split.
Qed.

Lemma conv_size_same (size : Z) : conv_size size 3 1 1 = size.
Proof. unfold conv_size. rewrite Z.div_1_r. lia. Qed.

(** The prediction layer returns five channels at the resolution of its
    input. *)
Lemma pred_shape (x refine : Tensor) :
  Sequential pred x = Ok refine ->
  has_shape refine (tN x) 5 (tH x) (tW x) /\ tC x = 32.
Proof.
  unfold pred, Sequential. intros H.
  apply bind_ok in H as (y & Hy & H). injection H as <-.
  apply conv2d_ok in Hy as (Hc & ->).
  unfold has_shape; simpl. rewrite !conv_size_same. auto.
Qed.

(** ** SynthesisNetwork: prediction and blend *)

Ltac run_broadcast := repeat (progress (rewrite ?bdim_refl; cbn)).

Ltac shapes :=
  unfold has_shape in *; simpl in *;
  repeat match goal with
         | H : _ /\ _ |- _ => destruct H
         end; subst.

(** C4. For a time period strictly between 0 and 1 the blend normalisation
    [mask0 * (1 - t) + mask1 * t] is never negative, both masks being
    sigmoid outputs in the closed interval [0, 1]; an element of it is
    strictly positive exactly when one of the two masks is not 0 there, and
    it is 0 where both logits are at or below -104, where float32 sigmoid
    returns 0. *)
Theorem blend_denominator_nonnegative (x refine : Tensor) (t : R) :
  Sequential pred x = Ok refine ->
  (0 < t < 1)%R ->
  exists den,
    blend_denominator (refine_mask0 refine) (refine_mask1 refine) t = Ok den
    /\ has_shape den (tN x) 1 (tH x) (tW x)
    /\ forall i k l,
         in_range (tN x) 1 (tH x) (tW x) i 0 k l ->
         let mask0 := tat (refine_mask0 refine) i 0 k l in
         let mask1 := tat (refine_mask1 refine) i 0 k l in
         (mask0 = sigmoid (tat refine i 3 k l)
          /\ mask1 = sigmoid (tat refine i 4 k l)
          /\ 0 <= mask0 <= 1 /\ 0 <= mask1 <= 1
          /\ tat den i 0 k l = mask0 * (1 - t) + mask1 * t
          /\ 0 <= tat den i 0 k l
          /\ (0 < tat den i 0 k l <-> mask0 <> 0 \/ mask1 <> 0)
          /\ (tat refine i 3 k l <= -104 -> tat refine i 4 k l <= -104 ->
              tat den i 0 k l = 0))%R.
Proof.
  intros Hp Ht.
  destruct (pred_shape _ _ Hp) as [Hr _].
  destruct refine as [rn rc rh rw rd]. shapes.
  unfold blend_denominator, tadd, broadcast, refine_mask0, refine_mask1,
    smul, tmap, slice_ch.
  run_broadcast.
  eexists. split; [reflexivity|]. split; [now unfold has_shape|].
  intros i k l (Hi & _ & Hk & Hl). cbn.
  rewrite !(bidx_in _ i), !(bidx_in _ k), !(bidx_in _ l) by assumption.
  pose proof (sigmoid_range (rd i 3 k l)) as R0.
  pose proof (sigmoid_range (rd i 4 k l)) as R1.
  pose proof (sigmoid_underflow (rd i 3 k l)) as U0.
  pose proof (sigmoid_underflow (rd i 4 k l)) as U1.
  set (m0 := sigmoid (rd i 3 k l)) in *.
  set (m1 := sigmoid (rd i 4 k l)) in *.
  repeat split; try reflexivity; try lra.
  - nra.
  - intros Hpos.
    destruct (Req_dec m0 0) as [E0|N0]; [|now left].
    right. intros E1. rewrite E0, E1 in Hpos. lra.
  - intros [N|N]; nra.
  - intros L3 L4. rewrite (U0 L3), (U1 L4). lra.
Qed.

(** C8. With both masks equal to 1 and the residual equal to 0 everywhere,
    the merged image is the linear blend [warped0 * (1 - t) + warped1 * t]
    for every time period strictly between 0 and 1 (and the frame is that
    blend clamped). *)
Theorem unit_masks_linear_blend
        (warped0 warped1 mask0 mask1 res : Tensor) (n h w : Z) (t : R) :
  has_shape warped0 n 3 h w -> has_shape warped1 n 3 h w ->
  has_shape mask0 n 1 h w -> has_shape mask1 n 1 h w ->
  has_shape res n 3 h w ->
  (forall i j k l, tat mask0 i j k l = 1%R) ->
  (forall i j k l, tat mask1 i j k l = 1%R) ->
  (forall i j k l, tat res i j k l = 0%R) ->
  (0 < t < 1)%R ->
  exists merged interp,
    merged_img warped0 warped1 mask0 mask1 t = Ok merged
    /\ blend warped0 warped1 mask0 mask1 res t
       = Ok (interp, mkExtra res warped0 warped1 merged)
    /\ forall i j k l, in_range n 3 h w i j k l ->
         (tat merged i j k l
          = tat warped0 i j k l * (1 - t) + tat warped1 i j k l * t
          /\ tat interp i j k l
             = clamp (tat warped0 i j k l * (1 - t) + tat warped1 i j k l * t) 0 1)%R.
Proof.
  intros H0 H1 Hm0 Hm1 Hr E0 E1 Er Ht.
  destruct warped0 as [an ac ah aw ad], warped1 as [bn bc bh bw bd],
           mask0 as [cn cc ch cw cd], mask1 as [dn dc dh dw dd],
           res as [en ec eh ew ed].
  shapes.
  unfold blend, merged_img, blend_denominator, tadd, tmul, tdiv, broadcast,
    smul, tmap.
  run_broadcast.
  eexists _, _. split; [reflexivity|]. split; [reflexivity|].
  intros i j k l (Hi & Hj & Hk & Hl). simpl.
  rewrite !(bidx_in _ i), !(bidx_in _ k), !(bidx_in _ l) by assumption.
  rewrite E0, E1, Er.
  assert (forall a b : R,
             (a * 1 * (1 - t) + b * 1 * t) / (1 * (1 - t) + 1 * t)
             = a * (1 - t) + b * t)%R as Hlin
      by (intros; field; lra).
  rewrite Hlin, Rplus_0_r. split; reflexivity.
Qed.

(** ** MotionEstimator *)

Lemma tmap_shape (f : R -> R) (t : Tensor) (n c h w : Z) :
  has_shape t n c h w -> has_shape (tmap f t) n c h w.
Proof. now unfold has_shape. Qed.

Lemma slice_ch_shape (t : Tensor) (a b n c h w : Z) :
  has_shape t n c h w -> 0 <= a <= b -> b <= c ->
  has_shape (slice_ch t a (Some b)) n (b - a) h w.
Proof. unfold has_shape; simpl. intros (? & ? & ? & ?) ? ?. repeat split; lia. Qed.

Lemma slice_ch_from_shape (t : Tensor) (a n c h w : Z) :
  has_shape t n c h w -> 0 <= a <= c ->
  has_shape (slice_ch t a None) n (c - a) h w.
Proof. unfold has_shape; simpl. intros (? & ? & ? & ?) ?. repeat split; lia. Qed.

Lemma softsplat_spec (tenInput tenFlow : Tensor) (m : option Tensor)
      (s : string) (n c h w : Z) :
  has_shape tenInput n c h w -> has_shape tenFlow n 2 h w ->
  exists out,
    FunctionSoftsplat tenInput tenFlow m s = Ok out
    /\ has_shape out n c h w
    /\ tat out = softsplat_out s m tenInput tenFlow.
Proof.
  intros (Hn & Hc & Hh & Hw) (Fn & Fc & Fh & Fw).
  unfold FunctionSoftsplat, same_batch_space.
  rewrite Hn, Hh, Hw, Fn, Fc, Fh, Fw, !Z.eqb_refl. simpl.
  eexists; split; [reflexivity|]. split; [|reflexivity].
  unfold has_shape; simpl. auto.
Qed.

Lemma correlation_spec (a b : Tensor) (n c h w : Z) :
  has_shape a n c h w -> has_shape b n c h w ->
  exists out,
    FunctionCorrelation a b = Ok out /\ has_shape out n 81 h w.
Proof.
  intros (Hn & Hc & Hh & Hw) (Fn & Fc & Fh & Fw).
  unfold FunctionCorrelation, same_batch_space.
  rewrite Hn, Hc, Hh, Hw, Fn, Fc, Fh, Fw, !Z.eqb_refl. simpl.
  eexists; split; [reflexivity|]. unfold has_shape; simpl. auto.
Qed.

Lemma cat2_spec (a b : Tensor) (n ca cb h w : Z) :
  has_shape a n ca h w -> has_shape b n cb h w ->
  exists out, cat2 a b = Ok out /\ has_shape out n (ca + cb) h w.
Proof.
  intros (Hn & Hc & Hh & Hw) (Fn & Fc & Fh & Fw).
  unfold cat2, same_batch_space.
  rewrite Hn, Hh, Hw, Fn, Fh, Fw, !Z.eqb_refl. simpl.
  eexists; split; [reflexivity|]. unfold has_shape; simpl.
  rewrite Hc, Fc. auto.
Qed.

(** A convolution that keeps the resolution ([2 * padding + 1 = kernel_size],
    stride 1), followed by a leaky ReLU. *)
Lemma stage_spec (name : string) (cin cout k p : Z) (slope : R)
      (x : Tensor) (n h w : Z) :
  has_shape x n cin h w -> 2 * p + 1 = k -> 1 <= h -> 1 <= w ->
  exists y,
    Sequential [Conv2d name cin cout k 1 p; LeakyReLU slope] x = Ok y
    /\ has_shape y n cout h w
    /\ tat y = (fun i j k l => leaky_relu slope (conv_out name x i j k l)).
Proof.
  intros (Hn & Hc & Hh & Hw) Hk H1 H2.
  unfold Sequential. rewrite conv2d_apply by lia. cbn [bind apply_layer].
  eexists; split; [reflexivity|]. split; [|reflexivity].
  unfold has_shape, conv_size; cbn [tN tC tH tW tmap]. rewrite !Z.div_1_r.
  repeat split; lia.
Qed.

Lemma last_conv_spec (name : string) (cin cout k p : Z)
      (x : Tensor) (n h w : Z) :
  has_shape x n cin h w -> 2 * p + 1 = k -> 1 <= h -> 1 <= w ->
  exists y,
    Sequential [Conv2d name cin cout k 1 p] x = Ok y
    /\ has_shape y n cout h w
    /\ tat y = conv_out name x.
Proof.
  intros (Hn & Hc & Hh & Hw) Hk H1 H2.
  unfold Sequential. rewrite conv2d_apply by lia. cbn [bind].
  eexists; split; [reflexivity|]. split; [|reflexivity].
  unfold has_shape, conv_size; cbn [tN tC tH tW tmap]. rewrite !Z.div_1_r.
  repeat split; lia.
Qed.

(** Lines 148-168 at the channel counts that the comment of line 123
    counts, 64-channel feature maps and a prior state of a 64-channel
    feature and a 4-channel flow: [feat0] is warped by channels 0..1 of the prior
    flow and [feat1] by channels 2..3, each scaled by 0.25 * 0.5, in
    averaging mode without metric; the concatenation of the cost volume, the
    two warped maps, the prior feature and the prior flow has 277 channels;
    the six convolutional stages follow the schedule
    277, 160, 128, 112, 96, 64, 4, the last without activation; the 4-channel
    flow and the 64-channel output of the fifth stage are returned. *)
Theorem motion_estimator_pipeline (feat0 feat1 lfeat lflow : Tensor) (n h w : Z) :
  has_shape feat0 n 64 h w -> has_shape feat1 n 64 h w ->
  has_shape lfeat n 64 h w -> has_shape lflow n 4 h w ->
  1 <= h -> 1 <= w ->
  let flow0 := smul (smul (slice_ch lflow 0 (Some 2)) 0.25) 0.5 in
  let flow1 := smul (smul (slice_ch lflow 2 None) 0.25) 0.5 in
  exists warped0 warped1 corr x f1 f2 f3 f4 f5 flow,
    (has_shape flow0 n 2 h w /\ has_shape flow1 n 2 h w
     /\ forall i j k l,
          (tat flow0 i j k l = tat lflow i j k l * 0.25 * 0.5
           /\ tat flow1 i j k l = tat lflow i (j + 2) k l * 0.25 * 0.5)%R)
    /\ FunctionSoftsplat feat0 flow0 None "average" = Ok warped0
    /\ FunctionSoftsplat feat1 flow1 None "average" = Ok warped1
    /\ FunctionCorrelation warped0 warped1 = Ok corr
    /\ torch_cat [tmap (leaky_relu 0.1) corr; warped0; warped1; lfeat; lflow]
       = Ok x
    /\ has_shape x n 277 h w
    /\ Sequential conv_layer1 x = Ok f1 /\ has_shape f1 n 160 h w
    /\ Sequential conv_layer2 f1 = Ok f2 /\ has_shape f2 n 128 h w
    /\ Sequential conv_layer3 f2 = Ok f3 /\ has_shape f3 n 112 h w
    /\ Sequential conv_layer4 f3 = Ok f4 /\ has_shape f4 n 96 h w
    /\ Sequential conv_layer5 f4 = Ok f5 /\ has_shape f5 n 64 h w
    /\ Sequential conv_layer6 f5 = Ok flow /\ has_shape flow n 4 h w
    /\ tat flow = conv_out "conv_layer6.0" f5
    /\ MotionEstimator_forward feat0 feat1 (VTensor lfeat) (VTensor lflow)
       = Ok (flow, f5).
Proof.
  intros H0 H1 Hf Hl Hh Hw flow0 flow1.
  assert (Hflow0 : has_shape flow0 n 2 h w).
  { apply tmap_shape, tmap_shape.
    exact (slice_ch_shape lflow 0 2 n 4 h w Hl ltac:(lia) ltac:(lia)). }
  assert (Hflow1 : has_shape flow1 n 2 h w).
  { apply tmap_shape, tmap_shape.
    exact (slice_ch_from_shape lflow 2 n 4 h w Hl ltac:(lia)). }
  destruct (softsplat_spec feat0 flow0 None "average" _ _ _ _ H0 Hflow0)
    as (warped0 & E0 & S0 & _).
  destruct (softsplat_spec feat1 flow1 None "average" _ _ _ _ H1 Hflow1)
    as (warped1 & E1 & S1 & _).
  destruct (correlation_spec _ _ _ _ _ _ S0 S1) as (corr & Ec & Sc).
  pose proof (tmap_shape (leaky_relu 0.1) _ _ _ _ _ Sc) as Sv.
  destruct (cat2_spec _ _ _ _ _ _ _ Sv S0) as (x1 & X1 & Sx1).
  destruct (cat2_spec _ _ _ _ _ _ _ Sx1 S1) as (x2 & X2 & Sx2).
  destruct (cat2_spec _ _ _ _ _ _ _ Sx2 Hf) as (x3 & X3 & Sx3).
  destruct (cat2_spec _ _ _ _ _ _ _ Sx3 Hl) as (x & X4 & Sx).
  change (81 + 64 + 64 + 64 + 4) with 277 in Sx.
  assert (Ex : torch_cat [tmap (leaky_relu 0.1) corr; warped0; warped1; lfeat; lflow]
               = Ok x).
  { unfold torch_cat, cat_from. rewrite X1; cbn [bind]. rewrite X2; cbn [bind].
    rewrite X3; cbn [bind]. now rewrite X4. }
  destruct (stage_spec "conv_layer1.0" 277 160 1 0 0.1 x n h w Sx) as (f1 & F1 & T1 & _);
    [lia|assumption|assumption|].
  destruct (stage_spec "conv_layer2.0" 160 128 3 1 0.1 f1 n h w T1) as (f2 & F2 & T2 & _);
    [lia|assumption|assumption|].
  destruct (stage_spec "conv_layer3.0" 128 112 3 1 0.1 f2 n h w T2) as (f3 & F3 & T3 & _);
    [lia|assumption|assumption|].
  destruct (stage_spec "conv_layer4.0" 112 96 3 1 0.1 f3 n h w T3) as (f4 & F4 & T4 & _);
    [lia|assumption|assumption|].
  destruct (stage_spec "conv_layer5.0" 96 64 3 1 0.1 f4 n h w T4) as (f5 & F5 & T5 & _);
    [lia|assumption|assumption|].
  destruct (last_conv_spec "conv_layer6.0" 64 4 3 1 f5 n h w T5) as (flow & F6 & T6 & D6);
    [lia|assumption|assumption|].
  exists warped0, warped1, corr, x, f1, f2, f3, f4, f5, flow.
  repeat match goal with |- _ /\ _ => split end; try assumption.
  - intros i j k l. subst flow0 flow1. destruct Hl as (_ & Hc & _).
    unfold smul, tmap, slice_ch; cbn [tat]. rewrite Hc.
    change (Z.min 0 4) with 0. change (Z.min 2 4) with 2.
    replace (j + 0) with j by lia. split; reflexivity.
  - unfold MotionEstimator_forward, estimator_input, prewarp, subscript_ch, as_tensor.
    cbn [bind]. fold flow0 flow1.
    rewrite E0; cbn [bind]. rewrite E1; cbn [bind]. rewrite Ec; cbn [bind].
    rewrite Ex; cbn [bind].
    fold conv_layer1 in F1. fold conv_layer2 in F2. fold conv_layer3 in F3.
    fold conv_layer4 in F4. fold conv_layer5 in F5. fold conv_layer6 in F6.
    rewrite F1; cbn [bind]. rewrite F2; cbn [bind]. rewrite F3; cbn [bind].
    rewrite F4; cbn [bind]. rewrite F5; cbn [bind]. now rewrite F6.
Qed.

(** ** The skip set *)

Lemma firstn_seq_le (k a len : nat) :
  (k <= len)%nat -> firstn k (seq a len) = seq a k.
Proof.
  revert a len. induction k as [|k IH]; intros a len Hk; [reflexivity|].
  destruct len as [|len]; [lia|]. simpl. f_equal. apply IH. lia.
Qed.

Lemma py_range_length (n : Z) : py_len (py_range n) = Z.max 0 n.
Proof. unfold py_len, py_range. rewrite length_map, length_seq. lia. Qed.

Lemma in_py_range (n x : Z) : In x (py_range n) <-> 0 <= x < n.
Proof.
  unfold py_range. rewrite in_map_iff. split.
  - intros (k & <- & Hk). apply in_seq in Hk. lia.
  - intros Hx. exists (Z.to_nat x). split; [lia|]. apply in_seq. lia.
Qed.

(** For a positive count the skip set is the [min nr pyr_level] finest
    levels, finest last. *)
Lemma skipped_levels_pos (pyr_level nr : Z) :
  1 <= nr ->
  skipped_levels pyr_level nr = rev (py_range (Z.min nr pyr_level)).
Proof.
  intros Hnr. unfold skipped_levels, py_slice_from.
  replace (nr =? 0) with false by (symmetry; apply Z.eqb_neq; lia).
  replace (- nr <? 0) with true by (symmetry; apply Z.ltb_lt; lia).
  rewrite length_rev. fold (py_len (py_range pyr_level)).
  rewrite py_range_length, skipn_rev.
  unfold py_range. rewrite length_map, length_seq, firstn_map.
  rewrite firstn_seq_le by lia. do 3 f_equal. lia.
Qed.

Lemma skipped_levels_length (pyr_level nr : Z) :
  1 <= nr ->
  py_len (skipped_levels pyr_level nr) = Z.max 0 (Z.min nr pyr_level).
Proof.
  intros Hnr. rewrite skipped_levels_pos by assumption.
  unfold py_len. rewrite length_rev. apply py_range_length.
Qed.

Lemma py_in_spec (x : Z) (l : list Z) : py_in x l = true <-> In x l.
Proof.
  unfold py_in. rewrite existsb_exists. split.
  - intros (y & Hy & E). apply Z.eqb_eq in E. now subst.
  - intros H. exists x. split; [assumption | apply Z.eqb_refl].
Qed.

(** All but the last element of the skip set are levels above 0. *)
Lemma removelast_skipped_positive (pyr_level nr level : Z) :
  1 <= nr ->
  In level (removelast (skipped_levels pyr_level nr)) ->
  1 <= level < Z.min nr pyr_level.
Proof.
  intros Hnr. rewrite skipped_levels_pos by assumption.
  unfold py_range. destruct (Z.to_nat (Z.min nr pyr_level)) as [|m] eqn:Em.
  - simpl. tauto.
  - simpl. rewrite removelast_last, <- in_rev, in_map_iff.
    intros (k & <- & Hk). apply in_seq in Hk. lia.
Qed.

(** C10. For [1 <= nr_lvl_skipped <= pyr_level] the skip set is exactly the
    [nr_lvl_skipped] finest levels [nr_lvl_skipped - 1, ..., 1, 0]: it
    contains level 0, and it contains the coarsest level [pyr_level - 1]
    only when every level is skipped. *)
Theorem skipped_levels_are_finest (pyr_level nr : Z) :
  1 <= nr <= pyr_level ->
  skipped_levels pyr_level nr = rev (py_range nr)
  /\ py_len (skipped_levels pyr_level nr) = nr
  /\ (forall level, In level (skipped_levels pyr_level nr) <-> 0 <= level < nr)
  /\ In 0 (skipped_levels pyr_level nr)
  /\ (In (pyr_level - 1) (skipped_levels pyr_level nr) <-> nr = pyr_level).
Proof.
  intros Hnr.
  assert (E : skipped_levels pyr_level nr = rev (py_range nr)).
  { rewrite skipped_levels_pos by lia. now rewrite Z.min_l by lia. }
  assert (M : forall level,
             In level (skipped_levels pyr_level nr) <-> 0 <= level < nr).
  { intros level. rewrite E, <- in_rev. apply in_py_range. }
  split; [exact E|]. split.
  { rewrite skipped_levels_length by lia. lia. }
  split; [exact M|]. split.
  - apply M. lia.
  - rewrite M. lia.
Qed.

(** ** Level transitions *)

Lemma smul_at (t : Tensor) (k : R) (i j c l : Z) :
  tat (smul t k) i j c l = (tat t i j c l * k)%R.
Proof. reflexivity. Qed.

Lemma not_in_py_in (x : Z) (l : list Z) : ~ In x l -> py_in x l = false.
Proof.
  intros H. destruct (py_in x l) eqn:E; [|reflexivity].
  apply py_in_spec in E. contradiction.
Qed.

(** C7. On a transition to a level that is neither the coarsest, nor
    skipped, nor the final level of a run with skipped levels, the carried
    flow and feature are upsampled by 2 and their values multiplied by 2,
    and the carried frame is upsampled by 2 with its values unchanged. On the
    final level of a run with skipped levels, where the resize factor is
    [k = 2 ^ len(skipped_levels)], the flow is upsampled by [k] and its
    values multiplied by [k], and the frame is upsampled by [k] unchanged. *)
Theorem transition_rescales_flow_and_feature
        (N H W L : Z) (skipped : list Z) (s : locals) (level : Z)
        (flow feat : Tensor) :
  loc_flow s = VTensor flow ->
  loc_feat s = VTensor feat ->
  level <> L - 1 ->
  ~ In level (removelast skipped) ->
  (~ (level = 0 /\ skipped <> []) ->
   forall uf ug ui,
     F_interpolate flow 2 = Ok uf ->
     F_interpolate feat 2 = Ok ug ->
     F_interpolate (loc_interp_img s) 2 = Ok ui ->
     prepare N H W L skipped (Some s) level
     = Ok (Run (mkRun (smul uf 2) (smul ug 2) (Some ui) false))
     /\ forall i j k l,
          (tat (smul uf 2) i j k l = tat uf i j k l * 2
           /\ tat (smul ug 2) i j k l = tat ug i j k l * 2)%R)
  /\ (level = 0 -> skipped <> [] -> py_len skipped <> L ->
      forall uf ui,
        F_interpolate flow (IZR (2 ^ py_len skipped)) = Ok uf ->
        F_interpolate (loc_interp_img s) (IZR (2 ^ py_len skipped)) = Ok ui ->
        prepare N H W L skipped (Some s) level
        = Ok (Run (mkRun (smul uf (IZR (2 ^ py_len skipped)))
                         (loc_last_feat s) (Some ui) true))
        /\ forall i j k l,
             (tat (smul uf (IZR (2 ^ py_len skipped))) i j k l
              = tat uf i j k l * IZR (2 ^ py_len skipped))%R).
Proof.
  intros Hflow Hfeat Hl Hs.
  assert (E1 : (level =? L - 1) = false) by now apply Z.eqb_neq.
  assert (E2 : py_in level (removelast skipped) = false) by now apply not_in_py_in.
  split.
  - intros Hf uf ug ui Ef Eg Ei.
    assert (E3 : ((level =? 0) && (0 <? py_len skipped))%bool = false).
    { apply andb_false_iff.
      destruct (Z.eqb_spec level 0) as [->|]; [right | now left].
      apply Z.ltb_ge. unfold py_len.
      destruct skipped; [simpl; lia | exfalso; apply Hf; now split]. }
    split; [|intros; split; apply smul_at].
    unfold prepare. rewrite E1, E2, E3. cbn [bound bind].
    rewrite Hflow, Hfeat. cbn [F_interpolate_v].
    rewrite Ef, Eg, Ei. reflexivity.
  - intros -> Hne Hlen uf ui Ef Ei.
    assert (E3 : ((0 =? 0) && (0 <? py_len skipped))%bool = true).
    { apply andb_true_iff. split; [reflexivity|]. apply Z.ltb_lt.
      unfold py_len. destruct skipped; [contradiction | simpl; lia]. }
    split; [|intros; apply smul_at].
    unfold prepare. rewrite E1, E2, E3.
    replace (py_len skipped =? L) with false by (symmetry; now apply Z.eqb_neq).
    cbn [bound bind]. rewrite Hflow. cbn [F_interpolate_v].
    rewrite Ef, Ei. reflexivity.
Qed.

(** ** The final level of a run with skipped levels *)

Lemma forward_one_lvl_skip_me (self : Model)
      (img0_rgb img1_rgb img0_depth img1_depth : Tensor)
      (last_feat last_flow last_interp : value) (t : R)
      (flow feat : value) (interp : Tensor) (extra : extra_dict) :
  forward_one_lvl self img0_rgb img1_rgb img0_depth img1_depth
                  last_feat last_flow last_interp t true
  = Ok (flow, feat, interp, extra) ->
  flow = last_flow /\ feat = last_feat
  /\ exists args, synthesis_network self args t = Ok (interp, extra).
Proof.
  unfold forward_one_lvl. cbn [negb].
  intros H.
  do 6 (apply bind_ok in H as (? & _ & H)).
  apply bind_ok in H as ([f g] & Hfg & H). injection Hfg as <- <-.
  apply bind_ok in H as (? & _ & H). apply bind_ok in H as (? & _ & H).
  apply bind_ok in H as (? & _ & H). apply bind_ok in H as (li & _ & H).
  apply bind_ok in H as ([i e] & Hs & H). injection H as <- <- <- <-.
  split; [reflexivity|]. split; [reflexivity|]. eauto.
Qed.

(** Lines 424-437 and 339-345 on their own. For [pyr_level >= 2] and
    [nr_lvl_skipped >= 1] the final
    level 0 is run with [skip_me = True]: when [nr_lvl_skipped >= pyr_level]
    the flow passed on is a fresh zero tensor of size [(N, 4, H // 4, W // 4)]
    and there is no prior frame; otherwise it is the last flow upsampled by
    [2 ^ nr_lvl_skipped] and multiplied by the same factor, and the prior
    frame is the last frame upsampled by that factor. With [skip_me = True],
    [forward_one_lvl] does not call the motion estimator, returns the flow
    and feature it was given, and takes its frame from the synthesis
    network. *)
Theorem final_level_skips_motion_estimation
        (N H W L S : Z) (s : locals) :
  2 <= L -> 1 <= S ->
  (L <= S ->
   prepare N H W L (skipped_levels L S) (Some s) 0
   = Ok (Run (mkRun (torch_zeros N 4 (H / 4) (W / 4)) (loc_last_feat s)
                    None true)))
  /\ (S < L ->
      forall flow uf ui,
        loc_flow s = VTensor flow ->
        F_interpolate flow (IZR (2 ^ S)) = Ok uf ->
        F_interpolate (loc_interp_img s) (IZR (2 ^ S)) = Ok ui ->
        prepare N H W L (skipped_levels L S) (Some s) 0
        = Ok (Run (mkRun (smul uf (IZR (2 ^ S))) (loc_last_feat s)
                         (Some ui) true))
        /\ forall i j k l,
             (tat (smul uf (IZR (2 ^ S))) i j k l
              = tat uf i j k l * IZR (2 ^ S))%R)
  /\ (forall self me img0_rgb img1_rgb img0_depth img1_depth
             last_feat last_flow last_interp t,
         forward_one_lvl (with_motion_estimator self me)
           img0_rgb img1_rgb img0_depth img1_depth
           last_feat last_flow last_interp t true
         = forward_one_lvl self
             img0_rgb img1_rgb img0_depth img1_depth
             last_feat last_flow last_interp t true)
  /\ (forall self img0_rgb img1_rgb img0_depth img1_depth
             last_feat last_flow last_interp t flow feat interp extra,
         forward_one_lvl self img0_rgb img1_rgb img0_depth img1_depth
                         last_feat last_flow last_interp t true
         = Ok (flow, feat, interp, extra) ->
         flow = last_flow /\ feat = last_feat
         /\ exists args, synthesis_network self args t = Ok (interp, extra)).
Proof.
  intros HL HS.
  assert (E1 : (0 =? L - 1) = false) by (apply Z.eqb_neq; lia).
  assert (E2 : py_in 0 (removelast (skipped_levels L S)) = false).
  { apply not_in_py_in. intros Hin.
    apply removelast_skipped_positive in Hin; lia. }
  assert (Elen : py_len (skipped_levels L S) = Z.min S L).
  { rewrite skipped_levels_length by lia. lia. }
  assert (E3 : ((0 =? 0) && (0 <? py_len (skipped_levels L S)))%bool = true).
  { rewrite Elen. apply andb_true_iff. split; [reflexivity|].
    apply Z.ltb_lt. lia. }
  split; [|split; [|split]].
  - intros Hall. unfold prepare. rewrite E1, E2, E3, Elen.
    replace (Z.min S L =? L) with true by (symmetry; apply Z.eqb_eq; lia).
    reflexivity.
  - intros Hpart flow uf ui Hflow Ef Ei.
    split; [|intros; apply smul_at].
    unfold prepare. rewrite E1, E2, E3, Elen.
    replace (Z.min S L =? L) with false by (symmetry; apply Z.eqb_neq; lia).
    rewrite Z.min_l by lia.
    cbn [bound bind]. rewrite Hflow. cbn [F_interpolate_v].
    rewrite Ef, Ei. reflexivity.
  - intros. reflexivity.
  - intros. eapply forward_one_lvl_skip_me; eassumption.
Qed.

(** ** What [Model.forward] returns *)

Lemma prepare_processed (N H W L : Z) (skipped : list Z)
      (st : option locals) (level : Z) (a : action) :
  prepare N H W L skipped st level = Ok a ->
  match a with
  | Continue => processed L skipped level = false
  | Run _ => processed L skipped level = true
  end.
Proof.
  unfold prepare, processed.
  destruct (level =? L - 1); [intros E; now injection E as <-|].
  destruct (py_in level (removelast skipped));
    [intros E; now injection E as <-|].
  intros E. destruct a; [|reflexivity]. exfalso. revert E.
  destruct ((level =? 0) && (0 <? py_len skipped))%bool;
    [destruct (py_len skipped =? L)|];
    destruct (bound st) as [s|]; cbn [bind]; try discriminate.
  - destruct (F_interpolate_v (loc_flow s) _); cbn [bind]; [|discriminate].
    destruct (F_interpolate (loc_interp_img s) _); cbn [bind]; discriminate.
  - destruct (F_interpolate_v (loc_flow s) 2); cbn [bind]; [|discriminate].
    destruct (F_interpolate_v (loc_feat s) 2); cbn [bind]; [|discriminate].
    destruct (F_interpolate (loc_interp_img s) 2); cbn [bind]; discriminate.
Qed.

Lemma run_level_appends (self : Model) (i0 i1 : Tensor) (t : R)
      (i : level_inputs) (bi_flows : list Tensor)
      (st' : option locals) (bi_flows' : list Tensor) :
  run_level self i0 i1 t i bi_flows = Ok (st', bi_flows') ->
  exists up, bi_flows' = bi_flows ++ [up].
Proof.
  unfold run_level. intros E.
  apply bind_ok in E as ([[[flow feat] interp] extra] & _ & E).
  apply bind_ok in E as (up & _ & E). injection E as <- <-. eauto.
Qed.

Lemma run_levels_bi_flows (self : Model) (img0 img1 : Tensor) (t : R)
      (L : Z) (skipped levels : list Z) (st : option locals)
      (bi_flows : list Tensor) (st' : option locals) (bi_flows' : list Tensor) :
  run_levels self img0 img1 t L skipped levels st bi_flows = Ok (st', bi_flows') ->
  List.length bi_flows'
  = (List.length bi_flows + List.length (filter (processed L skipped) levels))%nat.
Proof.
  revert st bi_flows.
  induction levels as [|level rest IH]; intros st bi_flows E.
  - injection E as <- <-. simpl. lia.
  - cbn [run_levels] in E.
    apply bind_ok in E as ([st1 bf1] & Eb & E). apply IH in E.
    unfold level_body in Eb.
    apply bind_ok in Eb as ([i0 i1] & _ & Eb).
    apply bind_ok in Eb as (a & Ea & Eb).
    apply prepare_processed in Ea. cbn [filter].
    destruct a as [|i]; rewrite Ea.
    + injection Eb as <- <-. exact E.
    + apply run_level_appends in Eb as (up & ->).
      rewrite E, length_app. simpl. lia.
Qed.

(** C6 (as the code has it). When [Model.forward] returns, the flow it
    returns is the last flow upsampled by 4, [bi_flows] holds one flow for
    every processed level, and [interp_imgs] holds the final frame only:
    line 463 appends after the loop. *)
Theorem forward_diagnostics
        (self : Model) (img0 img1 : Tensor) (t : R)
        (pyr_level_arg nr_lvl_skipped_arg : option Z) (out : forward_output) :
  forward self img0 img1 t pyr_level_arg nr_lvl_skipped_arg = Ok out ->
  let L := match pyr_level_arg with Some l => l | None => pyr_level self end in
  let S := match nr_lvl_skipped_arg with
           | Some s => s
           | None => nr_lvl_skipped self
           end in
  out_img0 out = img0
  /\ (exists s flow,
        run_levels self img0 img1 t L (skipped_levels L S)
                   (rev (py_range L)) None []
        = Ok (Some s, out_bi_flows out)
        /\ loc_flow s = VTensor flow
        /\ F_interpolate flow 4 = Ok (out_bi_flow out)
        /\ out_interp_img out = loc_interp_img s)
  /\ out_interp_imgs out = [out_interp_img out]
  /\ List.length (out_bi_flows out)
     = List.length (processed_levels L (skipped_levels L S)).
Proof.
  intros E L S. unfold forward in E. fold L S in E.
  apply bind_ok in E as ([st bf] & Er & E).
  pose proof (run_levels_bi_flows _ _ _ _ _ _ _ _ _ _ _ Er) as Hlen.
  unfold finish in E.
  apply bind_ok in E as (s & Es & E). apply bind_ok in E as (b & Eb & E).
  injection E as <-. cbn.
  destruct st as [s'|]; [|discriminate]. injection Es as ->.
  split; [reflexivity|]. split.
  { destruct (loc_flow s) as [| |flow|] eqn:Ef; try discriminate.
    exists s, flow. auto. }
  split; [reflexivity|]. exact Hlen.
Qed.

(** ** The model as constructed *)

Lemma raises_bind {A B : Type} (m : result A) (k : A -> result B) :
  raises m -> raises (bind m k).
Proof. intros (e & ->). now exists e. Qed.

(** Line 377 passes six positional arguments to a [forward] of eleven. *)
Lemma forward_one_lvl_raises (pl ns : option Z)
      (img0_rgb img1_rgb img0_depth img1_depth : Tensor)
      (last_feat last_flow last_interp : value) (t : R) (skip_me : bool) :
  raises (forward_one_lvl (Model_init pl ns)
            img0_rgb img1_rgb img0_depth img1_depth
            last_feat last_flow last_interp t skip_me).
Proof.
  unfold forward_one_lvl.
  do 6 (apply bind_raises; intros ?).
  apply bind_raises; intros [flow feat].
  do 4 (apply bind_raises; intros ?).
  apply raises_bind. now exists TypeError.
Qed.

Lemma rev_py_range_succ (L : Z) :
  1 <= L -> rev (py_range L) = (L - 1) :: rev (py_range (L - 1)).
Proof.
  intros HL. unfold py_range.
  replace (Z.to_nat L) with (S (Z.to_nat (L - 1))) by lia.
  rewrite seq_S, map_app, rev_app_distr. simpl. f_equal. lia.
Qed.

(** Line 258 passes nine positional arguments to a method of five: for
    every argument list, [self.synthesis_network(...)] raises. *)
Theorem call_synthesis_network_raises (args : list value) (t : R) :
  raises (call_synthesis_network args t).
Proof.
  unfold call_synthesis_network.
  do 11 (destruct args as [|? args]; [now exists TypeError|]).
  destruct args; [|now exists TypeError].
  do 11 (apply bind_raises; intros ?).
  unfold SynthesisNetwork_forward.
  do 5 (apply bind_raises; intros ?).
  apply raises_bind. now exists TypeError.
Qed.

(** Line 449 binds [time_period] to the parameter [last_flow] of
    [forward_one_lvl]: with [skip_me = True] line 349 interpolates a float,
    so a level run with skipped motion estimation raises for every model. *)
Theorem run_level_skip_me_raises
        (self : Model) (i0 i1 : Tensor) (t : R)
        (last_flow last_feat : Tensor) (last_interp : option Tensor)
        (bi_flows : list Tensor) :
  raises (run_level self i0 i1 t
            (mkRun last_flow last_feat last_interp true) bi_flows).
Proof.
  unfold run_level. apply raises_bind. unfold forward_one_lvl.
  do 6 (apply bind_raises; intros ?).
  cbn [negb run_skip_me bind]. now exists AttributeError.
Qed.

(** Line 449 passes the 64-channel state [last_feat] where
    [forward_one_lvl] expects the depth image: the depth pyramid, whose first
    convolution takes 3 channels, raises on it. *)
Theorem depth_pyramid_rejects_state (name : string) (N H W : Z) :
  raises (FeatPyramid_forward name (torch_zeros N 64 H W)).
Proof. now exists RuntimeError. Qed.

Lemma estimator_input_channels (feat0 feat1 lfeat lflow x : Tensor) :
  estimator_input feat0 feat1 (VTensor lfeat) (VTensor lflow) = Ok x ->
  tC x = 81 + tC feat0 + tC feat1 + tC lfeat + tC lflow.
Proof.
  unfold estimator_input, as_tensor. intros E.
  apply bind_ok in E as ([w0 w1] & Ew & E).
  apply bind_ok in E as (corr & Ec & E). cbn [bind] in E.
  unfold prewarp, subscript_ch in Ew. cbn [bind] in Ew.
  apply bind_ok in Ew as (w0' & E0 & Ew). apply bind_ok in Ew as (w1' & E1 & Ew).
  injection Ew as -> ->.
  assert (S0 : tC w0 = tC feat0).
  { unfold FunctionSoftsplat in E0.
    destruct (_ && _)%bool; [|discriminate]. now injection E0 as <-. }
  assert (S1 : tC w1 = tC feat1).
  { unfold FunctionSoftsplat in E1.
    destruct (_ && _)%bool; [|discriminate]. now injection E1 as <-. }
  assert (Sc : tC corr = 81).
  { unfold FunctionCorrelation in Ec.
    destruct (_ && _)%bool; [|discriminate]. now injection Ec as <-. }
  unfold torch_cat, cat_from, cat2 in E.
  repeat (destruct (same_batch_space _ _);
          [cbn [bind tN tC tH tW] in E | discriminate]).
  injection E as <-. cbn [tmap tC]. now rewrite Sc, S0, S1.
Qed.

(** Lines 333-342 pass the concatenation of the colour and depth maps, of
    128 channels, to the motion estimator: its input then has more than the
    277 channels that [conv_layer1] takes, and the estimator raises. *)
Theorem estimator_rejects_concatenated_features
        (feat0 feat1 lfeat lflow : Tensor) :
  tC feat0 = 128 -> tC feat1 = 128 -> 0 <= tC lfeat -> 0 <= tC lflow ->
  raises (MotionEstimator_forward feat0 feat1 (VTensor lfeat) (VTensor lflow)).
Proof.
  intros H0 H1 Hf Hl. unfold MotionEstimator_forward.
  destruct (estimator_input feat0 feat1 (VTensor lfeat) (VTensor lflow))
    as [x|e] eqn:E; [|now exists e].
  apply estimator_input_channels in E. cbn [bind]. apply raises_bind.
  unfold conv_layer1, Sequential, apply_layer.
  replace (tC x =? 277) with false by (symmetry; apply Z.eqb_neq; lia).
  now exists RuntimeError.
Qed.


(** The coarsest level always runs with motion estimation, also when every
    level is in the skip set. *)
Theorem coarsest_level_runs_motion_estimation
        (N H W L : Z) (skipped : list Z) (st : option locals) :
  prepare N H W L skipped st (L - 1)
  = Ok (Run (mkRun (torch_zeros N 4 (H / 2 ^ (L - 1 + 2)) (W / 2 ^ (L - 1 + 2)))
                   (torch_zeros N 64 (H / 2 ^ (L - 1 + 2)) (W / 2 ^ (L - 1 + 2)))
                   None false)).
Proof. unfold prepare. now rewrite Z.eqb_refl. Qed.

(** C1 (as the code has it). For the model that [Model.__init__] builds,
    [Model.forward] raises on every input: no frame is returned. *)
Theorem Model_forward_raises
        (pl ns : option Z) (img0 img1 : Tensor) (t : R)
        (pyr_level_arg nr_lvl_skipped_arg : option Z) :
  raises (forward (Model_init pl ns) img0 img1 t
                  pyr_level_arg nr_lvl_skipped_arg).
Proof.
  unfold forward.
  set (L := match pyr_level_arg with Some l => l | None => _ end).
  set (sk := skipped_levels L _).
  destruct (Z.le_gt_cases L 0) as [H0|H1].
  - replace (py_range L) with (@nil Z)
      by (unfold py_range; now replace (Z.to_nat L) with 0%nat by lia).
    now exists UnboundLocalError.
  - rewrite rev_py_range_succ by lia. cbn [run_levels].
    apply raises_bind, raises_bind. unfold level_body.
    apply bind_raises; intros [i0 i1].
    unfold prepare. rewrite Z.eqb_refl. cbn [bind].
    unfold run_level. apply raises_bind, forward_one_lvl_raises.
Qed.

(** ** The skip set for every pair of integers *)

Lemma rev_py_range_firstn (n k : Z) :
  0 <= k <= Z.max 0 n ->
  skipn (Z.to_nat (Z.max 0 n - k)) (rev (py_range n)) = rev (py_range k).
Proof.
  intros Hk. rewrite skipn_rev. unfold py_range.
  rewrite length_map, length_seq, firstn_map, firstn_seq_le by lia.
  do 3 f_equal. lia.
Qed.

Lemma py_range_nonpos (n : Z) : n <= 0 -> py_range n = [].
Proof. intros H. unfold py_range. now replace (Z.to_nat n) with 0%nat by lia. Qed.

Lemma skipped_levels_rev_range (pyr_level nr : Z) :
  skipped_levels pyr_level nr = rev (py_range (skip_count pyr_level nr)).
Proof.
  unfold skip_count. destruct (Z.eqb_spec nr 0) as [->|Hnz]; [reflexivity|].
  destruct (Z.ltb_spec 0 nr) as [Hpos|Hneg].
  - apply skipped_levels_pos. lia.
  - unfold skipped_levels, py_slice_from.
    replace (nr =? 0) with false by (symmetry; apply Z.eqb_neq; lia).
    replace (- nr <? 0) with false by (symmetry; apply Z.ltb_ge; lia).
    rewrite length_rev. fold (py_len (py_range pyr_level)).
    rewrite py_range_length.
    destruct (Z.le_gt_cases (pyr_level + nr) 0) as [Hle|Hgt].
    + rewrite (py_range_nonpos (pyr_level + nr)) by lia.
      apply length_zero_iff_nil. rewrite length_skipn, length_rev.
      unfold py_range. rewrite length_map, length_seq. lia.
    + replace (Z.min (- nr) (Z.max 0 pyr_level))
        with (Z.max 0 pyr_level - (pyr_level + nr)) by lia.
      apply rev_py_range_firstn. lia.
Qed.

(** Lines 391-392 for every pair of integers: the skip set is the
    [skip_count] finest levels. A count above [pyr_level] is clipped to it,
    and a negative count [-k] leaves the [k] coarsest levels out of the skip
    set. *)
Theorem skipped_levels_closed_form (pyr_level nr : Z) :
  skipped_levels pyr_level nr = rev (py_range (skip_count pyr_level nr))
  /\ (pyr_level <= nr -> 1 <= nr ->
      skipped_levels pyr_level nr = rev (py_range pyr_level))
  /\ (nr < 0 ->
      skipped_levels pyr_level nr
      = if pyr_level + nr <=? 0 then []
        else skipped_levels pyr_level (pyr_level + nr)).
Proof.
  pose proof (skipped_levels_rev_range pyr_level nr) as E.
  split; [exact E|]. split.
  - intros Hclip Hpos. rewrite E. unfold skip_count.
    replace (nr =? 0) with false by (symmetry; apply Z.eqb_neq; lia).
    replace (0 <? nr) with true by (symmetry; apply Z.ltb_lt; lia).
    now rewrite Z.min_r by lia.
  - intros Hneg. rewrite E. unfold skip_count at 1.
    replace (nr =? 0) with false by (symmetry; apply Z.eqb_neq; lia).
    replace (0 <? nr) with false by (symmetry; apply Z.ltb_ge; lia).
    destruct (Z.leb_spec (pyr_level + nr) 0) as [Hle|Hgt].
    + now rewrite py_range_nonpos.
    + rewrite skipped_levels_pos by lia. now rewrite Z.min_l by lia.
Qed.

Lemma removelast_rev_py_range (m level : Z) :
  In level (removelast (rev (py_range m))) <-> 1 <= level < m.
Proof.
  unfold py_range. destruct (Z.to_nat m) as [|k] eqn:Em.
  - simpl. split; [tauto | lia].
  - simpl. rewrite removelast_last, <- in_rev, in_map_iff. split.
    + intros (i & <- & Hi). apply in_seq in Hi. lia.
    + intros Hl. exists (Z.to_nat level). split; [lia|]. apply in_seq. lia.
Qed.

Lemma prepare_continue_iff
      (N H W pyr_level nr : Z) (st : option locals) (level : Z) :
  prepare N H W pyr_level (skipped_levels pyr_level nr) st level = Ok Continue
  <-> level <> pyr_level - 1 /\ 1 <= level < skip_count pyr_level nr.
Proof.
  assert (M : py_in level (removelast (skipped_levels pyr_level nr)) = true
              <-> 1 <= level < skip_count pyr_level nr).
  { rewrite py_in_spec, (skipped_levels_rev_range pyr_level nr).
    apply removelast_rev_py_range. }
  split.
  - intros E. pose proof (prepare_processed _ _ _ _ _ _ _ _ E) as P.
    cbn in P. unfold processed in P. apply orb_false_iff in P as [P1 P2].
    apply Z.eqb_neq in P1. apply negb_false_iff in P2. apply M in P2. auto.
  - intros [Hl Hs]. unfold prepare.
    replace (level =? pyr_level - 1) with false
      by (symmetry; now apply Z.eqb_neq).
    apply M in Hs. now rewrite Hs.
Qed.

Lemma level_zero_is_run
      (N H W pyr_level nr : Z) (st : option locals) :
  prepare N H W pyr_level (skipped_levels pyr_level nr) st 0 <> Ok Continue.
Proof. intros E. apply prepare_continue_iff in E. lia. Qed.

(** Lines 412-422 for every pair of integers: a level is left by [continue]
    exactly when it is not the coarsest level and is one of the levels
    [1, ..., skip_count - 1]; level 0 is never left. *)
Theorem continue_exactly_on_skipped_levels
        (N H W pyr_level nr : Z) (st : option locals) (level : Z) :
  (prepare N H W pyr_level (skipped_levels pyr_level nr) st level = Ok Continue
   <-> level <> pyr_level - 1 /\ 1 <= level < skip_count pyr_level nr)
  /\ prepare N H W pyr_level (skipped_levels pyr_level nr) st 0 <> Ok Continue.
Proof.
  split.
  - apply prepare_continue_iff.
  - intros E. apply prepare_continue_iff in E. lia.
Qed.

(** ** Runs of the scheduler *)

Lemma run_levels_app (self : Model) (img0 img1 : Tensor) (t : R) (L : Z)
      (skipped l1 l2 : list Z) (st : option locals) (bi_flows : list Tensor) :
  run_levels self img0 img1 t L skipped (l1 ++ l2) st bi_flows
  = bind (run_levels self img0 img1 t L skipped l1 st bi_flows)
         (fun r => run_levels self img0 img1 t L skipped l2 (fst r) (snd r)).
Proof.
  revert st bi_flows. induction l1 as [|level rest IH]; intros st bi_flows.
  - reflexivity.
  - cbn [app run_levels].
    destruct (level_body self img0 img1 t L skipped st bi_flows level)
      as [[st' bf']|e]; [|reflexivity].
    cbn [bind]. apply IH.
Qed.

Lemma rev_py_range_last (L : Z) :
  1 <= L -> exists upper, rev (py_range L) = upper ++ [0].
Proof.
  intros HL. unfold py_range. destruct (Z.to_nat L) as [|k] eqn:E; [lia|].
  simpl. eauto.
Qed.

(** Lines 395 and 459: with [pyr_level <= 0] the loop body never runs and
    line 459 reads the local [flow] before any assignment, for every model
    and every skip count. *)
Theorem empty_pyramid_raises
        (self : Model) (img0 img1 : Tensor) (t : R) (L : Z)
        (nr_lvl_skipped_arg : option Z) :
  L <= 0 ->
  forward self img0 img1 t (Some L) nr_lvl_skipped_arg = Raise UnboundLocalError.
Proof.
  intros HL. unfold forward. now rewrite py_range_nonpos.
Qed.

Lemma skip_me_level_fails
      (self : Model) (i0 i1 : Tensor) (t : R)
      (last_flow last_feat : Tensor) (last_interp : option Tensor)
      (bi_flows : list Tensor) :
  raises (run_level self i0 i1 t
            (mkRun last_flow last_feat last_interp true) bi_flows).
Proof.
  unfold run_level. apply raises_bind. unfold forward_one_lvl.
  do 6 (apply bind_raises; intros ?).
  cbn [negb run_skip_me bind]. now exists AttributeError.
Qed.

(** Level 0 of a run of at least two levels with a non-empty skip set. *)
Lemma skipped_level_zero_raises
      (self : Model) (img0 img1 : Tensor) (t : R) (L S : Z)
      (st : option locals) (bf : list Tensor) :
  2 <= L -> S <> 0 -> 0 < L + S ->
  raises (level_body self img0 img1 t L (skipped_levels L S) st bf 0).
Proof.
  intros HL HS HLS.
  unfold level_body, images_this_lvl. cbn [Z.eqb negb bind].
  pose proof (level_zero_is_run (tN img0) (tH img0) (tW img0) L S st) as Hc.
  assert (Hlen : 0 < py_len (skipped_levels L S)).
  { rewrite (skipped_levels_rev_range L S).
    unfold py_len. rewrite length_rev. fold (py_len (py_range (skip_count L S))).
    rewrite py_range_length. unfold skip_count.
    destruct (Z.eqb_spec S 0); [contradiction|].
    destruct (Z.ltb_spec 0 S); lia. }
  revert Hc. unfold prepare.
  replace (0 =? L - 1) with false by (symmetry; apply Z.eqb_neq; lia).
  destruct (py_in 0 (removelast (skipped_levels L S))); [congruence|].
  intros _.
  replace ((0 =? 0) && (0 <? py_len (skipped_levels L S)))%bool with true
    by (symmetry; apply andb_true_iff; split;
        [reflexivity | now apply Z.ltb_lt]).
  destruct (py_len (skipped_levels L S) =? L).
  - destruct (bound st) as [s|e]; [|now exists e]. cbn [bind].
    apply skip_me_level_fails.
  - destruct (bound st) as [s|e]; [|now exists e]. cbn [bind].
    destruct (F_interpolate_v (loc_flow s) _) as [f|e]; [|now exists e].
    cbn [bind].
    destruct (F_interpolate (loc_interp_img s) _) as [i|e]; [|now exists e].
    cbn [bind]. apply skip_me_level_fails.
Qed.

(** Lines 424-437 with 449 and 344-351: for every model, a run of at least
    two levels with a non-empty skip set raises. Level 0 is then run with
    [skip_me = True], where [forward_one_lvl] takes as flow the float that
    the call of line 449 binds to its parameter [last_flow]. *)
Theorem skipping_always_raises
        (self : Model) (img0 img1 : Tensor) (t : R) (L S : Z) :
  2 <= L -> S <> 0 -> 0 < L + S ->
  raises (forward self img0 img1 t (Some L) (Some S)).
Proof.
  intros HL HS HLS. unfold forward. apply raises_bind.
  destruct (rev_py_range_last L) as (upper & ->); [lia|].
  rewrite run_levels_app.
  destruct (run_levels self img0 img1 t L (skipped_levels L S) upper None [])
    as [[st bf]|e]; [|now exists e].
  cbn [bind fst snd run_levels]. apply raises_bind.
  now apply skipped_level_zero_raises.
Qed.

(** Lines 453-461: whenever [Model.forward] returns, [bi_flows] is not empty
    and its last entry is the returned full-resolution flow. *)
Theorem last_bi_flow_is_returned_flow
        (self : Model) (img0 img1 : Tensor) (t : R)
        (pyr_level_arg nr_lvl_skipped_arg : option Z) (out : forward_output) :
  forward self img0 img1 t pyr_level_arg nr_lvl_skipped_arg = Ok out ->
  exists earlier, out_bi_flows out = earlier ++ [out_bi_flow out].
Proof.
  unfold forward.
  set (L := match pyr_level_arg with Some l => l | None => _ end).
  set (S := match nr_lvl_skipped_arg with Some s => s | None => _ end).
  intros E. apply bind_ok in E as ([st bf] & Er & E).
  destruct (Z.le_gt_cases L 0) as [H0|H1].
  { rewrite py_range_nonpos in Er by assumption. injection Er as <- <-.
    discriminate E. }
  destruct (rev_py_range_last L) as (upper & Eu); [lia|]. rewrite Eu in Er.
  rewrite run_levels_app in Er.
  apply bind_ok in Er as ([st1 bf1] & _ & Er). cbn [fst snd run_levels] in Er.
  apply bind_ok in Er as ([st2 bf2] & Eb & Er). injection Er as -> ->.
  unfold level_body in Eb.
  apply bind_ok in Eb as ([i0 i1] & _ & Eb). apply bind_ok in Eb as (a & Ea & Eb).
  destruct a as [|i].
  { exfalso.
    now apply (level_zero_is_run (tN img0) (tH img0) (tW img0) L S st1). }
  unfold run_level in Eb.
  apply bind_ok in Eb as ([[[flow feat] interp] extra] & _ & Eb).
  apply bind_ok in Eb as (up & Eup & Eb). injection Eb as <- <-.
  unfold finish in E. cbn [bound bind loc_flow] in E. rewrite Eup in E.
  cbn [bind] in E. injection E as <-. cbn. eauto.
Qed.

(** ** Further properties of the blend *)

Lemma convex_quotient (a b u v : R) :
  (0 <= u -> 0 <= v -> 0 < u + v ->
   Rmin a b <= (a * u + b * v) / (u + v) <= Rmax a b)%R.
Proof.
  intros Hu Hv Hs.
  pose proof (Rmin_l a b). pose proof (Rmin_r a b).
  pose proof (Rmax_l a b). pose proof (Rmax_r a b).
  split.
  - apply (Rmult_le_reg_r (u + v)); [assumption|].
    unfold Rdiv. rewrite Rmult_assoc, Rinv_l by lra. nra.
  - apply (Rmult_le_reg_r (u + v)); [assumption|].
    unfold Rdiv. rewrite Rmult_assoc, Rinv_l by lra. nra.
Qed.

(** Lines 288-293: for a time period in [0, 1], at every element where the
    normalisation of line 292 is not 0, the merged image lies between the
    two warped elements it blends, and at the ends of the interval it is
    the warped element itself: [warped0] at 0 and [warped1] at 1. (Where
    the normalisation is 0, the masks that enter it having underflowed,
    line 292 divides by zero.) *)
Theorem merged_between_warped (x refine warped0 warped1 : Tensor) (t : R) :
  Sequential pred x = Ok refine ->
  has_shape warped0 (tN x) 3 (tH x) (tW x) ->
  has_shape warped1 (tN x) 3 (tH x) (tW x) ->
  (0 <= t <= 1)%R ->
  exists merged den,
    merged_img warped0 warped1 (refine_mask0 refine) (refine_mask1 refine) t
    = Ok merged
    /\ blend_denominator (refine_mask0 refine) (refine_mask1 refine) t = Ok den
    /\ forall i j k l, in_range (tN x) 3 (tH x) (tW x) i j k l ->
         tat den i 0 k l <> 0%R ->
         (Rmin (tat warped0 i j k l) (tat warped1 i j k l)
          <= tat merged i j k l
          <= Rmax (tat warped0 i j k l) (tat warped1 i j k l))%R
         /\ (t = 0%R -> tat merged i j k l = tat warped0 i j k l)
         /\ (t = 1%R -> tat merged i j k l = tat warped1 i j k l).
Proof.
  intros Hp H0 H1 Ht.
  destruct (pred_shape _ _ Hp) as [Hr _].
  destruct refine as [rn rc rh rw rd], warped0 as [an ac ah aw ad],
           warped1 as [bn bc bh bw bd].
  shapes.
  unfold merged_img, blend_denominator, tadd, tmul, tdiv,
    broadcast, refine_mask0, refine_mask1, smul, tmap, slice_ch.
  run_broadcast.
  eexists _, _. split; [reflexivity|]. split; [reflexivity|].
  intros i j k l (Hi & Hj & Hk & Hl). cbn.
  rewrite !(bidx_in _ i), !(bidx_in _ k), !(bidx_in _ l) by assumption.
  match goal with
  | |- context [(sigmoid ?p * (1 - t) + sigmoid ?q * t)%R] =>
      pose proof (sigmoid_range p) as Pp; pose proof (sigmoid_range q) as Pq;
      set (m0 := sigmoid p) in *; set (m1 := sigmoid q) in *
  end.
  set (a := ad i j k l). set (b := bd i j k l).
  intros Hden.
  assert (Hpos : (0 < m0 * (1 - t) + m1 * t)%R).
  { assert (0 <= m0 * (1 - t) + m1 * t)%R by nra. lra. }
  split; [|split].
  - replace (a * m0 * (1 - t) + b * m1 * t)%R
      with (a * (m0 * (1 - t)) + b * (m1 * t))%R by ring.
    apply convex_quotient; nra.
  - intros ->. field. lra.
  - intros ->. field. lra.
Qed.

(** Lines 290-293: exchanging the two sources, with their masks, and
    replacing the time period [t] by [1 - t] leaves the merged image
    unchanged. *)
Theorem merged_img_time_symmetric
        (warped0 warped1 mask0 mask1 : Tensor) (n h w : Z) (t : R) :
  has_shape warped0 n 3 h w -> has_shape warped1 n 3 h w ->
  has_shape mask0 n 1 h w -> has_shape mask1 n 1 h w ->
  exists merged swapped,
    merged_img warped0 warped1 mask0 mask1 t = Ok merged
    /\ merged_img warped1 warped0 mask1 mask0 (1 - t) = Ok swapped
    /\ has_shape merged n 3 h w /\ has_shape swapped n 3 h w
    /\ forall i j k l, tat swapped i j k l = tat merged i j k l.
Proof.
  intros H0 H1 Hm0 Hm1.
  destruct warped0 as [an ac ah aw ad], warped1 as [bn bc bh bw bd],
           mask0 as [cn cc ch cw cd], mask1 as [dn dc dh dw dd].
  shapes.
  unfold merged_img, blend_denominator, tadd, tmul, tdiv, broadcast, smul, tmap.
  run_broadcast.
  eexists _, _. split; [reflexivity|]. split; [reflexivity|].
  split; [now unfold has_shape|]. split; [now unfold has_shape|].
  intros i j k l. cbn. f_equal; ring.
Qed.

(** Lines 290-293: masks that agree (and are not zero) cancel, so the merged
    image is the linear blend [warped0 * (1 - t) + warped1 * t] for every
    time period. *)
Theorem equal_masks_cancel
        (warped0 warped1 mask0 mask1 : Tensor) (n h w : Z) (t : R) :
  has_shape warped0 n 3 h w -> has_shape warped1 n 3 h w ->
  has_shape mask0 n 1 h w -> has_shape mask1 n 1 h w ->
  (forall i k l, tat mask0 i 0 k l = tat mask1 i 0 k l) ->
  (forall i k l, tat mask0 i 0 k l <> 0%R) ->
  exists merged,
    merged_img warped0 warped1 mask0 mask1 t = Ok merged
    /\ forall i j k l, in_range n 3 h w i j k l ->
         (tat merged i j k l
          = tat warped0 i j k l * (1 - t) + tat warped1 i j k l * t)%R.
Proof.
  intros H0 H1 Hm0 Hm1 Heq Hnz.
  destruct warped0 as [an ac ah aw ad], warped1 as [bn bc bh bw bd],
           mask0 as [cn cc ch cw cd], mask1 as [dn dc dh dw dd].
  shapes.
  unfold merged_img, blend_denominator, tadd, tmul, tdiv, broadcast, smul, tmap.
  run_broadcast.
  eexists. split; [reflexivity|].
  intros i j k l (Hi & Hj & Hk & Hl). cbn.
  rewrite !(bidx_in _ i), !(bidx_in _ k), !(bidx_in _ l) by assumption.
  rewrite <- Heq. specialize (Hnz i k l).
  set (m := cd i 0 k l) in *.
  replace (m * (1 - t) + m * t)%R with m by ring.
  field. assumption.
Qed.

Lemma bdim_1_r (x : Z) : bdim x 1 = Some x.
Proof.
  unfold bdim. destruct (Z.eqb_spec x 1) as [->|]; [reflexivity|].
  reflexivity.
Qed.

(** Lines 290-295: the channel counts of the warped images that the blend
    accepts. With one channel the masks and the residual broadcast, and the
    frame has three channels; with a count other than 1 or 3 adding the
    3-channel residual raises. *)
Theorem predict_channel_counts
        (x refine warped0 warped1 : Tensor) (c : Z) (t : R) :
  Sequential pred x = Ok refine ->
  has_shape warped0 (tN x) c (tH x) (tW x) ->
  has_shape warped1 (tN x) c (tH x) (tW x) ->
  (c = 1 \/ c = 3 ->
   exists interp extra,
     predict refine warped0 warped1 t = Ok (interp, extra)
     /\ has_shape interp (tN x) 3 (tH x) (tW x)
     /\ has_shape (extra_merged_img extra) (tN x) c (tH x) (tW x))
  /\ (c <> 1 -> c <> 3 ->
      predict refine warped0 warped1 t = Raise RuntimeError).
Proof.
  intros Hp H0 H1.
  destruct (pred_shape _ _ Hp) as [Hr _].
  destruct refine as [rn rc rh rw rd], warped0 as [an ac ah aw ad],
           warped1 as [bn bc bh bw bd].
  shapes.
  unfold predict, blend, merged_img, blend_denominator, tadd, tmul, tdiv,
    broadcast, refine_mask0, refine_mask1, refine_res, smul, tmap, slice_ch.
  repeat (progress (rewrite ?bdim_refl, ?bdim_1_r; cbn -[bdim])).
  split.
  - intros [->| ->]; cbn; eexists _, _;
      (split; [reflexivity|]); split; now unfold has_shape.
  - intros Hc1 Hc3. unfold bdim.
    replace (c =? 3) with false by (symmetry; now apply Z.eqb_neq).
    replace (c =? 1) with false by (symmetry; now apply Z.eqb_neq).
    reflexivity.
Qed.

(** ** FeatPyramid *)

Lemma Sequential_app (l1 l2 : list layer) (x : Tensor) :
  Sequential (l1 ++ l2) x = bind (Sequential l1 x) (Sequential l2).
Proof.
  revert x. induction l1 as [|l l1 IH]; intros x; [reflexivity|].
  cbn [app Sequential]. destruct (apply_layer l x) as [y|e]; [|reflexivity].
  cbn [bind]. apply IH.
Qed.

Lemma conv_size_stride (size s : Z) :
  1 <= size -> 1 <= s -> 1 <= conv_size size 3 s 1 <= size.
Proof.
  intros Hsz Hs. unfold conv_size.
  replace (size + 2 * 1 - 3) with (size - 1) by lia.
  pose proof (Z.div_pos (size - 1) s ltac:(lia) ltac:(lia)).
  pose proof (Z.div_le_upper_bound (size - 1) s (size - 1) ltac:(lia) ltac:(nia)).
  lia.
Qed.

Lemma conv_size_even (size : Z) :
  1 <= size -> size mod 2 = 0 -> conv_size size 3 2 1 = size / 2.
Proof.
  intros Hsz Hev. unfold conv_size.
  replace (size + 2 * 1 - 3) with (size - 1) by lia.
  pose proof (Z.div_mod size 2 ltac:(lia)) as E. rewrite Hev in E.
  replace (size - 1) with (1 + (size / 2 - 1) * 2) by lia.
  rewrite Z.div_add by lia. change (1 / 2) with 0. lia.
Qed.

Lemma strided_stage_spec (name : string) (cin cout s : Z) (slope : R)
      (x : Tensor) (n h w : Z) :
  has_shape x n cin h w -> 1 <= h -> 1 <= w ->
  exists y,
    Sequential [Conv2d name cin cout 3 s 1; LeakyReLU slope] x = Ok y
    /\ has_shape y n cout (conv_size h 3 s 1) (conv_size w 3 s 1).
Proof.
  intros (Hn & Hc & Hh & Hw) H1 H2.
  unfold Sequential. rewrite conv2d_apply by lia. cbn [bind apply_layer].
  eexists; split; [reflexivity|].
  unfold has_shape; cbn [tN tC tH tW tmap]. rewrite Hn, Hh, Hw. auto.
Qed.

Lemma feat_stage_spec (name : string) (cin cout s : Z)
      (x : Tensor) (n h w : Z) :
  has_shape x n cin h w -> 1 <= h -> 1 <= w -> 1 <= s ->
  exists y,
    Sequential (feat_stage name cin cout s) x = Ok y
    /\ has_shape y n cout (conv_size h 3 s 1) (conv_size w 3 s 1).
Proof.
  intros Hx Hh Hw Hs.
  pose proof (conv_size_stride h s Hh Hs) as Bh.
  pose proof (conv_size_stride w s Hw Hs) as Bw.
  destruct (strided_stage_spec (name ++ ".0") cin cout s 0.1 x n h w Hx Hh Hw)
    as (y1 & E1 & S1).
  destruct (stage_spec (name ++ ".2") cout cout 3 1 0.1 y1 _ _ _ S1)
    as (y2 & E2 & S2 & _); [lia | lia | lia |].
  destruct (stage_spec (name ++ ".4") cout cout 3 1 0.1 y2 _ _ _ S2)
    as (y3 & E3 & S3 & _); [lia | lia | lia |].
  destruct (stage_spec (name ++ ".6") cout cout 3 1 0.1 y3 _ _ _ S3)
    as (y4 & E4 & S4 & _); [lia | lia | lia |].
  exists y4. split; [|exact S4].
  unfold feat_stage.
  change [Conv2d (name ++ ".0") cin cout 3 s 1; LeakyReLU 0.1;
          Conv2d (name ++ ".2") cout cout 3 1 1; LeakyReLU 0.1;
          Conv2d (name ++ ".4") cout cout 3 1 1; LeakyReLU 0.1;
          Conv2d (name ++ ".6") cout cout 3 1 1; LeakyReLU 0.1]
    with ([Conv2d (name ++ ".0") cin cout 3 s 1; LeakyReLU 0.1]
          ++ [Conv2d (name ++ ".2") cout cout 3 1 1; LeakyReLU 0.1]
          ++ [Conv2d (name ++ ".4") cout cout 3 1 1; LeakyReLU 0.1]
          ++ [Conv2d (name ++ ".6") cout cout 3 1 1; LeakyReLU 0.1]).
  rewrite Sequential_app, E1. cbn [bind].
  rewrite Sequential_app, E2. cbn [bind].
  rewrite Sequential_app, E3. cbn [bind]. exact E4.
Qed.

(** Lines 61-107: on a 3-channel image with at least one pixel the pyramid
    returns three maps of 16, 32 and 64 channels, the second and third at
    the resolution of the strided convolution ([H / 2] and [H / 4] when 4
    divides the sides); on any other channel count it raises, so a returned
    pyramid implies a 3-channel input. *)
Theorem FeatPyramid_contract (name : string) (img : Tensor) :
  (tC img = 3 -> 1 <= tH img -> 1 <= tW img ->
   exists C0 C1 C2,
     FeatPyramid_forward name img = Ok [C0; C1; C2]
     /\ has_shape C0 (tN img) 16 (tH img) (tW img)
     /\ has_shape C1 (tN img) 32 (conv_size (tH img) 3 2 1)
                                 (conv_size (tW img) 3 2 1)
     /\ has_shape C2 (tN img) 64
                  (conv_size (conv_size (tH img) 3 2 1) 3 2 1)
                  (conv_size (conv_size (tW img) 3 2 1) 3 2 1)
     /\ (tH img mod 4 = 0 -> tW img mod 4 = 0 ->
         has_shape C1 (tN img) 32 (tH img / 2) (tW img / 2)
         /\ has_shape C2 (tN img) 64 (tH img / 4) (tW img / 4)))
  /\ (tC img <> 3 -> FeatPyramid_forward name img = Raise RuntimeError)
  /\ (forall pyr, FeatPyramid_forward name img = Ok pyr ->
                  tC img = 3 /\ List.length pyr = 3%nat).
Proof.
  split; [|split].
  - intros Hc Hh Hw.
    assert (Hx : has_shape img (tN img) 3 (tH img) (tW img))
      by (now unfold has_shape).
    destruct (feat_stage_spec (name ++ ".conv_stage0") 3 16 1 img _ _ _ Hx)
      as (C0 & E0 & S0); [lia | lia | lia |].
    rewrite !conv_size_same in S0.
    destruct (feat_stage_spec (name ++ ".conv_stage1") 16 32 2 C0 _ _ _ S0)
      as (C1 & E1 & S1); [lia | lia | lia |].
    pose proof (conv_size_stride (tH img) 2 Hh ltac:(lia)) as Bh.
    pose proof (conv_size_stride (tW img) 2 Hw ltac:(lia)) as Bw.
    destruct (feat_stage_spec (name ++ ".conv_stage2") 32 64 2 C1 _ _ _ S1)
      as (C2 & E2 & S2); [lia | lia | lia |].
    exists C0, C1, C2.
    split. { unfold FeatPyramid_forward. rewrite E0. cbn [bind].
             rewrite E1. cbn [bind]. now rewrite E2. }
    split; [exact S0|]. split; [exact S1|]. split; [exact S2|].
    intros Mh Mw.
    assert (Eh : tH img mod 2 = 0)
      by (rewrite <- (Z.mod_mod_divide (tH img) 4 2) by (now exists 2);
          now rewrite Mh).
    assert (Ew : tW img mod 2 = 0)
      by (rewrite <- (Z.mod_mod_divide (tW img) 4 2) by (now exists 2);
          now rewrite Mw).
    pose proof (Z.div_mod (tH img) 4 ltac:(lia)) as Dh.
    pose proof (Z.div_mod (tW img) 4 ltac:(lia)) as Dw.
    rewrite Mh in Dh. rewrite Mw in Dw.
    assert (Qh : tH img / 2 = 2 * (tH img / 4))
      by (rewrite Dh at 1; replace (4 * (tH img / 4) + 0)
            with ((2 * (tH img / 4)) * 2) by lia; now rewrite Z.div_mul).
    assert (Qw : tW img / 2 = 2 * (tW img / 4))
      by (rewrite Dw at 1; replace (4 * (tW img / 4) + 0)
            with ((2 * (tW img / 4)) * 2) by lia; now rewrite Z.div_mul).
    rewrite (conv_size_even (tH img)), (conv_size_even (tW img)) in S1, S2
      by assumption.
    split; [exact S1|].
    rewrite (conv_size_even (tH img / 2)), (conv_size_even (tW img / 2)) in S2.
    + replace (tH img / 2 / 2) with (tH img / 4) in S2
        by (rewrite Qh, Z.mul_comm, Z.div_mul; lia).
      replace (tW img / 2 / 2) with (tW img / 4) in S2
        by (rewrite Qw, Z.mul_comm, Z.div_mul; lia).
      exact S2.
    + lia.
    + rewrite Qw, Z.mul_comm. apply Z.mod_mul. lia.
    + lia.
    + rewrite Qh, Z.mul_comm. apply Z.mod_mul. lia.
  - intros Hc. unfold FeatPyramid_forward, feat_stage, Sequential, apply_layer.
    replace (tC img =? 3) with false by (symmetry; now apply Z.eqb_neq).
    reflexivity.
  - intros pyr E. unfold FeatPyramid_forward in E.
    apply bind_ok in E as (C0 & E0 & E). apply bind_ok in E as (C1 & _ & E).
    apply bind_ok in E as (C2 & _ & E). injection E as <-.
    split; [|reflexivity].
    unfold feat_stage in E0. cbn [Sequential] in E0.
    apply bind_ok in E0 as (y & Ey & _). now apply conv2d_ok in Ey.
Qed.

(** ** get_warped_representations *)

Lemma softsplat_ok (tenInput tenFlow out : Tensor) (m : option Tensor)
      (s : string) :
  FunctionSoftsplat tenInput tenFlow m s = Ok out ->
  tC tenFlow = 2
  /\ has_shape out (tN tenInput) (tC tenInput) (tH tenInput) (tW tenInput)
  /\ tN tenFlow = tN tenInput /\ tH tenFlow = tH tenInput
  /\ tW tenFlow = tW tenInput.
Proof.
  unfold FunctionSoftsplat, same_batch_space.
  destruct (Z.eqb_spec (tC tenFlow) 2); [|discriminate].
  destruct (Z.eqb_spec (tN tenInput) (tN tenFlow)); [|discriminate].
  destruct (Z.eqb_spec (tH tenInput) (tH tenFlow)); [|discriminate].
  destruct (Z.eqb_spec (tW tenInput) (tW tenFlow)); [|discriminate].
  cbn [andb]. intros E; injection E as <-. unfold has_shape; cbn.
  repeat split; congruence.
Qed.

(** Lines 233-253: with both images absent the method returns the two warped
    context maps alone; with exactly one image absent it raises; with both
    present it returns five tensors, the last being the 4-channel flow whose
    channels 0..1 are those of [bi_flow] times [time_period] and whose
    channels 2..3 are channels 2..3 of [bi_flow] times [1 - time_period].
    It does return when the flow has at least 4 channels and every tensor
    to warp has the batch size and resolution of the flow. *)
Theorem get_warped_representations_cases
        (bi_flow c0 c1 : Tensor) (i0 i1 : option Tensor) (t : R) :
  (forall r,
      i0 = None -> i1 = None ->
      get_warped_representations bi_flow c0 c1 i0 i1 t = Ok r ->
      exists warped_c0 warped_c1,
        r = [warped_c0; warped_c1]
        /\ has_shape warped_c0 (tN c0) (tC c0) (tH c0) (tW c0)
        /\ has_shape warped_c1 (tN c1) (tC c1) (tH c1) (tW c1))
  /\ ((i0 = None /\ i1 <> None) \/ (i0 <> None /\ i1 = None) ->
      raises (get_warped_representations bi_flow c0 c1 i0 i1 t))
  /\ (forall a b r,
         i0 = Some a -> i1 = Some b ->
         get_warped_representations bi_flow c0 c1 i0 i1 t = Ok r ->
         exists wi0 wi1 wc0 wc1 flow_0t_1t,
           r = [wi0; wi1; wc0; wc1; flow_0t_1t]
           /\ has_shape wi0 (tN a) (tC a) (tH a) (tW a)
           /\ has_shape wi1 (tN b) (tC b) (tH b) (tW b)
           /\ has_shape flow_0t_1t (tN bi_flow) 4 (tH bi_flow) (tW bi_flow)
           /\ 4 <= tC bi_flow
           /\ forall i j k l,
                (0 <= j < 2 ->
                 tat flow_0t_1t i j k l = (tat bi_flow i j k l * t)%R)
                /\ (2 <= j < 4 ->
                    tat flow_0t_1t i j k l
                    = (tat bi_flow i j k l * (1 - t))%R))
  /\ (4 <= tC bi_flow ->
      same_batch_space c0 bi_flow = true ->
      same_batch_space c1 bi_flow = true ->
      (i0 = None -> i1 = None ->
       exists r, get_warped_representations bi_flow c0 c1 i0 i1 t = Ok r)
      /\ (forall a b,
             i0 = Some a -> i1 = Some b ->
             same_batch_space a bi_flow = true ->
             same_batch_space b bi_flow = true ->
             exists r,
               get_warped_representations bi_flow c0 c1 i0 i1 t = Ok r)).
Proof.
  split; [|split; [|split]].
  - intros r -> -> E. unfold get_warped_representations in E.
    apply bind_ok in E as (w0 & E0 & E). apply bind_ok in E as (w1 & E1 & E).
    injection E as <-. exists w0, w1.
    apply softsplat_ok in E0 as (_ & S0 & _).
    apply softsplat_ok in E1 as (_ & S1 & _). auto.
  - intros Hx. unfold get_warped_representations.
    apply bind_raises; intros w0. apply bind_raises; intros w1.
    destruct Hx as [[-> Hn]|[Hn ->]].
    + destruct i1 as [b|]; [|contradiction]. now exists TypeError.
    + destruct i0 as [a|]; [|contradiction].
      cbn [opt_value as_tensor bind]. apply bind_raises; intros wi0.
      now exists TypeError.
  - intros a b r -> -> E. unfold get_warped_representations in E.
    apply bind_ok in E as (w0 & E0 & E). apply bind_ok in E as (w1 & E1 & E).
    cbn [opt_value as_tensor bind] in E.
    apply bind_ok in E as (wi0 & Ei0 & E). apply bind_ok in E as (wi1 & Ei1 & E).
    apply bind_ok in E as (f & Ef & E). injection E as <-.
    exists wi0, wi1, w0, w1, f. split; [reflexivity|].
    apply softsplat_ok in Ei0 as (C0 & Si0 & _).
    apply softsplat_ok in Ei1 as (C1 & Si1 & _).
    split; [exact Si0|]. split; [exact Si1|].
    cbn [smul tmap slice_ch tC] in C0, C1.
    assert (Hc : 4 <= tC bi_flow) by lia.
    unfold torch_cat, cat_from, cat2 in Ef.
    destruct (same_batch_space _ _); [|discriminate].
    cbn [bind] in Ef. injection Ef as <-.
    split. { unfold has_shape. cbn [smul tmap slice_ch tN tC tH tW].
             repeat split; lia. }
    split; [exact Hc|].
    intros i j k l. cbn [smul tmap slice_ch tat tC].
    rewrite !Z.min_l by lia. rewrite Z.sub_0_r, Z.max_r by lia.
    split; intros Hj.
    + replace (j <? 2) with true by (symmetry; apply Z.ltb_lt; lia).
      now replace (j + 0) with j by lia.
    + replace (j <? 2) with false by (symmetry; apply Z.ltb_ge; lia).
      now replace (j - 2 + 2) with j by lia.
  - intros Hc S0 S1.
    assert (W0 : forall x, same_batch_space x bi_flow = true ->
              FunctionSoftsplat x (smul (slice_ch bi_flow 0 (Some 2)) t)
                                None "average"
              = Ok (mkTensor (tN x) (tC x) (tH x) (tW x)
                      (softsplat_out "average" None x
                         (smul (slice_ch bi_flow 0 (Some 2)) t)))).
    { intros x Sx. unfold FunctionSoftsplat.
      replace (same_batch_space x (smul (slice_ch bi_flow 0 (Some 2)) t))
        with (same_batch_space x bi_flow) by reflexivity.
      rewrite Sx. cbn [smul tmap slice_ch tC].
      replace (Z.max 0 (Z.min 2 (tC bi_flow) - Z.min 0 (tC bi_flow)) =? 2)
        with true by (symmetry; apply Z.eqb_eq; lia).
      reflexivity. }
    assert (W1 : forall x, same_batch_space x bi_flow = true ->
              FunctionSoftsplat x (smul (slice_ch bi_flow 2 (Some 4)) (1 - t))
                                None "average"
              = Ok (mkTensor (tN x) (tC x) (tH x) (tW x)
                      (softsplat_out "average" None x
                         (smul (slice_ch bi_flow 2 (Some 4)) (1 - t))))).
    { intros x Sx. unfold FunctionSoftsplat.
      replace (same_batch_space x (smul (slice_ch bi_flow 2 (Some 4)) (1 - t)))
        with (same_batch_space x bi_flow) by reflexivity.
      rewrite Sx. cbn [smul tmap slice_ch tC].
      replace (Z.max 0 (Z.min 4 (tC bi_flow) - Z.min 2 (tC bi_flow)) =? 2)
        with true by (symmetry; apply Z.eqb_eq; lia).
      reflexivity. }
    unfold get_warped_representations. rewrite (W0 c0 S0), (W1 c1 S1).
    cbn [bind]. split.
    + intros -> ->. eauto.
    + intros a b -> -> Sa Sb. cbn [opt_value as_tensor bind].
      rewrite (W0 a Sa), (W1 b Sb). cbn [bind].
      unfold torch_cat, cat_from, cat2.
      replace (same_batch_space (smul (slice_ch bi_flow 0 (Some 2)) t)
                 (smul (slice_ch bi_flow 2 (Some 4)) (1 - t)))
        with (same_batch_space bi_flow bi_flow) by reflexivity.
      unfold same_batch_space. rewrite !Z.eqb_refl. cbn [andb bind]. eauto.
Qed.

(** ** MotionEstimator: what a successful call implies *)

Lemma sequential_stage_ok (name : string) (cin cout : Z) (slope : R)
      (x y : Tensor) :
  Sequential [Conv2d name cin cout 3 1 1; LeakyReLU slope] x = Ok y ->
  tC x = cin /\ has_shape y (tN x) cout (tH x) (tW x).
Proof.
  cbn [Sequential]. intros E. apply bind_ok in E as (z & Ez & E).
  apply conv2d_ok in Ez as (Hc & ->). cbn [apply_layer bind] in E.
  injection E as <-. split; [exact Hc|].
  unfold has_shape; cbn [tmap tN tC tH tW]. rewrite !conv_size_same. auto.
Qed.

(** Lines 148-168: when the estimator returns, the prior feature and flow
    were tensors, the channel counts of its four inputs add up to
    [277 - 81 = 196], and the flow has 4 and the feature 64 channels, both
    at the batch size and resolution of [feat0]. *)
Theorem motion_estimator_returns_only_on_277
        (feat0 feat1 : Tensor) (last_feat last_flow : value)
        (flow feat : Tensor) :
  MotionEstimator_forward feat0 feat1 last_feat last_flow = Ok (flow, feat) ->
  exists lfeat lflow,
    last_feat = VTensor lfeat /\ last_flow = VTensor lflow
    /\ tC feat0 + tC feat1 + tC lfeat + tC lflow = 196
    /\ has_shape flow (tN feat0) 4 (tH feat0) (tW feat0)
    /\ has_shape feat (tN feat0) 64 (tH feat0) (tW feat0).
Proof.
  unfold MotionEstimator_forward. intros E.
  apply bind_ok in E as (x & Ex & E).
  destruct last_flow as [| |lflow|];
    try (unfold estimator_input, prewarp, subscript_ch in Ex; discriminate Ex).
  destruct last_feat as [| |lfeat|].
  1,2,4: exfalso; unfold estimator_input in Ex;
         apply bind_ok in Ex as ([w0 w1] & _ & Ex);
         apply bind_ok in Ex as (corr & _ & Ex); discriminate Ex.
  pose proof (estimator_input_channels _ _ _ _ _ Ex) as Hch.
  assert (Hsh : tN x = tN feat0 /\ tH x = tH feat0 /\ tW x = tW feat0).
  { unfold estimator_input, as_tensor in Ex.
    apply bind_ok in Ex as ([w0 w1] & Ew & Ex).
    apply bind_ok in Ex as (corr & Ec & Ex). cbn [bind] in Ex.
    unfold prewarp, subscript_ch in Ew. cbn [bind] in Ew.
    apply bind_ok in Ew as (w0' & E0 & Ew).
    apply bind_ok in Ew as (w1' & E1 & Ew). injection Ew as -> ->.
    apply softsplat_ok in E0 as (_ & (Hn & _ & Hh & Hw) & _).
    unfold FunctionCorrelation in Ec.
    destruct (_ && _)%bool; [|discriminate]. injection Ec as <-.
    unfold torch_cat, cat_from, cat2 in Ex.
    repeat (destruct (same_batch_space _ _);
            [cbn [bind tN tC tH tW] in Ex | discriminate]).
    injection Ex as <-. cbn [tmap tN tH tW]. auto. }
  destruct Hsh as (Hn & Hh & Hw).
  apply bind_ok in E as (f1 & F1 & E).
  unfold conv_layer1 in F1. cbn [Sequential] in F1.
  apply bind_ok in F1 as (z & Ez & F1). apply conv2d_ok in Ez as (Hc & ->).
  cbn [apply_layer bind] in F1. injection F1 as <-.
  apply bind_ok in E as (f2 & F2 & E). apply sequential_stage_ok in F2 as (_ & S2).
  apply bind_ok in E as (f3 & F3 & E). apply sequential_stage_ok in F3 as (_ & S3).
  apply bind_ok in E as (f4 & F4 & E). apply sequential_stage_ok in F4 as (_ & S4).
  apply bind_ok in E as (f5 & F5 & E). apply sequential_stage_ok in F5 as (_ & S5).
  apply bind_ok in E as (fl & F6 & E). injection E as <- <-.
  unfold conv_layer6 in F6. cbn [Sequential] in F6.
  apply bind_ok in F6 as (z6 & Ez6 & F6). apply conv2d_ok in Ez6 as (_ & ->).
  injection F6 as <-.
  cbn [tmap tN tC tH tW] in S2.
  destruct S2 as (A2 & _ & B2 & C2). destruct S3 as (A3 & _ & B3 & C3).
  destruct S4 as (A4 & _ & B4 & C4). destruct S5 as (A5 & D5 & B5 & C5).
  assert (P : forall s, conv_size s 1 1 0 = s)
    by (intros s; unfold conv_size; rewrite Z.div_1_r; lia).
  rewrite !P in *.
  exists lfeat, lflow. split; [reflexivity|]. split; [reflexivity|].
  split; [lia|]. split.
  - unfold has_shape; cbn [tN tC tH tW]. rewrite !conv_size_same.
    repeat split; congruence.
  - unfold has_shape. repeat split; congruence.
Qed.

(** ** forward_one_lvl as Model.forward calls it *)

(** Lines 333-336: the two pyramids are joined pairwise up to the shorter
    one ([zip]), and every joined map has the batch size and resolution of
    its two parts and the sum of their channel counts. *)
Theorem cat_pairs_zip (a b l : list Tensor) :
  cat_pairs a b = Ok l ->
  List.length l = Nat.min (List.length a) (List.length b)
  /\ forall i x y,
       nth_error a i = Some x -> nth_error b i = Some y ->
       exists z,
         nth_error l i = Some z
         /\ has_shape z (tN x) (tC x + tC y) (tH x) (tW x)
         /\ tN y = tN x /\ tH y = tH x /\ tW y = tW x.
Proof.
  revert b l. induction a as [|x a IH]; intros b l E.
  - injection E as <-. split; [reflexivity|]. intros [|i] ? ? H; discriminate H.
  - destruct b as [|y b].
    + injection E as <-. split; [reflexivity|].
      intros [|i] ? ? _ H; discriminate H.
    + cbn [cat_pairs] in E.
      apply bind_ok in E as (z & Ez & E). apply bind_ok in E as (ts & Ets & E).
      injection E as <-. apply IH in Ets as [Hlen Hnth].
      split; [cbn [List.length]; now rewrite Hlen|].
      intros [|i] x' y' Hx Hy.
      * injection Hx as <-. injection Hy as <-. exists z.
        split; [reflexivity|].
        unfold torch_cat, cat_from, cat2, same_batch_space in Ez.
        destruct (Z.eqb_spec (tN x) (tN y)); [|discriminate].
        destruct (Z.eqb_spec (tH x) (tH y)); [|discriminate].
        destruct (Z.eqb_spec (tW x) (tW y)); [|discriminate].
        cbn [andb bind] in Ez. injection Ez as <-.
        unfold has_shape; cbn [tN tC tH tW]. repeat split; congruence.
      * apply (Hnth i x' y' Hx Hy).
Qed.

(** Lines 449-452 with 320-322 and 377-379: whenever [Model.forward]
    returns, the frame it returns was produced by the synthesis network
    called on the full-resolution images with time period 0.5, whatever time
    period [Model.forward] was given: the call of line 449 leaves the
    parameter [time_period] of [forward_one_lvl] at its default. *)
Theorem frame_is_synthesised_at_half
        (self : Model) (img0 img1 : Tensor) (t : R)
        (pyr_level_arg nr_lvl_skipped_arg : option Z) (out : forward_output) :
  forward self img0 img1 t pyr_level_arg nr_lvl_skipped_arg = Ok out ->
  exists last_interp feat0_pyr feat1_pyr bi_flow_pyr extra,
    synthesis_network self
      [last_interp; VTensor img0; VTensor img1;
       VList feat0_pyr; VList feat1_pyr; VList bi_flow_pyr] 0.5
    = Ok (out_interp_img out, extra)
    /\ List.length bi_flow_pyr = 3%nat.
Proof.
  unfold forward.
  set (L := match pyr_level_arg with Some l => l | None => _ end).
  set (S := match nr_lvl_skipped_arg with Some s => s | None => _ end).
  intros E. apply bind_ok in E as ([st bf] & Er & E).
  destruct (Z.le_gt_cases L 0) as [H0|H1].
  { rewrite py_range_nonpos in Er by assumption. injection Er as <- <-.
    discriminate E. }
  destruct (rev_py_range_last L) as (upper & Eu); [lia|]. rewrite Eu in Er.
  rewrite run_levels_app in Er.
  apply bind_ok in Er as ([st1 bf1] & _ & Er). cbn [fst snd run_levels] in Er.
  apply bind_ok in Er as ([st2 bf2] & Eb & Er). injection Er as -> ->.
  unfold level_body, images_this_lvl in Eb. cbn [Z.eqb negb bind] in Eb.
  apply bind_ok in Eb as (a & Ea & Eb).
  destruct a as [|i].
  { exfalso.
    now apply (level_zero_is_run (tN img0) (tH img0) (tW img0) L S st1). }
  unfold run_level in Eb.
  apply bind_ok in Eb as ([[[flow feat] interp] extra] & Ef & Eb).
  apply bind_ok in Eb as (up & Eup & Eb). injection Eb as <- <-.
  unfold finish in E. cbn [bound bind loc_flow] in E. rewrite Eup in E.
  cbn [bind] in E. injection E as <-. cbn [out_interp_img loc_interp_img].
  unfold forward_one_lvl in Ef.
  do 6 (apply bind_ok in Ef as (? & _ & Ef)).
  apply bind_ok in Ef as ([f g] & _ & Ef).
  do 3 (apply bind_ok in Ef as (? & _ & Ef)).
  apply bind_ok in Ef as (li & _ & Ef).
  apply bind_ok in Ef as ([fr ex] & Es & Ef). injection Ef as _ _ <- <-.
  eexists _, _, _, _, _. split; [exact Es|]. reflexivity.
Qed.


(* ------------------------------------------------------------------ *)
(** ** Statements of the specification that the code does not meet *)
(* ------------------------------------------------------------------ *)

(** C3 (as the code has it). [SynthesisNetwork.forward] raises on every
    input, so the prediction of line 286 is never decoded and no frame is
    returned: line 258 passes nine positional arguments and [time_period]
    to [get_warped_representations], which takes five of them. With
    non-empty pyramids the exception is the [TypeError] of that call. *)
Theorem SynthesisNetwork_forward_raises
        (last_i_rgb i0_rgb i1_rgb last_i_depth i0_depth i1_depth : Tensor)
        (c0_pyr_rgb c1_pyr_rgb c0_pyr_depth c1_pyr_depth bi_flow_pyr
         : list Tensor)
        (t : R) (cross_att : option Tensor) :
  raises (SynthesisNetwork_forward last_i_rgb i0_rgb i1_rgb
            last_i_depth i0_depth i1_depth
            c0_pyr_rgb c1_pyr_rgb c0_pyr_depth c1_pyr_depth bi_flow_pyr
            t cross_att)
  /\ (bi_flow_pyr <> [] -> c0_pyr_rgb <> [] -> c1_pyr_rgb <> [] ->
      c0_pyr_depth <> [] -> c1_pyr_depth <> [] ->
      SynthesisNetwork_forward last_i_rgb i0_rgb i1_rgb
        last_i_depth i0_depth i1_depth
        c0_pyr_rgb c1_pyr_rgb c0_pyr_depth c1_pyr_depth bi_flow_pyr
        t cross_att
      = Raise TypeError).
Proof.
  split.
  - unfold SynthesisNetwork_forward.
    do 5 (apply bind_raises; intros ?).
    apply raises_bind. now exists TypeError.
  - intros H1 H2 H3 H4 H5. unfold SynthesisNetwork_forward.
    destruct bi_flow_pyr as [|f0 ?]; [contradiction|].
    destruct c0_pyr_rgb as [|a0 ?]; [contradiction|].
    destruct c1_pyr_rgb as [|a1 ?]; [contradiction|].
    destruct c0_pyr_depth as [|b0 ?]; [contradiction|].
    destruct c1_pyr_depth as [|b1 ?]; [contradiction|].
    reflexivity.
Qed.

Lemma feat_stage_channels (name : string) (cin cout s : Z) (x y : Tensor) :
  Sequential (feat_stage name cin cout s) x = Ok y -> tC y = cout.
Proof.
  unfold feat_stage. cbn [Sequential]. intros E.
  do 6 (apply bind_ok in E as (? & _ & E)).
  apply bind_ok in E as (z & Ez & E).
  apply conv2d_ok in Ez as (_ & ->). cbn [apply_layer bind] in E.
  now injection E as <-.
Qed.

Lemma FeatPyramid_channels (name : string) (img : Tensor) (pyr : list Tensor) :
  FeatPyramid_forward name img = Ok pyr ->
  exists C0 C1 C2,
    pyr = [C0; C1; C2] /\ tC C0 = 16 /\ tC C1 = 32 /\ tC C2 = 64.
Proof.
  unfold FeatPyramid_forward. intros E.
  apply bind_ok in E as (C0 & E0 & E). apply bind_ok in E as (C1 & E1 & E).
  apply bind_ok in E as (C2 & E2 & E). injection E as <-.
  exists C0, C1, C2. split; [reflexivity|].
  split; [|split]; eapply feat_stage_channels; eassumption.
Qed.

Lemma cat_pairs_three (a0 a1 a2 b0 b1 b2 : Tensor) (l : list Tensor) :
  cat_pairs [a0; a1; a2] [b0; b1; b2] = Ok l ->
  exists x0 x1 x2,
    l = [x0; x1; x2] /\ tC x2 = tC a2 + tC b2.
Proof.
  cbn [cat_pairs torch_cat cat_from]. unfold cat2.
  destruct (same_batch_space a0 b0); [|discriminate].
  destruct (same_batch_space a1 b1); [|discriminate].
  destruct (same_batch_space a2 b2); [|discriminate].
  cbn [bind]. intros E. injection E as <-. eauto.
Qed.

(** C2 (as the code has it). Lines 325-342: the feature maps that
    [forward_one_lvl] hands to the motion estimator are the last maps of
    the joined colour and depth pyramids, of 64 + 64 = 128 channels each.
    The concatenation of line 160 then has 81 + 128 + 128 channels and
    those of the prior state, not the 277 that [conv_layer1] takes and that
    the comment of line 123 counts with 64 * 2, and the estimator raises
    for every prior state. *)
Theorem motion_estimator_call_raises
        (pl ns : option Z)
        (img0_rgb img1_rgb img0_depth img1_depth : Tensor)
        (feat0_pyr_rgb feat1_pyr_rgb feat0_pyr_depth feat1_pyr_depth
         feat0_pyr feat1_pyr : list Tensor) :
  feat_pyramid_rgb (Model_init pl ns) img0_rgb = Ok feat0_pyr_rgb ->
  feat_pyramid_rgb (Model_init pl ns) img1_rgb = Ok feat1_pyr_rgb ->
  feat_pyramid_depth (Model_init pl ns) img0_depth = Ok feat0_pyr_depth ->
  feat_pyramid_depth (Model_init pl ns) img1_depth = Ok feat1_pyr_depth ->
  cat_pairs feat0_pyr_rgb feat0_pyr_depth = Ok feat0_pyr ->
  cat_pairs feat1_pyr_rgb feat1_pyr_depth = Ok feat1_pyr ->
  exists f0 f1,
    py_last feat0_pyr = Ok f0 /\ py_last feat1_pyr = Ok f1
    /\ tC f0 = 128 /\ tC f1 = 128
    /\ (forall lfeat lflow x,
           estimator_input f0 f1 (VTensor lfeat) (VTensor lflow) = Ok x ->
           tC x = 81 + 128 + 128 + tC lfeat + tC lflow)
    /\ forall lfeat lflow,
         0 <= tC lfeat -> 0 <= tC lflow ->
         raises (motion_estimator (Model_init pl ns) f0 f1
                   (VTensor lfeat) (VTensor lflow)).
Proof.
  cbn [Model_init feat_pyramid_rgb feat_pyramid_depth motion_estimator].
  intros P0 P1 Q0 Q1 E0 E1.
  apply FeatPyramid_channels in P0 as (a0 & a1 & a2 & -> & _ & _ & Ha).
  apply FeatPyramid_channels in P1 as (b0 & b1 & b2 & -> & _ & _ & Hb).
  apply FeatPyramid_channels in Q0 as (c0 & c1 & c2 & -> & _ & _ & Hc).
  apply FeatPyramid_channels in Q1 as (d0 & d1 & d2 & -> & _ & _ & Hd).
  apply cat_pairs_three in E0 as (x0 & x1 & f0 & -> & Hf0).
  apply cat_pairs_three in E1 as (y0 & y1 & f1 & -> & Hf1).
  rewrite Ha, Hc in Hf0. rewrite Hb, Hd in Hf1.
  exists f0, f1. split; [reflexivity|]. split; [reflexivity|].
  split; [exact Hf0|]. split; [exact Hf1|]. split.
  - intros lfeat lflow x E. apply estimator_input_channels in E. lia.
  - intros lfeat lflow Hlf Hlw. unfold MotionEstimator_forward.
    destruct (estimator_input f0 f1 (VTensor lfeat) (VTensor lflow))
      as [x|e] eqn:E; [|now exists e].
    apply estimator_input_channels in E. cbn [bind]. apply raises_bind.
    unfold conv_layer1, Sequential, apply_layer.
    replace (tC x =? 277) with false by (symmetry; apply Z.eqb_neq; lia).
    now exists RuntimeError.
Qed.

(** C5 (as the code has it). In a run of at least two levels with skipped
    levels, level 0 raises for every model, so frame synthesis does not run
    there: the level is prepared with [skip_me = True], and with it
    [forward_one_lvl] takes as flow the float that the call of line 449
    binds to [last_flow], which line 349 cannot interpolate. In a run of
    one level, level 0 is the coarsest level: the branch of line 412 is
    taken before that of line 424 and the level is run with
    [skip_me = False], so with motion estimation. *)
Theorem final_level_with_skips_does_not_synthesise :
  (forall (self : Model) (img0 img1 : Tensor) (t : R) (L S : Z)
          (st : option locals) (bi_flows : list Tensor),
      2 <= L -> 1 <= S ->
      raises (level_body self img0 img1 t L (skipped_levels L S)
                         st bi_flows 0))
  /\ (forall (self : Model) (i0 i1 : Tensor) (t : R)
             (i : level_inputs) (bi_flows : list Tensor),
         run_skip_me i = true ->
         raises (run_level self i0 i1 t i bi_flows))
  /\ (forall (N H W S : Z) (st : option locals),
         prepare N H W 1 (skipped_levels 1 S) st 0
         = Ok (Run (mkRun (torch_zeros N 4 (H / 4) (W / 4))
                          (torch_zeros N 64 (H / 4) (W / 4))
                          None false))).
Proof.
  split; [|split].
  - intros self img0 img1 t L S st bf HL HS.
    apply skipped_level_zero_raises; lia.
  - intros self i0 i1 t [lf lg li sk] bf Hs. cbn in Hs. subst sk.
    apply skip_me_level_fails.
  - intros N H W S st. reflexivity.
Qed.

Lemma images_downsampled (img0 img1 i0 i1 : Tensor) (level : Z) :
  images_this_lvl img0 img1 level = Ok (i0, i1) ->
  downsampled img0 level = Ok i0 /\ downsampled img1 level = Ok i1.
Proof.
  unfold images_this_lvl, downsampled.
  destruct (level =? 0); cbn [negb].
  - intros E. injection E as <- <-. auto.
  - intros E. apply bind_ok in E as (a & Ea & E).
    apply bind_ok in E as (b & Eb & E). injection E as <- <-. auto.
Qed.

Lemma run_level_call (self : Model) (i0 i1 : Tensor) (t : R)
      (state : RefinementState) (bf : list Tensor)
      (st' : option locals) (bf' : list Tensor) :
  run_level self i0 i1 t
    (mkRun (state_flow state) (state_feat state) (state_interp state) false) bf
  = Ok (st', bf') ->
  exists flow feat frame full,
    level_call self i0 i1 state t = Ok (flow, feat, frame)
    /\ F_interpolate flow 4 = Ok full
    /\ st' = Some (mkLocals (state_flow state) (state_feat state)
                            (state_interp state)
                            (VTensor flow) (VTensor feat) frame)
    /\ bf' = bf ++ [full].
Proof.
  unfold run_level, level_call.
  cbn [run_last_flow run_last_feat run_last_interp run_skip_me].
  intros E. apply bind_ok in E as ([[[fv gv] frame] extra] & Ef & E).
  rewrite Ef. cbn [bind].
  assert (Hv : exists flow feat, fv = VTensor flow /\ gv = VTensor feat).
  { unfold forward_one_lvl in Ef.
    do 6 (apply bind_ok in Ef as (? & _ & Ef)).
    apply bind_ok in Ef as ([fv' gv'] & Em & Ef).
    do 4 (apply bind_ok in Ef as (? & _ & Ef)).
    apply bind_ok in Ef as ([? ?] & _ & Ef). injection Ef as <- <- _ _.
    cbn [negb] in Em.
    apply bind_ok in Em as (? & _ & Em). apply bind_ok in Em as (? & _ & Em).
    apply bind_ok in Em as ([flow feat] & _ & Em). injection Em as <- <-.
    eauto. }
  destruct Hv as (flow & feat & -> & ->).
  apply bind_ok in E as (full & Eu & E). injection E as <- <-.
  cbn [as_tensor bind]. exists flow, feat, frame, full. auto.
Qed.

Lemma prepare_transition (N H W L level : Z) (a b : Tensor)
      (c : option Tensor) (flow feat frame : Tensor) (i : level_inputs) :
  level <> L - 1 ->
  prepare N H W L []
          (Some (mkLocals a b c (VTensor flow) (VTensor feat) frame)) level
  = Ok (Run i) ->
  exists state,
    normal_transition flow feat frame = Ok state
    /\ i = mkRun (state_flow state) (state_feat state) (state_interp state)
                 false.
Proof.
  intros Hl. unfold prepare, normal_transition.
  replace (level =? L - 1) with false by (symmetry; now apply Z.eqb_neq).
  cbn [removelast py_in existsb py_len List.length Z.of_nat Z.ltb Z.compare
       andb bound bind loc_flow loc_feat loc_interp_img F_interpolate_v].
  rewrite andb_false_r.
  intros E. apply bind_ok in E as (f & Ef & E). rewrite Ef. cbn [bind].
  apply bind_ok in E as (g & Eg & E). rewrite Eg. cbn [bind].
  apply bind_ok in E as (k & Ek & E). rewrite Ek. cbn [bind].
  injection E as <-. eexists. split; reflexivity.
Qed.

Lemma run_levels_plain (self : Model) (img0 img1 : Tensor) (t : R) (L : Z)
      (rest : list Z) :
  forall (level : Z) (st : option locals) (bf : list Tensor)
         (state : RefinementState) (frames : list Tensor)
         (st' : option locals) (bf' : list Tensor),
    (forall l, In l rest -> l <> L - 1) ->
    prepare (tN img0) (tH img0) (tW img0) L [] st level
    = Ok (Run (mkRun (state_flow state) (state_feat state)
                     (state_interp state) false)) ->
    run_levels self img0 img1 t L [] (level :: rest) st bf = Ok (st', bf') ->
    exists ref s flow,
      plain_levels (level_call self) img0 img1 t level rest state frames bf
      = Ok ref
      /\ st' = Some s /\ loc_flow s = VTensor flow
      /\ F_interpolate flow 4 = Ok (pyr_flow ref)
      /\ loc_interp_img s = pyr_frame ref
      /\ bf' = pyr_flows ref
      /\ List.length (pyr_frames ref)
         = (List.length frames + S (List.length rest))%nat.
Proof.
  induction rest as [|next rest IH];
    intros level st bf state frames st' bf' Hrest Hp E.
  - cbn [run_levels] in E. apply bind_ok in E as ([st1 bf1] & Eb & E).
    injection E as <- <-. unfold level_body in Eb.
    apply bind_ok in Eb as ([i0 i1] & Ei & Eb).
    rewrite Hp in Eb. cbn [bind] in Eb.
    apply images_downsampled in Ei as (D0 & D1).
    apply run_level_call in Eb as (flow & feat & frame & full & Ec & Eu & -> & ->).
    cbn [plain_levels]. rewrite D0, D1. cbn [bind]. rewrite Ec. cbn [bind].
    rewrite Eu. cbn [bind].
    eexists _, _, flow. split; [reflexivity|]. cbn.
    repeat split; try reflexivity; try assumption.
    rewrite length_app. cbn. lia.
  - cbn [run_levels] in E. apply bind_ok in E as ([st1 bf1] & Eb & E).
    unfold level_body in Eb.
    apply bind_ok in Eb as ([i0 i1] & Ei & Eb).
    rewrite Hp in Eb. cbn [bind] in Eb.
    apply images_downsampled in Ei as (D0 & D1).
    apply run_level_call in Eb as (flow & feat & frame & full & Ec & Eu & -> & ->).
    assert (En : exists i,
               prepare (tN img0) (tH img0) (tW img0) L []
                 (Some (mkLocals (state_flow state) (state_feat state)
                          (state_interp state) (VTensor flow) (VTensor feat)
                          frame)) next = Ok (Run i)).
    { cbn [run_levels] in E. apply bind_ok in E as ([st2 bf2] & Eb2 & _).
      unfold level_body in Eb2.
      apply bind_ok in Eb2 as ([j0 j1] & _ & Eb2).
      apply bind_ok in Eb2 as (a & Ea & Eb2).
      destruct a as [|i]; [|eauto].
      exfalso. apply prepare_processed in Ea. cbn in Ea.
      unfold processed in Ea. cbn [removelast py_in existsb negb] in Ea.
      now rewrite orb_true_r in Ea. }
    destruct En as (i & En).
    destruct (prepare_transition _ _ _ _ _ _ _ _ _ _ _ _
                (Hrest next (or_introl eq_refl)) En) as (state' & Et & ->).
    destruct (IH next _ _ state' (frames ++ [frame]) st' bf'
                (fun l Hl => Hrest l (or_intror Hl)) En E)
      as (ref & s & flow' & Ep & Es & Ef & Eu' & Ei' & Ebf & Elen).
    cbn [plain_levels]. rewrite D0, D1. cbn [bind]. rewrite Ec. cbn [bind].
    rewrite Eu. cbn [bind]. rewrite Et. cbn [bind].
    exists ref, s, flow'. split; [exact Ep|].
    repeat split; try assumption.
    rewrite Elen, length_app. cbn. lia.
Qed.

(** C9 (as the code has it). With [nr_lvl_skipped = 0] the skip logic does
    what section 4.5 says: the skip set is empty and every level that is
    prepared has [skip_me = False]. The run itself is not that of the
    pyramid of section 4.5. For the model that [Model.__init__] builds the
    coarsest level raises, so no level is completed and nothing is
    returned. For a model whose sub-modules accept the calls, a run that
    returns has the frame, the flow and the list of flows of the plain
    pyramid over the call of line 449, which holds one frame for each of
    the [pyr_level] levels, while [interp_imgs] holds the last frame
    alone. *)
Theorem zero_skipped_and_plain_pyramid :
  (forall L, skipped_levels L 0 = [])
  /\ (forall N H W L st level i,
         prepare N H W L (skipped_levels L 0) st level = Ok (Run i) ->
         run_skip_me i = false)
  /\ (forall (pl ns : option Z) (img0 img1 : Tensor) (t : R) (L : Z)
             (st : option locals) (bi_flows : list Tensor),
         raises (level_body (Model_init pl ns) img0 img1 t L
                            (skipped_levels L 0) st bi_flows (L - 1)))
  /\ (forall (self : Model) (img0 img1 : Tensor) (t : R) (L : Z)
             (out : forward_output),
         forward self img0 img1 t (Some L) (Some 0) = Ok out ->
         exists ref,
           plain_pyramid (level_call self) img0 img1 t L = Ok ref
           /\ out_interp_img out = pyr_frame ref
           /\ out_bi_flow out = pyr_flow ref
           /\ out_bi_flows out = pyr_flows ref
           /\ Z.of_nat (List.length (pyr_frames ref)) = L
           /\ out_interp_imgs out = [pyr_frame ref]).
Proof.
  split; [reflexivity|]. split; [|split].
  - intros N H W L st level i. change (skipped_levels L 0) with (@nil Z).
    unfold prepare. destruct (level =? L - 1).
    + intros E. now injection E as <-.
    + cbn [removelast py_in existsb py_len List.length Z.of_nat Z.ltb
           Z.compare]. rewrite andb_false_r.
      intros E. apply bind_ok in E as (s & _ & E).
      apply bind_ok in E as (f & _ & E). apply bind_ok in E as (g & _ & E).
      apply bind_ok in E as (k & _ & E). now injection E as <-.
  - intros pl ns img0 img1 t L st bf. unfold level_body.
    apply bind_raises; intros [i0 i1].
    unfold prepare. rewrite Z.eqb_refl. cbn [bind].
    unfold run_level. apply raises_bind, forward_one_lvl_raises.
  - intros self img0 img1 t L out. unfold forward.
    change (skipped_levels L 0) with (@nil Z).
    intros E. apply bind_ok in E as ([st bf] & Er & E).
    destruct (Z.le_gt_cases L 0) as [H0|H1].
    { rewrite py_range_nonpos in Er by assumption. injection Er as <- <-.
      discriminate E. }
    unfold plain_pyramid. rewrite rev_py_range_succ in * by lia.
    assert (Hrest : forall l, In l (rev (py_range (L - 1))) -> l <> L - 1).
    { intros l Hl. apply in_rev, in_py_range in Hl. lia. }
    assert (Hp : prepare (tN img0) (tH img0) (tW img0) L [] None (L - 1)
                 = Ok (Run (mkRun
                        (state_flow (initial_state (tN img0) (tH img0)
                                                   (tW img0) L))
                        (state_feat (initial_state (tN img0) (tH img0)
                                                   (tW img0) L))
                        (state_interp (initial_state (tN img0) (tH img0)
                                                     (tW img0) L))
                        false))).
    { unfold prepare, initial_state. rewrite Z.eqb_refl.
      cbn [state_flow state_feat state_interp].
      now replace (L - 1 + 2) with (L + 1) by lia. }
    destruct (run_levels_plain self img0 img1 t L _ _ _ _ _ [] _ _ Hrest Hp Er)
      as (ref & s & flow & Ep & -> & Ef & Eu & Ei & Ebf & Elen).
    exists ref. split; [exact Ep|].
    unfold finish in E. cbn [bound bind] in E. rewrite Ef in E.
    cbn [F_interpolate_v] in E. rewrite Eu in E. cbn [bind] in E.
    injection E as <-. cbn.
    repeat split; try assumption; try (now rewrite Ei).
    rewrite Elen, length_rev. cbn [List.length Nat.add].
    fold (py_len (py_range (L - 1))).
    pose proof (py_range_length (L - 1)) as Hlen. unfold py_len in *. lia.
Qed.


(* ------------------------------------------------------------------ *)
(** ** SelfAttention *)
(* ------------------------------------------------------------------ *)

Lemma lsum_ext (f g : Z -> R) (l : list Z) :
  (forall x, In x l -> f x = g x) ->
  fold_right Rplus 0%R (map f l) = fold_right Rplus 0%R (map g l).
Proof.
  induction l as [|a l IH]; intros H; [reflexivity|].
  simpl. rewrite (H a), IH; auto with datatypes.
Qed.

Lemma lsum_scal (f : Z -> R) (c : R) (l : list Z) :
  fold_right Rplus 0%R (map (fun x => (f x * c)%R) l)
  = (fold_right Rplus 0%R (map f l) * c)%R.
Proof.
  induction l as [|a l IH]; simpl; [ring|]. rewrite IH. ring.
Qed.

Lemma lsum_le (f g : Z -> R) (l : list Z) :
  (forall x, In x l -> (f x <= g x)%R) ->
  (fold_right Rplus 0%R (map f l) <= fold_right Rplus 0%R (map g l))%R.
Proof.
  induction l as [|a l IH]; intros H; simpl; [lra|].
  pose proof (H a (or_introl eq_refl)).
  assert (forall x, In x l -> (f x <= g x)%R) by auto with datatypes.
  specialize (IH H1). lra.
Qed.

Lemma lsum_pos (f : Z -> R) (l : list Z) :
  l <> [] -> (forall x, In x l -> (0 < f x)%R) ->
  (0 < fold_right Rplus 0%R (map f l))%R.
Proof.
  induction l as [|a l IH]; intros Hne H; [congruence|].
  simpl. pose proof (H a (or_introl eq_refl)).
  destruct l as [|b l]; [simpl; lra|].
  assert (0 < fold_right Rplus 0 (map f (b :: l)))%R.
  { apply IH; [congruence|]. intros x Hx. apply H. now right. }
  lra.
Qed.

Lemma rsum_ext (n : Z) (f g : Z -> R) :
  (forall k, 0 <= k < n -> f k = g k) -> Attention.rsum n f = Attention.rsum n g.
Proof.
  intros H. apply lsum_ext. intros x Hx. apply H. now apply in_py_range.
Qed.

Lemma rsum_scal (n : Z) (f : Z -> R) (c : R) :
  Attention.rsum n (fun k => (f k * c)%R) = (Attention.rsum n f * c)%R.
Proof. apply lsum_scal. Qed.

Lemma rsum_le (n : Z) (f g : Z -> R) :
  (forall k, 0 <= k < n -> (f k <= g k)%R) ->
  (Attention.rsum n f <= Attention.rsum n g)%R.
Proof.
  intros H. apply lsum_le. intros x Hx. apply H. now apply in_py_range.
Qed.

Lemma rsum_pos (n : Z) (f : Z -> R) :
  1 <= n -> (forall k, 0 <= k < n -> (0 < f k)%R) -> (0 < Attention.rsum n f)%R.
Proof.
  intros Hn H. apply lsum_pos.
  - intros E. pose proof (py_range_length n) as L. rewrite E in L.
    unfold py_len in L. simpl in L. lia.
  - intros x Hx. apply H. now apply in_py_range.
Qed.

Lemma rsum_empty (n : Z) (f : Z -> R) : n <= 0 -> Attention.rsum n f = 0%R.
Proof. intros H. unfold Attention.rsum. now rewrite py_range_nonpos. Qed.

Lemma rsum_zero (n : Z) (f : Z -> R) :
  (forall k, 0 <= k < n -> f k = 0%R) -> Attention.rsum n f = 0%R.
Proof.
  intros H. rewrite (rsum_ext n f (fun _ => 0%R) H).
  unfold Attention.rsum. induction (py_range n); simpl; [reflexivity|].
  rewrite IHl. ring.
Qed.

Lemma init_built (e h : Z) (w : Attention.weights)
      (self : Attention.SelfAttention) :
  Attention.init e h w = inr self ->
  self = Attention.mkSelfAttention e h (e / h) w
  /\ h <> 0 /\ e / h * h = e
  /\ 0 <= e / h /\ 0 <= e < 2 ^ 63 /\ e * e < 2 ^ 63.
Proof.
  unfold Attention.init. intros H.
  destruct (Z.eqb_spec h 0) as [|Hz]; [discriminate|].
  destruct (Z.eqb_spec (e / h * h) e) as [E|]; [|discriminate].
  cbn [negb] in H.
  destruct (linear_allocated (e / h) (e / h)) eqn:A1; [|discriminate].
  destruct (linear_allocated (h * (e / h)) e) eqn:A2; [|discriminate].
  cbn [andb negb] in H. injection H as <-.
  apply linear_allocated_int64 in A1 as (B1 & _ & _).
  apply linear_allocated_int64 in A2 as (_ & B2 & B3).
  replace (h * (e / h)) with e in B3 by lia.
  repeat split; try assumption; lia.
Qed.

(** Lines 16-25: what the constructor does for every pair of integers.
    [heads = 0] fails in the division; a number of heads that does not
    divide [embed_size] fails the assertion; a positive number of heads
    that divides an [embed_size] of at most 64 builds the module; a module
    that is built has [heads * head_dim = embed_size], no negative size and
    an output weight of fewer than 2^63 elements, so that no module is
    built for a negative [embed_size] or one of 2^32 and more. *)
Theorem SelfAttention_init_cases (e h : Z) (w : Attention.weights) :
  (h = 0 -> Attention.init e h w = inl Attention.ZeroDivision)
  /\ (h <> 0 -> e mod h <> 0 ->
      Attention.init e h w = inl Attention.AssertionFailed)
  /\ (0 < h -> 0 <= e <= 64 -> e mod h = 0 ->
      Attention.init e h w = inr (Attention.mkSelfAttention e h (e / h) w))
  /\ (forall self, Attention.init e h w = inr self ->
      Attention.embed_size self = e /\ Attention.heads self = h
      /\ h <> 0 /\ e mod h = 0
      /\ Attention.heads self * Attention.head_dim self = e
      /\ 0 <= Attention.head_dim self /\ 0 <= e /\ e * e < 2 ^ 63)
  /\ (e < 0 \/ 2 ^ 32 <= e ->
      forall self, Attention.init e h w <> inr self).
Proof.
  split; [|split; [|split; [|split]]].
  - intros ->. reflexivity.
  - intros Hh Hm. unfold Attention.init.
    destruct (Z.eqb_spec h 0) as [|_]; [contradiction|].
    destruct (Z.eqb_spec (e / h * h) e) as [E|_]; [|reflexivity].
    exfalso. apply Hm. rewrite <- E. now apply Z.mod_mul.
  - intros Hh He Hm. unfold Attention.init.
    destruct (Z.eqb_spec h 0) as [|_]; [lia|].
    pose proof (Z.div_mod e h ltac:(lia)) as D. rewrite Hm in D.
    destruct (Z.eqb_spec (e / h * h) e) as [_|N]; [|lia]. cbn [negb].
    assert (0 <= e / h <= 64).
    { split; [apply Z.div_pos; lia|].
      apply Z.div_le_upper_bound; nia. }
    rewrite !linear_allocated_small by lia. reflexivity.
  - intros self H.
    apply init_built in H as (-> & Hz & E & Hd & He & Hee). cbn.
    repeat split; try assumption; try lia.
    rewrite <- E. now apply Z.mod_mul.
  - intros Hbad self H.
    apply init_built in H as (_ & _ & _ & _ & He & Hee).
    destruct Hbad as [Hn|Hb]; [lia|].
    assert (2 ^ 32 * 2 ^ 32 <= e * e) by nia.
    change (2 ^ 32 * 2 ^ 32) with (2 ^ 64) in *.
    assert (2 ^ 63 < 2 ^ 64) by reflexivity. lia.
Qed.

Lemma reshape_ok (x : Attention.Tensor3) (n l h d : Z) (y : Tensor) :
  Attention.reshape x n l h d = Ok y ->
  has_shape y n l h d
  /\ Attention.d0 x * Attention.d1 x * Attention.d2 x = n * l * h * d.
Proof.
  unfold Attention.reshape. destruct (_ || _); [discriminate|].
  destruct (Z.eqb_spec (Attention.d0 x * Attention.d1 x * Attention.d2 x)
                       (n * l * h * d)); [|discriminate].
  cbn [negb]. intros [= <-]. now repeat split.
Qed.

Lemma linear_ok (W : Z -> Z -> R) (i o : Z) (x y : Tensor) :
  Attention.linear W i o x = Ok y ->
  tW x = i
  /\ y = mkTensor (tN x) (tC x) (tH x) o (fun a b c k =>
           Attention.rsum i (fun m => (tat x a b c m * W k m)%R)).
Proof.
  unfold Attention.linear. destruct (Z.eqb_spec (tW x) i); [|discriminate].
  intros [= <-]. now split.
Qed.

(** What lines 28-40 hand to line 42: the weights are the softmax of the
    scaled energies and have one entry per row of [prev_frame]. *)
Lemma attention_weights_ok (self : Attention.SelfAttention)
      (prev_frame next_frame : Attention.Tensor3) (att values : Tensor) :
  Attention.attention_weights self prev_frame next_frame = Ok (att, values) ->
  exists query keys,
    att = Attention.softmax (Attention.energy query keys)
                            (sqrt (IZR (Attention.embed_size self)))
    /\ has_shape keys (Attention.d0 prev_frame) (Attention.d1 prev_frame)
                 (Attention.heads self) (Attention.head_dim self)
    /\ has_shape values (Attention.d0 prev_frame) (Attention.d1 prev_frame)
                 (Attention.heads self) (Attention.head_dim self)
    /\ has_shape query (Attention.d0 prev_frame) (Attention.d1 next_frame)
                 (Attention.heads self) (Attention.head_dim self)
    /\ Attention.d0 prev_frame * Attention.d1 prev_frame
       * Attention.d2 prev_frame
       = Attention.d0 prev_frame * Attention.d1 prev_frame
         * Attention.heads self * Attention.head_dim self
    /\ Attention.d0 next_frame * Attention.d1 next_frame
       * Attention.d2 next_frame
       = Attention.d0 prev_frame * Attention.d1 next_frame
         * Attention.heads self * Attention.head_dim self.
Proof.
  unfold Attention.attention_weights. intros H.
  apply bind_ok in H as (v0 & Ev0 & H).
  apply bind_ok in H as (q0 & Eq0 & H).
  apply bind_ok in H as (v & Ev & H).
  apply bind_ok in H as (k & Ek & H).
  apply bind_ok in H as (q & Eq & H).
  injection H as <- <-.
  apply reshape_ok in Ev0 as ((? & ? & ? & ?) & ?).
  apply reshape_ok in Eq0 as ((? & ? & ? & ?) & ?).
  apply linear_ok in Ev as (_ & ->), Ek as (_ & ->), Eq as (_ & ->).
  exists (mkTensor (tN q0) (tC q0) (tH q0) (Attention.head_dim self)
            (fun a b c k =>
               Attention.rsum (Attention.head_dim self) (fun m =>
                 (tat q0 a b c m
                  * Attention.W_queries (Attention.params self) k m)%R))),
         (mkTensor (tN v0) (tC v0) (tH v0) (Attention.head_dim self)
            (fun a b c k =>
               Attention.rsum (Attention.head_dim self) (fun m =>
                 (tat v0 a b c m
                  * Attention.W_keys (Attention.params self) k m)%R))).
  unfold has_shape. cbn. repeat split; congruence.
Qed.

Lemma lsum_nonneg (f : Z -> R) (l : list Z) :
  (forall x, In x l -> (0 <= f x)%R) ->
  (0 <= fold_right Rplus 0%R (map f l))%R.
Proof.
  induction l as [|a l IH]; intros H; simpl; [lra|].
  pose proof (H a (or_introl eq_refl)).
  assert (0 <= fold_right Rplus 0 (map f l))%R
    by (apply IH; auto with datatypes).
  lra.
Qed.

Lemma lsum_ge_term (f : Z -> R) (l : list Z) (k : Z) :
  (forall x, In x l -> (0 <= f x)%R) -> In k l ->
  (f k <= fold_right Rplus 0%R (map f l))%R.
Proof.
  induction l as [|a l IH]; intros H Hk; [contradiction|].
  simpl. pose proof (H a (or_introl eq_refl)).
  assert (0 <= fold_right Rplus 0 (map f l))%R
    by (apply lsum_nonneg; auto with datatypes).
  destruct Hk as [->|Hk]; [lra|].
  assert (f k <= fold_right Rplus 0 (map f l))%R
    by (apply IH; auto with datatypes).
  lra.
Qed.

Lemma rsum_ge_term (n : Z) (f : Z -> R) (k : Z) :
  (forall j, 0 <= j < n -> (0 <= f j)%R) -> 0 <= k < n ->
  (f k <= Attention.rsum n f)%R.
Proof.
  intros H Hk. apply lsum_ge_term.
  - intros x Hx. apply H. now apply in_py_range.
  - now apply in_py_range.
Qed.

Lemma lmax_ge (f : Z -> R) (d : R) (l : list Z) (k : Z) :
  In k l -> (f k <= fold_right Rmax d (map f l))%R.
Proof.
  induction l as [|a l IH]; intros Hk; [contradiction|]. simpl.
  destruct Hk as [->|Hk]; [apply Rmax_l|].
  eapply Rle_trans; [apply IH, Hk | apply Rmax_r].
Qed.

Lemma lmax_attained (f : Z -> R) (d : R) (l : list Z) :
  fold_right Rmax d (map f l) = d
  \/ exists k, In k l /\ fold_right Rmax d (map f l) = f k.
Proof.
  induction l as [|a l IH]; [now left|]. simpl.
  destruct (Rmax_case (f a) (fold_right Rmax d (map f l))
              (fun r => r = f a \/ r = fold_right Rmax d (map f l)))
    as [E|E]; [now left | now right | |].
  - right. exists a. auto.
  - rewrite E. destruct IH as [IH|(k & Hk & IH)]; [now left|].
    right. exists k. auto.
Qed.

Lemma rmax_ge (n : Z) (f : Z -> R) (k : Z) :
  0 <= k < n -> (f k <= Attention.rmax n f)%R.
Proof. intros Hk. apply lmax_ge. now apply in_py_range. Qed.

Lemma rmax_attained (n : Z) (f : Z -> R) :
  1 <= n -> exists k, 0 <= k < n /\ Attention.rmax n f = f k.
Proof.
  intros Hn. unfold Attention.rmax.
  destruct (lmax_attained f (f 0) (py_range n)) as [E|(k & Hk & E)].
  - exists 0. split; [lia | exact E].
  - exists k. split; [now apply in_py_range | exact E].
Qed.

(** Line 40 alone: a softmax over a non-empty last dimension is never
    negative, at most 1, and sums to 1 there; an entry that is 104 or more
    below another one of its row, after scaling, has weight exactly 0. *)
Lemma softmax_distribution (e : Tensor) (scale : R) (n h q : Z) :
  1 <= tW e ->
  (forall k, (0 <= tat (Attention.softmax e scale) n h q k)%R)
  /\ (forall k, 0 <= k < tW e ->
                (tat (Attention.softmax e scale) n h q k <= 1)%R)
  /\ Attention.rsum (tW e) (tat (Attention.softmax e scale) n h q) = 1%R
  /\ (forall k j, 0 <= j < tW e ->
                  (tat e n h q k / scale <= tat e n h q j / scale - 104)%R ->
                  tat (Attention.softmax e scale) n h q k = 0%R).
Proof.
  intros HL. cbn.
  set (x := fun j => (tat e n h q j / scale)%R).
  set (m := Attention.rmax (tW e) x).
  set (a := fun k => torch_exp (x k - m)).
  assert (Ha : forall k, (0 <= a k)%R) by (intros k; apply torch_exp_nonneg).
  assert (HS : (1 <= Attention.rsum (tW e) a)%R).
  { destruct (rmax_attained (tW e) x HL) as (j & Hj & Ej).
    apply Rle_trans with (a j); [|apply rsum_ge_term; auto].
    unfold a. fold m in Ej. rewrite Ej, Rminus_diag. rewrite torch_exp_0. lra. }
  change (fun j => torch_exp (x j - m)) with a.
  split; [|split; [|split]].
  - intros k. change (0 <= a k / Attention.rsum (tW e) a)%R.
    apply Rle_mult_inv_pos; [apply Ha | lra].
  - intros k Hk. change (a k / Attention.rsum (tW e) a <= 1)%R.
    apply (Rmult_le_reg_r (Attention.rsum (tW e) a)); [lra|].
    unfold Rdiv. rewrite Rmult_assoc, Rinv_l by lra.
    pose proof (rsum_ge_term (tW e) a k (fun j _ => Ha j) Hk). lra.
  - change (Attention.rsum (tW e)
              (fun k => (a k / Attention.rsum (tW e) a)%R) = 1%R).
    unfold Rdiv. rewrite rsum_scal. field. lra.
  - intros k j Hj Hlow. change (a k / Attention.rsum (tW e) a = 0)%R.
    assert (a k = 0%R) as ->.
    { unfold a. apply torch_exp_underflow.
      pose proof (rmax_ge (tW e) x j Hj). fold m in H.
      change (x k <= x j - 104)%R in Hlow. lra. }
    unfold Rdiv. ring.
Qed.

(** A mean with non-negative weights of sum 1 stays between the bounds of
    what it averages. *)
Lemma weighted_mean_bounds (L : Z) (a v : Z -> R) (lo hi : R) :
  (forall l, (0 <= a l)%R) -> Attention.rsum L a = 1%R ->
  (forall l, 0 <= l < L -> (lo <= v l <= hi)%R) ->
  (lo <= Attention.rsum L (fun l => a l * v l) <= hi)%R.
Proof.
  intros Hpos Hsum Hb.
  assert (Elo : (Attention.rsum L (fun l => a l * lo) = lo)%R).
  { rewrite rsum_scal, Hsum. ring. }
  assert (Ehi : (Attention.rsum L (fun l => a l * hi) = hi)%R).
  { rewrite rsum_scal, Hsum. ring. }
  split.
  - apply Rle_trans with (Attention.rsum L (fun l => a l * lo))%R;
      [right; symmetry; exact Elo|].
    apply rsum_le. intros l Hl.
    apply Rmult_le_compat_l; [apply Hpos | apply Hb, Hl].
  - apply Rle_trans with (Attention.rsum L (fun l => a l * hi))%R;
      [|right; exact Ehi].
    apply rsum_le. intros l Hl.
    apply Rmult_le_compat_l; [apply Hpos | apply Hb, Hl].
Qed.

(** Line 40, for a module built by the constructor with a positive
    embedding size and a non-empty [prev_frame] sequence: no attention
    weight is negative or above 1, and the weights of one query over the
    keys sum to 1. (A weight can be exactly 0: the exponential of the
    kernel underflows for keys far below the best one.) *)
Theorem attention_weights_are_distribution
        (e h : Z) (w : Attention.weights)
        (self : Attention.SelfAttention)
        (prev_frame next_frame : Attention.Tensor3) (att values : Tensor)
        (n hd q : Z) :
  Attention.init e h w = inr self -> 1 <= e ->
  Attention.attention_weights self prev_frame next_frame = Ok (att, values) ->
  1 <= Attention.d1 prev_frame ->
  tW att = Attention.d1 prev_frame
  /\ (forall k, (0 <= tat att n hd q k)%R)
  /\ (forall k, 0 <= k < Attention.d1 prev_frame ->
                (tat att n hd q k <= 1)%R)
  /\ Attention.rsum (Attention.d1 prev_frame) (tat att n hd q) = 1%R.
Proof.
  intros _ _ H HL.
  apply attention_weights_ok in H
    as (query & keys & -> & (_ & Hk & _) & _).
  assert (HW : tW (Attention.energy query keys) = Attention.d1 prev_frame)
    by exact Hk.
  split; [exact HW|]. rewrite <- HW.
  destruct (softmax_distribution (Attention.energy query keys)
              (sqrt (IZR (Attention.embed_size self))) n hd q)
    as (H1 & H2 & H3 & _); [lia|].
  auto.
Qed.

(** Lines 40-42: each entry of the attended values lies between any two
    bounds on the projected values it averages (same batch entry, head and
    feature, over the rows of [prev_frame]); so a projected value that is
    the same in every row is passed on unchanged. *)
Theorem attention_context_is_weighted_mean
        (self : Attention.SelfAttention)
        (prev_frame next_frame : Attention.Tensor3) (att values : Tensor)
        (n q h d : Z) (lo hi : R) :
  Attention.attention_weights self prev_frame next_frame = Ok (att, values) ->
  1 <= Attention.d1 prev_frame ->
  (forall l, 0 <= l < Attention.d1 prev_frame ->
             (lo <= tat values n l h d <= hi)%R) ->
  (lo <= tat (Attention.context att values) n q h d <= hi)%R.
Proof.
  intros H HL Hb.
  apply attention_weights_ok in H
    as (query & keys & -> & (_ & Hk & _) & _).
  assert (HW : tW (Attention.energy query keys) = Attention.d1 prev_frame)
    by exact Hk.
  destruct (softmax_distribution (Attention.energy query keys)
              (sqrt (IZR (Attention.embed_size self))) n h q)
    as (Hpos & _ & Hsum & _); [lia|].
  cbn [Attention.context tat]. cbn [Attention.softmax tW].
  apply weighted_mean_bounds; [exact Hpos | exact Hsum|].
  intros l Hl. apply Hb. lia.
Qed.

Lemma reshape_spec (x : Attention.Tensor3) (n l h d : Z) :
  0 <= n -> 0 <= l -> 0 <= h -> 0 <= d ->
  Attention.d0 x * Attention.d1 x * Attention.d2 x = n * l * h * d ->
  Attention.reshape x n l h d
  = Ok (mkTensor n l h d (fun i j k m =>
          let flat := ((i * l + j) * h + k) * d + m in
          Attention.at3 x (flat / (Attention.d1 x * Attention.d2 x))
                        ((flat / Attention.d2 x) mod Attention.d1 x)
                        (flat mod Attention.d2 x))).
Proof.
  intros Hn Hl Hh Hd E. unfold Attention.reshape.
  destruct (Z.ltb_spec n 0); [lia|]. destruct (Z.ltb_spec l 0); [lia|].
  destruct (Z.ltb_spec h 0); [lia|]. destruct (Z.ltb_spec d 0); [lia|].
  cbn [orb]. rewrite E, Z.eqb_refl. reflexivity.
Qed.

Lemma reshape_count (x : Attention.Tensor3) (n l h d : Z) :
  Attention.d0 x * Attention.d1 x * Attention.d2 x <> n * l * h * d ->
  Attention.reshape x n l h d = Raise RuntimeError.
Proof.
  intros E. unfold Attention.reshape. destruct (_ || _); [reflexivity|].
  destruct (Z.eqb_spec (Attention.d0 x * Attention.d1 x * Attention.d2 x)
                       (n * l * h * d)); [contradiction | reflexivity].
Qed.

Lemma init_positive (e h : Z) (w : Attention.weights)
      (self : Attention.SelfAttention) :
  Attention.init e h w = inr self -> 1 <= e ->
  Attention.embed_size self = e /\ Attention.heads self = h
  /\ 0 < Attention.heads self /\ 0 < Attention.head_dim self
  /\ Attention.heads self * Attention.head_dim self = e.
Proof.
  intros H He.
  apply init_built in H as (-> & Hz & E & Hd & _ & _). cbn.
  assert (0 < e / h).
  { destruct (Z.eq_dec (e / h) 0) as [Z0|]; [|lia]. rewrite Z0 in E. lia. }
  assert (0 < h) by (destruct (Z_lt_le_dec 0 h); [assumption | nia]).
  repeat split; try assumption; lia.
Qed.

Lemma attended_ok
      (e h : Z) (w : Attention.weights) (self : Attention.SelfAttention)
      (prev_frame next_frame : Attention.Tensor3) :
  Attention.init e h w = inr self -> 1 <= e ->
  1 <= Attention.d0 prev_frame -> 1 <= Attention.d1 prev_frame ->
  1 <= Attention.d1 next_frame ->
  Attention.d2 prev_frame = e ->
  Attention.d0 next_frame * Attention.d2 next_frame
  = Attention.d0 prev_frame * e ->
  exists att values,
    Attention.attention_weights self prev_frame next_frame = Ok (att, values)
    /\ has_shape (Attention.context att values)
                 (Attention.d0 prev_frame) (Attention.d1 next_frame)
                 h (e / h).
Proof.
  intros Hi He HN HL HQ E2 E3.
  destruct (init_positive e h w self Hi He) as (Ee & Eh & Hh & Hd & Ehd).
  assert (Ed : e / h = Attention.head_dim self).
  { rewrite <- Ehd, <- Eh, Z.mul_comm. apply Z.div_mul. lia. }
  unfold Attention.attention_weights.
  rewrite reshape_spec by nia. cbn [bind].
  rewrite reshape_spec by nia. cbn [bind].
  unfold Attention.linear. cbn [tW]. rewrite Z.eqb_refl. cbn [bind].
  eexists _, _. split; [reflexivity|]. unfold has_shape. cbn.
  repeat split; congruence.
Qed.

Lemma attended_raises
      (e h : Z) (w : Attention.weights) (self : Attention.SelfAttention)
      (prev_frame next_frame : Attention.Tensor3) :
  Attention.init e h w = inr self -> 1 <= e ->
  1 <= Attention.d0 prev_frame -> 1 <= Attention.d1 prev_frame ->
  1 <= Attention.d1 next_frame ->
  Attention.d2 prev_frame <> e
  \/ Attention.d0 next_frame * Attention.d2 next_frame
     <> Attention.d0 prev_frame * e ->
  Attention.attended self prev_frame next_frame = Raise RuntimeError.
Proof.
  intros Hi He HN HL HQ Hbad.
  destruct (init_positive e h w self Hi He) as (Ee & Eh & Hh & Hd & Ehd).
  unfold Attention.attended, Attention.attention_weights.
  destruct (Z.eq_dec (Attention.d2 prev_frame) e) as [E2|E2].
  - destruct Hbad as [E|E]; [contradiction|].
    rewrite reshape_spec by nia. cbn [bind].
    rewrite reshape_count; [reflexivity | nia].
  - rewrite reshape_count; [reflexivity | nia].
Qed.

(** Lines 27-44 for a module built by the constructor with a positive
    embedding size, on non-empty batches and sequences: the attended
    values are computed, with shape [(N, query_len, heads, head_dim)],
    exactly when [prev_frame] has [embed_size] entries per position and
    [next_frame] has as many elements as [N * query_len * embed_size];
    otherwise the reshape of line 31 or 33 raises. *)
Theorem SelfAttention_attended_contract
        (e h : Z) (w : Attention.weights) (self : Attention.SelfAttention)
        (prev_frame next_frame : Attention.Tensor3) :
  Attention.init e h w = inr self -> 1 <= e ->
  1 <= Attention.d0 prev_frame -> 1 <= Attention.d1 prev_frame ->
  1 <= Attention.d1 next_frame ->
  (Attention.d2 prev_frame = e ->
   Attention.d0 next_frame * Attention.d2 next_frame
   = Attention.d0 prev_frame * e ->
   exists out,
     Attention.attended self prev_frame next_frame = Ok out
     /\ has_shape out (Attention.d0 prev_frame) (Attention.d1 next_frame)
                  h (e / h))
  /\ (Attention.d2 prev_frame <> e
      \/ Attention.d0 next_frame * Attention.d2 next_frame
         <> Attention.d0 prev_frame * e ->
      Attention.attended self prev_frame next_frame = Raise RuntimeError).
Proof.
  intros Hi He HN HL HQ. split.
  - intros E2 E3.
    destruct (attended_ok e h w self prev_frame next_frame Hi He HN HL HQ
                E2 E3) as (att & values & EW & Hs).
    unfold Attention.attended. rewrite EW. cbn [bind]. eauto.
  - apply (attended_raises e h w self prev_frame next_frame Hi He HN HL HQ).
Qed.

(** Row-major positions: the element [(i, j, c)] of a contiguous
    [(_, L, E)] tensor sits at [(i * L + j) * E + c]. *)
Lemma flat_index (L E i j c : Z) :
  0 <= j < L -> 0 <= c < E ->
  ((i * L + j) * E + c) / (L * E) = i
  /\ (((i * L + j) * E + c) / E) mod L = j
  /\ ((i * L + j) * E + c) mod E = c.
Proof.
  intros Hj Hc.
  assert (E1 : ((i * L + j) * E + c) / E = i * L + j).
  { symmetry. apply Z.div_unique_pos with c; [assumption | ring]. }
  repeat split.
  - symmetry. apply Z.div_unique_pos with (j * E + c); [nia | ring].
  - rewrite E1. symmetry. apply Z.mod_unique_pos with i; [assumption | ring].
  - symmetry. apply Z.mod_unique_pos with (i * L + j); [assumption | ring].
Qed.

(** Line 31: when only the last dimension is split into
    [(heads, head_dim)], head [k] reads the entries [k * head_dim ..]. *)
Lemma reshape_aligned (x : Attention.Tensor3) (h d : Z) (y : Tensor)
      (i j k m : Z) :
  Attention.reshape x (Attention.d0 x) (Attention.d1 x) h d = Ok y ->
  Attention.d2 x = h * d ->
  0 <= j < Attention.d1 x -> 0 <= k < h -> 0 <= m < d ->
  tat y i j k m = Attention.at3 x i j (k * d + m).
Proof.
  intros H E Hj Hk Hm. unfold Attention.reshape in H.
  destruct (_ || _); [discriminate|].
  destruct (negb _); [discriminate|]. injection H as <-. cbn.
  replace (((i * Attention.d1 x + j) * h + k) * d + m)
    with ((i * Attention.d1 x + j) * Attention.d2 x + (k * d + m))
    by (rewrite E; ring).
  destruct (flat_index (Attention.d1 x) (Attention.d2 x) i j (k * d + m))
    as (-> & -> & ->); [assumption | nia | reflexivity].
Qed.

(** Lines 31 and 35: the projected values of head [k] at position [l]. *)
Lemma attention_values_aligned (self : Attention.SelfAttention)
      (prev_frame next_frame : Attention.Tensor3) (att values : Tensor)
      (n l k o : Z) :
  Attention.attention_weights self prev_frame next_frame = Ok (att, values) ->
  Attention.d2 prev_frame = Attention.heads self * Attention.head_dim self ->
  0 <= l < Attention.d1 prev_frame -> 0 <= k < Attention.heads self ->
  tat values n l k o
  = Attention.rsum (Attention.head_dim self) (fun m =>
      (Attention.at3 prev_frame n l (k * Attention.head_dim self + m)
       * Attention.W_values (Attention.params self) o m)%R).
Proof.
  unfold Attention.attention_weights. intros H E Hl Hk.
  apply bind_ok in H as (v0 & Ev0 & H).
  apply bind_ok in H as (q0 & Eq0 & H).
  apply bind_ok in H as (v & Ev & H).
  apply bind_ok in H as (k' & Ek & H).
  apply bind_ok in H as (q & Eq & H).
  injection H as _ <-.
  apply linear_ok in Ev as (_ & ->). cbn.
  apply rsum_ext. intros m Hm.
  now rewrite (reshape_aligned _ _ _ _ n l k m Ev0 E Hl Hk Hm).
Qed.

(** Lines 27-44 when all positions of [prev_frame] hold the same embedding
    in one batch entry: the weights of line 40 no longer matter, and what
    every query of that entry attends to is the projection, by the
    [values] layer, of that one embedding, whatever [next_frame]
    contains. *)
Theorem attention_uniform_memory
        (e h : Z) (w : Attention.weights) (self : Attention.SelfAttention)
        (prev_frame next_frame : Attention.Tensor3) (n : Z) :
  Attention.init e h w = inr self -> 1 <= e ->
  1 <= Attention.d0 prev_frame -> 1 <= Attention.d1 prev_frame ->
  1 <= Attention.d1 next_frame ->
  Attention.d2 prev_frame = e ->
  Attention.d0 next_frame * Attention.d2 next_frame
  = Attention.d0 prev_frame * e ->
  (forall l c, 0 <= l < Attention.d1 prev_frame -> 0 <= c < e ->
               Attention.at3 prev_frame n l c = Attention.at3 prev_frame n 0 c) ->
  exists out,
    Attention.attended self prev_frame next_frame = Ok out
    /\ forall q k m,
        0 <= k < h -> 0 <= m < e / h ->
        tat out n q k m
        = Attention.rsum (e / h) (fun c =>
            (Attention.at3 prev_frame n 0 (k * (e / h) + c)
             * Attention.W_values w m c)%R).
Proof.
  intros Hi He HN HL HQ E2 E3 Hrows.
  destruct (init_positive e h w self Hi He) as (Ee & Eh & Hh & Hd & Ehd).
  assert (Ed : e / h = Attention.head_dim self).
  { rewrite <- Ehd, <- Eh, Z.mul_comm. apply Z.div_mul. lia. }
  assert (Ew : Attention.params self = w).
  { destruct (init_built e h w self Hi) as (-> & _). reflexivity. }
  unfold Attention.attended.
  destruct (attended_ok e h w self prev_frame next_frame Hi He HN HL HQ
              E2 E3) as (att & values & EW & _).
  rewrite EW. cbn [bind]. eexists. split; [reflexivity|].
  intros q k m Hk Hm. rewrite Ed in *. rewrite <- Eh in Hk.
  set (D := Attention.head_dim self) in *.
  assert (Hval : forall l, 0 <= l < Attention.d1 prev_frame ->
            tat values n l k m = tat values n 0 k m).
  { intros l Hl.
    rewrite (attention_values_aligned self prev_frame next_frame att values
               n l k m EW) by (try assumption; lia).
    rewrite (attention_values_aligned self prev_frame next_frame att values
               n 0 k m EW) by (try assumption; lia).
    apply rsum_ext. intros m' Hm'. f_equal. apply Hrows; [assumption|].
    fold D. nia. }
  assert (Hctx : tat (Attention.context att values) n q k m
                 = tat values n 0 k m).
  { destruct (attention_weights_ok _ _ _ _ _ EW)
      as (query & keys & Eatt & (_ & Hkeys & _) & _).
    assert (HW : tW (Attention.energy query keys) = Attention.d1 prev_frame)
      by exact Hkeys.
    destruct (softmax_distribution (Attention.energy query keys)
                (sqrt (IZR (Attention.embed_size self))) n k q)
      as (Hpos & _ & Hsum & _); [lia|].
    rewrite Eatt. cbn [Attention.context tat]. cbn [Attention.softmax tW].
    apply Rle_antisym;
      apply (weighted_mean_bounds _ _ (fun l => tat values n l k m)
               (tat values n 0 k m) (tat values n 0 k m) Hpos Hsum);
      intros l Hl; rewrite (Hval l) by lia; lra. }
  rewrite Hctx.
  rewrite (attention_values_aligned self prev_frame next_frame att values
             n 0 k m EW) by (try assumption; lia).
  fold D. now rewrite Ew.
Qed.

(** Lines 178 and 278: the synthesis network builds its attention with 64
    embedding entries in 4 heads of 16, and hands it one 4-D map as both
    arguments. Lines 28-44 go through, with attended values of shape
    [(N, C, 4, 16)], exactly when the map has 64 spatial positions; at any
    other resolution the reshape of line 31 raises. *)
Theorem synthesis_attention_needs_64_positions
        (w : Attention.weights) (cross_att : Tensor) :
  1 <= tN cross_att -> 1 <= tC cross_att ->
  exists self,
    Attention.init 64 4 w = inr self
    /\ Attention.head_dim self = 16
    /\ (tH cross_att * tW cross_att = 64 ->
        exists out,
          Attention.attended self (Attention.of_image cross_att)
                             (Attention.of_image cross_att) = Ok out
          /\ has_shape out (tN cross_att) (tC cross_att) 4 16)
    /\ (tH cross_att * tW cross_att <> 64 ->
        Attention.attended self (Attention.of_image cross_att)
                           (Attention.of_image cross_att)
        = Raise RuntimeError).
Proof.
  intros HN HC.
  assert (Hi : Attention.init 64 4 w
               = inr (Attention.mkSelfAttention 64 4 16 w)).
  { unfold Attention.init. cbn [Z.eqb negb]. change (64 / 4) with 16.
    cbn [Z.mul Pos.mul Z.eqb Pos.eqb negb].
    rewrite !linear_allocated_small by lia. reflexivity. }
  eexists. split; [exact Hi|]. split; [reflexivity|].
  split.
  - intros E.
    destruct (attended_ok 64 4 w _ (Attention.of_image cross_att)
                (Attention.of_image cross_att) Hi)
      as (att & values & EW & Hs); try (cbn; rewrite ?E; lia).
    unfold Attention.attended. rewrite EW. cbn [bind]. eauto.
  - intros E.
    apply (attended_raises 64 4 w _ (Attention.of_image cross_att)
             (Attention.of_image cross_att) Hi); cbn; lia.
Qed.
End Properties.

(* ================================================================== *)
(** * The statements on concrete inputs *)
(* ================================================================== *)

Lemma motion_estimator_pipeline_witness :
  exists flow feat,
    MotionEstimator_forward (ops := fixture_ops)
      (torch_zeros 1 64 2 2) (torch_zeros 1 64 2 2)
      (VTensor (torch_zeros 1 64 2 2)) (VTensor (const_tensor 1 4 2 2 1))
    = Ok (flow, feat)
    /\ has_shape flow 1 4 2 2 /\ has_shape feat 1 64 2 2.
Proof.
  destruct (motion_estimator_pipeline (ops := fixture_ops)
              (torch_zeros 1 64 2 2) (torch_zeros 1 64 2 2)
              (torch_zeros 1 64 2 2) (const_tensor 1 4 2 2 1) 1 2 2)
    as (w0 & w1 & corr & x & f1 & f2 & f3 & f4 & f5 & flow & H);
    try (repeat split; reflexivity); try lia.
  exists flow, f5. intuition.
Defined.

Lemma blend_denominator_nonnegative_witness :
  exists den,
    blend_denominator
      (refine_mask0 (ops := fixture_ops)
         (mkTensor 1 5 2 2 (conv_out (TorchOps := fixture_ops) "pred"
                              (torch_zeros 1 32 2 2))))
      (refine_mask1 (ops := fixture_ops)
         (mkTensor 1 5 2 2 (conv_out (TorchOps := fixture_ops) "pred"
                              (torch_zeros 1 32 2 2))))
      (1 / 2)
    = Ok den
    /\ (0 <= tat den 0 0 0 0)%R.
Proof.
  destruct (blend_denominator_nonnegative (ops := fixture_ops)
              (torch_zeros 1 32 2 2) _ (1 / 2)%R eq_refl)
    as (den & H & _ & Hel); [lra|].
  exists den. split; [exact H|].
  apply (Hel 0 0 0). unfold in_range. cbn. lia.
Defined.

(** C4 as the specification states it: with a prediction layer whose
    output is -104 everywhere (zero weights, bias -104) both masks are 0 and
    the normalisation is 0 at every element, for the time period 1/2. *)
Lemma blend_denominator_can_be_zero :
  ~ (forall (ops : TorchOps) (x refine den : Tensor) (t : R),
        Sequential pred x = Ok refine ->
        (0 < t < 1)%R ->
        blend_denominator (refine_mask0 refine) (refine_mask1 refine) t
        = Ok den ->
        forall i j k l, (0 < tat den i j k l)%R).
Proof.
  intros H.
  specialize (H (constant_ops (-104)) (torch_zeros 1 32 2 2) _ _ (1 / 2)%R
                eq_refl ltac:(lra) eq_refl 0 0 0 0).
  cbn in H.
  rewrite (fixture_sigmoid_underflow (-104)) in H by lra. lra.
Qed.

Lemma unit_masks_linear_blend_witness :
  exists merged,
    merged_img (const_tensor 1 3 2 2 (1 / 4)) (const_tensor 1 3 2 2 (3 / 4))
               (const_tensor 1 1 2 2 1) (const_tensor 1 1 2 2 1) (1 / 4)
    = Ok merged
    /\ (tat merged 0 0 0 0 = 1 / 4 * (1 - 1 / 4) + 3 / 4 * (1 / 4))%R.
Proof.
  destruct (unit_masks_linear_blend
              (const_tensor 1 3 2 2 (1 / 4)) (const_tensor 1 3 2 2 (3 / 4))
              (const_tensor 1 1 2 2 1) (const_tensor 1 1 2 2 1)
              (torch_zeros 1 3 2 2) 1 2 2 (1 / 4))
    as (merged & interp & H & _ & Hat);
    try (repeat split; reflexivity); try (intros; reflexivity); try lra.
  exists merged. split; [exact H|].
  apply (Hat 0 0 0 0). unfold in_range. lia.
Defined.

Lemma skipped_levels_are_finest_witness :
  skipped_levels 3 2 = [1; 0]
  /\ In 0 (skipped_levels 3 2)
  /\ ~ In 2 (skipped_levels 3 2).
Proof.
  destruct (skipped_levels_are_finest 3 2) as (E & _ & _ & H0 & Hc); [lia|].
  split; [exact E|]. split; [exact H0|].
  intros Hin. apply Hc in Hin. discriminate Hin.
Defined.

Lemma final_level_skips_motion_estimation_witness :
  prepare (ops := fixture_ops) 1 8 8 3 (skipped_levels 3 3)
          (Some fixture_locals) 0
  = Ok (Run (mkRun (torch_zeros 1 4 2 2) (torch_zeros 1 64 2 2) None true))
  /\ prepare (ops := fixture_ops) 1 8 8 3 (skipped_levels 3 1)
             (Some fixture_locals) 0
     = Ok (Run (mkRun (smul (const_tensor 1 4 2 2 1) (IZR (2 ^ 1)))
                      (torch_zeros 1 64 2 2)
                      (Some (const_tensor 1 3 8 8 (1 / 2))) true))
  /\ forward_one_lvl (ops := fixture_ops) (fixture_model 3 1)
       fixture_img fixture_img fixture_img fixture_img
       (VTensor (torch_zeros 1 64 8 8)) (VTensor (const_tensor 1 4 8 8 1))
       VNone (1 / 2) true
     = Ok (VTensor (const_tensor 1 4 8 8 1), VTensor (torch_zeros 1 64 8 8),
           const_tensor 1 3 8 8 (1 / 2),
           mkExtra (torch_zeros 1 3 8 8) (torch_zeros 1 3 8 8)
                   (torch_zeros 1 3 8 8) (torch_zeros 1 3 8 8)).
Proof.
  split; [|split].
  - apply (proj1 (final_level_skips_motion_estimation (ops := fixture_ops)
                    1 8 8 3 3 fixture_locals ltac:(lia) ltac:(lia))).
    lia.
  - destruct (final_level_skips_motion_estimation (ops := fixture_ops)
                1 8 8 3 1 fixture_locals ltac:(lia) ltac:(lia))
      as (_ & Hp & _).
    destruct (Hp ltac:(lia) _ _ _ eq_refl eq_refl eq_refl) as [E _].
    exact E.
  - reflexivity.
Defined.

Lemma forward_diagnostics_witness :
  exists out,
    forward (ops := fixture_ops) (fixture_model 2 0) fixture_img fixture_img
            (1 / 2) None None
    = Ok out
    /\ out_interp_imgs out = [out_interp_img out]
    /\ List.length (out_interp_imgs out) = 1%nat
    /\ List.length (out_bi_flows out) = 2%nat.
Proof.
  eexists. split; [reflexivity|].
  destruct (forward_diagnostics (ops := fixture_ops) (fixture_model 2 0)
              fixture_img fixture_img (1 / 2) None None _ eq_refl)
    as (_ & _ & H1 & H2).
  split; [exact H1|]. split; [reflexivity | exact H2].
Defined.

Lemma transition_rescales_flow_and_feature_witness :
  prepare (ops := fixture_ops) 1 8 8 3 [] (Some fixture_locals) 1
  = Ok (Run (mkRun (smul (const_tensor 1 4 2 2 1) 2)
                   (smul (const_tensor 1 64 2 2 1) 2)
                   (Some (const_tensor 1 3 8 8 (1 / 2))) false))
  /\ prepare (ops := fixture_ops) 1 8 8 3 [1; 0] (Some fixture_locals) 0
     = Ok (Run (mkRun (smul (const_tensor 1 4 2 2 1) (IZR (2 ^ 2)))
                      (torch_zeros 1 64 2 2)
                      (Some (const_tensor 1 3 8 8 (1 / 2))) true)).
Proof.
  split.
  - destruct (transition_rescales_flow_and_feature (ops := fixture_ops)
                1 8 8 3 [] fixture_locals 1 _ _ eq_refl eq_refl
                ltac:(lia) ltac:(simpl; tauto))
      as (Hr & _).
    destruct (Hr ltac:(intros [E _]; discriminate E) _ _ _
                 eq_refl eq_refl eq_refl) as [E _].
    exact E.
  - destruct (transition_rescales_flow_and_feature (ops := fixture_ops)
                1 8 8 3 [1; 0] fixture_locals 0 _ _ eq_refl eq_refl
                ltac:(lia) ltac:(simpl; intros [E|[]]; discriminate E))
      as (_ & Hs).
    destruct (Hs eq_refl ltac:(discriminate) ltac:(unfold py_len; simpl; lia) _ _
                 eq_refl eq_refl) as [E _].
    exact E.
Defined.

Lemma estimator_rejects_concatenated_features_witness :
  raises (MotionEstimator_forward (ops := fixture_ops)
            (torch_zeros 1 128 2 2) (torch_zeros 1 128 2 2)
            (VTensor (torch_zeros 1 64 2 2)) (VTensor (torch_zeros 1 4 2 2))).
Proof.
  apply (estimator_rejects_concatenated_features (ops := fixture_ops));
    simpl; lia.
Defined.

Lemma skipping_always_raises_witness :
  raises (forward (ops := fixture_ops) (fixture_model 3 1)
                  fixture_img fixture_img (1 / 2) (Some 3) (Some 1))
  /\ raises (forward (ops := fixture_ops) (fixture_model 3 1)
                     fixture_img fixture_img (1 / 2) (Some 3) (Some (-1))).
Proof.
  split; apply (skipping_always_raises (ops := fixture_ops)); lia.
Defined.

Lemma empty_pyramid_raises_witness :
  forward (ops := fixture_ops) (fixture_model 0 0)
          fixture_img fixture_img (1 / 2) (Some 0) None
  = Raise UnboundLocalError.
Proof. apply (empty_pyramid_raises (ops := fixture_ops)). lia. Defined.

Lemma last_bi_flow_is_returned_flow_witness :
  exists out earlier,
    forward (ops := fixture_ops) (fixture_model 2 0) fixture_img fixture_img
            (1 / 2) None None
    = Ok out
    /\ out_bi_flows out = earlier ++ [out_bi_flow out].
Proof.
  eexists.
  destruct (last_bi_flow_is_returned_flow (ops := fixture_ops)
              (fixture_model 2 0) fixture_img fixture_img (1 / 2) None None
              _ eq_refl) as (earlier & E).
  exists earlier. split; [reflexivity | exact E].
Defined.

Lemma frame_is_synthesised_at_half_witness :
  exists out args extra,
    forward (ops := fixture_ops) (fixture_model 2 0) fixture_img fixture_img
            (1 / 4) None None
    = Ok out
    /\ synthesis_network (fixture_model 2 0) args 0.5
       = Ok (out_interp_img out, extra).
Proof.
  eexists.
  destruct (frame_is_synthesised_at_half (ops := fixture_ops)
              (fixture_model 2 0) fixture_img fixture_img (1 / 4) None None
              _ eq_refl) as (li & p0 & p1 & pf & extra & E & _).
  eexists _, extra. split; [reflexivity | exact E].
Defined.

Lemma merged_between_warped_witness :
  exists merged,
    merged_img (const_tensor 1 3 2 2 (1 / 4)) (const_tensor 1 3 2 2 (3 / 4))
      (refine_mask0 (ops := fixture_ops)
         (mkTensor 1 5 2 2 (conv_out (TorchOps := fixture_ops) "pred"
                              (torch_zeros 1 32 2 2))))
      (refine_mask1 (ops := fixture_ops)
         (mkTensor 1 5 2 2 (conv_out (TorchOps := fixture_ops) "pred"
                              (torch_zeros 1 32 2 2))))
      (1 / 3)
    = Ok merged
    /\ (Rmin (1 / 4) (3 / 4) <= tat merged 0 0 0 0 <= Rmax (1 / 4) (3 / 4))%R.
Proof.
  destruct (merged_between_warped (ops := fixture_ops)
              (torch_zeros 1 32 2 2) _
              (const_tensor 1 3 2 2 (1 / 4)) (const_tensor 1 3 2 2 (3 / 4))
              (1 / 3) eq_refl
              (conj eq_refl (conj eq_refl (conj eq_refl eq_refl)))
              (conj eq_refl (conj eq_refl (conj eq_refl eq_refl))))
    as (merged & den & H & Hden & Hat); [lra|].
  exists merged. split; [exact H|].
  apply (Hat 0 0 0 0); [unfold in_range; cbn; lia|].
  cbn in Hden. injection Hden as <-. cbn.
  unfold fixture_sigmoid. destruct (Rle_dec 0 (-104)); [lra|].
  pose proof (logistic_pos 0). lra.
Defined.

Lemma merged_img_time_symmetric_witness :
  exists merged swapped,
    merged_img (const_tensor 1 3 2 2 (1 / 4)) (const_tensor 1 3 2 2 (3 / 4))
               (const_tensor 1 1 2 2 (1 / 2)) (const_tensor 1 1 2 2 (1 / 3))
               (1 / 4)
    = Ok merged
    /\ merged_img (const_tensor 1 3 2 2 (3 / 4)) (const_tensor 1 3 2 2 (1 / 4))
                  (const_tensor 1 1 2 2 (1 / 3)) (const_tensor 1 1 2 2 (1 / 2))
                  (1 - 1 / 4)
       = Ok swapped
    /\ tat swapped 0 0 0 0 = tat merged 0 0 0 0.
Proof.
  destruct (merged_img_time_symmetric
              (const_tensor 1 3 2 2 (1 / 4)) (const_tensor 1 3 2 2 (3 / 4))
              (const_tensor 1 1 2 2 (1 / 2)) (const_tensor 1 1 2 2 (1 / 3))
              1 2 2 (1 / 4))
    as (merged & swapped & H1 & H2 & _ & _ & Hat);
    try (repeat split; reflexivity).
  exists merged, swapped. split; [exact H1|]. split; [exact H2 | apply Hat].
Defined.

Lemma equal_masks_cancel_witness :
  exists merged,
    merged_img (const_tensor 1 3 2 2 (1 / 4)) (const_tensor 1 3 2 2 (3 / 4))
               (const_tensor 1 1 2 2 (1 / 2)) (const_tensor 1 1 2 2 (1 / 2))
               (1 / 4)
    = Ok merged
    /\ (tat merged 0 0 0 0 = 1 / 4 * (1 - 1 / 4) + 3 / 4 * (1 / 4))%R.
Proof.
  destruct (equal_masks_cancel
              (const_tensor 1 3 2 2 (1 / 4)) (const_tensor 1 3 2 2 (3 / 4))
              (const_tensor 1 1 2 2 (1 / 2)) (const_tensor 1 1 2 2 (1 / 2))
              1 2 2 (1 / 4))
    as (merged & H & Hat);
    try (repeat split; reflexivity); try (intros; reflexivity);
    try (intros; cbn; lra).
  exists merged. split; [exact H|].
  apply (Hat 0 0 0 0). unfold in_range. lia.
Defined.

Lemma predict_channel_counts_witness :
  (exists interp extra,
      predict (ops := fixture_ops)
              (mkTensor 1 5 2 2 (conv_out (TorchOps := fixture_ops) "pred"
                                   (torch_zeros 1 32 2 2)))
              (const_tensor 1 1 2 2 (1 / 4)) (const_tensor 1 1 2 2 (3 / 4))
              (1 / 2)
      = Ok (interp, extra)
      /\ has_shape interp 1 3 2 2)
  /\ predict (ops := fixture_ops)
             (mkTensor 1 5 2 2 (conv_out (TorchOps := fixture_ops) "pred"
                                  (torch_zeros 1 32 2 2)))
             (const_tensor 1 2 2 2 (1 / 4)) (const_tensor 1 2 2 2 (3 / 4))
             (1 / 2)
     = Raise RuntimeError.
Proof.
  split.
  - destruct (predict_channel_counts (ops := fixture_ops)
                (torch_zeros 1 32 2 2) _
                (const_tensor 1 1 2 2 (1 / 4)) (const_tensor 1 1 2 2 (3 / 4))
                1 (1 / 2) eq_refl)
      as (Hok & _); try (repeat split; reflexivity).
    destruct (Hok (or_introl eq_refl)) as (interp & extra & H & Hs & _).
    exists interp, extra. split; [exact H | exact Hs].
  - destruct (predict_channel_counts (ops := fixture_ops)
                (torch_zeros 1 32 2 2) _
                (const_tensor 1 2 2 2 (1 / 4)) (const_tensor 1 2 2 2 (3 / 4))
                2 (1 / 2) eq_refl
                (conj eq_refl (conj eq_refl (conj eq_refl eq_refl)))
                (conj eq_refl (conj eq_refl (conj eq_refl eq_refl))))
      as (_ & Herr).
    apply Herr; lia.
Defined.

Lemma motion_estimator_returns_only_on_277_witness :
  exists flow feat,
    MotionEstimator_forward (ops := fixture_ops)
      (torch_zeros 1 64 2 2) (torch_zeros 1 64 2 2)
      (VTensor (torch_zeros 1 64 2 2)) (VTensor (const_tensor 1 4 2 2 1))
    = Ok (flow, feat)
    /\ has_shape flow 1 4 2 2 /\ has_shape feat 1 64 2 2.
Proof.
  destruct (MotionEstimator_forward (ops := fixture_ops)
              (torch_zeros 1 64 2 2) (torch_zeros 1 64 2 2)
              (VTensor (torch_zeros 1 64 2 2))
              (VTensor (const_tensor 1 4 2 2 1)))
    as [[flow feat]|e] eqn:E.
  2:{ vm_compute in E. discriminate E. }
  exists flow, feat. split; [reflexivity|].
  destruct (motion_estimator_returns_only_on_277 (ops := fixture_ops)
              (torch_zeros 1 64 2 2) (torch_zeros 1 64 2 2)
              (VTensor (torch_zeros 1 64 2 2))
              (VTensor (const_tensor 1 4 2 2 1)) flow feat E)
    as (lfeat & lflow & _ & _ & _ & Hflow & Hfeat).
  split; [exact Hflow | exact Hfeat].
Defined.

Lemma cat_pairs_zip_witness :
  exists l,
    cat_pairs [torch_zeros 1 16 8 8; torch_zeros 1 32 4 4; torch_zeros 1 64 2 2]
              [torch_zeros 1 16 8 8; torch_zeros 1 32 4 4]
    = Ok l
    /\ List.length l = 2%nat.
Proof.
  eexists. split; [reflexivity|].
  apply (cat_pairs_zip
           [torch_zeros 1 16 8 8; torch_zeros 1 32 4 4; torch_zeros 1 64 2 2]
           [torch_zeros 1 16 8 8; torch_zeros 1 32 4 4] _ eq_refl).
Defined.

Lemma SelfAttention_attended_contract_witness :
  (exists out,
      Attention.attended (ops := fixture_ops) fixture_attention
                         (fixture_sequence 2 1) (fixture_sequence 3 1) = Ok out
      /\ has_shape out 1 3 2 2)
  /\ Attention.attended (ops := fixture_ops) fixture_attention
                        (Attention.mkTensor3 1 2 5 (fun _ _ _ => 1%R))
                        (fixture_sequence 3 1)
     = Raise RuntimeError.
Proof.
  split.
  - apply (proj1 (SelfAttention_attended_contract (ops := fixture_ops)
                    4 2 fixture_weights
                    fixture_attention (fixture_sequence 2 1)
                    (fixture_sequence 3 1) eq_refl
                    ltac:(lia) ltac:(cbn; lia) ltac:(cbn; lia)
                    ltac:(cbn; lia)));
      reflexivity.
  - apply (proj2 (SelfAttention_attended_contract (ops := fixture_ops)
                    4 2 fixture_weights
                    fixture_attention
                    (Attention.mkTensor3 1 2 5 (fun _ _ _ => 1%R))
                    (fixture_sequence 3 1) eq_refl
                    ltac:(lia) ltac:(cbn; lia) ltac:(cbn; lia)
                    ltac:(cbn; lia))).
    left. cbn. lia.
Defined.

Lemma attention_weights_are_distribution_witness :
  exists att values,
    Attention.attention_weights (ops := fixture_ops) fixture_attention
                                (fixture_sequence 2 1) (fixture_sequence 3 1)
    = Ok (att, values)
    /\ tW att = 2
    /\ (forall k, (0 <= tat att 0 0 0 k)%R)
    /\ Attention.rsum 2 (tat att 0 0 0) = 1%R.
Proof.
  eexists _, _. split; [reflexivity|].
  destruct (attention_weights_are_distribution (ops := fixture_ops)
              4 2 fixture_weights fixture_attention
              (fixture_sequence 2 1) (fixture_sequence 3 1) _ _ 0 0 0
              eq_refl ltac:(lia) eq_refl ltac:(cbn; lia))
    as (H1 & H2 & _ & H3).
  split; [exact H1|]. split; [exact H2 | exact H3].
Defined.

Lemma attention_context_is_weighted_mean_witness :
  exists att values,
    Attention.attention_weights (ops := fixture_ops) fixture_attention
                                (fixture_sequence 2 1) (fixture_sequence 3 1)
    = Ok (att, values)
    /\ (2 <= tat (Attention.context att values) 0 0 0 0 <= 2)%R.
Proof.
  eexists _, _. split; [reflexivity|].
  apply (attention_context_is_weighted_mean (ops := fixture_ops)
           fixture_attention
           (fixture_sequence 2 1) (fixture_sequence 3 1) _ _ 0 0 0 0 2 2
           eq_refl).
  - cbn. lia.
  - intros l Hl. cbn. unfold Attention.rsum, py_range. simpl. lra.
Defined.

Lemma attention_uniform_memory_witness :
  exists out,
    Attention.attended (ops := fixture_ops) fixture_attention
                       (fixture_sequence 2 1) (fixture_sequence 3 (1 / 2))
    = Ok out
    /\ tat out 0 2 1 1
       = Attention.rsum 2 (fun c =>
           (Attention.at3 (fixture_sequence 2 1) 0 0 (1 * 2 + c)
            * Attention.W_values fixture_weights 1 c)%R).
Proof.
  destruct (attention_uniform_memory (ops := fixture_ops)
              4 2 fixture_weights fixture_attention
              (fixture_sequence 2 1) (fixture_sequence 3 (1 / 2)) 0 eq_refl)
    as (out & E & Hq); try (cbn; lia); try reflexivity.
  exists out. split; [exact E|]. apply (Hq 2 1 1); cbn; lia.
Defined.

Lemma synthesis_attention_needs_64_positions_witness :
  exists self,
    Attention.init (ops := fixture_ops) 64 4 fixture_weights = inr self
    /\ (exists out,
           Attention.attended (ops := fixture_ops) self
                              (Attention.of_image (torch_zeros 1 64 8 8))
                              (Attention.of_image (torch_zeros 1 64 8 8))
           = Ok out
           /\ has_shape out 1 64 4 16)
    /\ Attention.attended (ops := fixture_ops) self
                          (Attention.of_image (torch_zeros 1 64 16 16))
                          (Attention.of_image (torch_zeros 1 64 16 16))
       = Raise RuntimeError.
Proof.
  destruct (synthesis_attention_needs_64_positions (ops := fixture_ops)
              fixture_weights (torch_zeros 1 64 8 8))
    as (self & Hi & _ & Hok & _); try (cbn; lia).
  exists self. split; [exact Hi|]. split; [apply Hok; reflexivity|].
  destruct (synthesis_attention_needs_64_positions (ops := fixture_ops)
              fixture_weights (torch_zeros 1 64 16 16))
    as (self' & Hi' & _ & _ & Herr); try (cbn; lia).
  rewrite Hi in Hi'. injection Hi' as <-. apply Herr. cbn. lia.
Defined.

Lemma motion_estimator_call_raises_witness :
  exists feat0_pyr f0,
    (feat0_pyr_rgb <- feat_pyramid_rgb (Model_init (ops := fixture_ops)
                                          None None)
                        (torch_zeros 1 3 16 16) ;;
     feat0_pyr_depth <- feat_pyramid_depth (Model_init (ops := fixture_ops)
                                              None None)
                          (torch_zeros 1 3 16 16) ;;
     cat_pairs feat0_pyr_rgb feat0_pyr_depth)
    = Ok feat0_pyr
    /\ py_last feat0_pyr = Ok f0
    /\ tC f0 = 128
    /\ raises (motion_estimator (Model_init (ops := fixture_ops) None None)
                 f0 f0
                 (VTensor (torch_zeros 1 64 4 4))
                 (VTensor (torch_zeros 1 4 4 4))).
Proof.
  destruct (feat_pyramid_rgb (Model_init (ops := fixture_ops) None None)
              (torch_zeros 1 3 16 16)) as [p|e] eqn:P.
  2:{ vm_compute in P. discriminate P. }
  destruct (feat_pyramid_depth (Model_init (ops := fixture_ops) None None)
              (torch_zeros 1 3 16 16)) as [q|e] eqn:Q.
  2:{ vm_compute in Q. discriminate Q. }
  destruct (cat_pairs p q) as [l|e] eqn:C.
  2:{ vm_compute in P. vm_compute in Q. injection P as <-. injection Q as <-.
      vm_compute in C. discriminate C. }
  destruct (motion_estimator_call_raises (ops := fixture_ops) None None
              (torch_zeros 1 3 16 16) (torch_zeros 1 3 16 16)
              (torch_zeros 1 3 16 16) (torch_zeros 1 3 16 16)
              p p q q l l P P Q Q C C)
    as (f0 & f1 & L0 & L1 & H0 & _ & _ & Hr).
  assert (f1 = f0) as -> by congruence.
  exists l, f0. split; [cbn [bind]; exact C|]. split; [exact L0|].
  split; [exact H0|].
  apply (Hr (torch_zeros 1 64 4 4) (torch_zeros 1 4 4 4)); cbn; lia.
Defined.

Lemma zero_skipped_and_plain_pyramid_witness :
  exists out ref,
    forward (ops := fixture_ops) (fixture_model 2 0) fixture_img fixture_img
            (1 / 2)%R (Some 2) (Some 0)
    = Ok out
    /\ plain_pyramid (ops := fixture_ops)
         (level_call (ops := fixture_ops) (fixture_model 2 0))
         fixture_img fixture_img (1 / 2)%R 2
       = Ok ref
    /\ List.length (pyr_frames ref) = 2%nat
    /\ List.length (out_interp_imgs out) = 1%nat.
Proof.
  eexists.
  destruct (proj2 (proj2 (proj2
              (zero_skipped_and_plain_pyramid (ops := fixture_ops))))
              (fixture_model 2 0) fixture_img fixture_img (1 / 2)%R 2 _ eq_refl)
    as (ref & Ep & _ & _ & _ & Elen & Eimgs).
  exists ref. split; [reflexivity|]. split; [exact Ep|].
  split; [lia|]. rewrite Eimgs. reflexivity.
Defined.
